(** * electron-as-browser: the tab manager [BrowserLikeWindow]

    A shallow embedding of the class [BrowserLikeWindow] (index.ts): the tab
    order, the active pointer, the per-tab records, the live views with their
    web contents, the IPC channel listeners, the session listeners and the
    default window-open handler.  The state is passed explicitly; what the
    manager does to the Electron runtime (layout, IPC replies, emitted
    events, attaching and destroying views) is recorded, in order, in a log
    carried by the state.  The runtime itself enters as events: IPC messages,
    session signals, window-open requests, history changes, and the web
    contents id it gives to each new [BrowserView].

    The window's ['closed'] listener and the control surface's hook
    [useConnect] (useConnect.ts), which mirrors the notifications, are
    embedded as well.  The ['act'] channel, which calls a method of the
    runtime on the current web contents, is embedded apart from the six
    channels the manager handles itself: [run] takes the events of those
    six, [session] takes ['act'] messages too.  The web preferences of a
    view are left out. *)

From Stdlib Require Import Ascii.
From stdpp Require Import gmap strings list pretty.

Local Open Scope Z_scope.

(** ** JavaScript values used by the source *)

Module JS.

(** An own property of an object literal: missing, present with the value
    [undefined], or present with a value. *)
Inductive Slot (A : Type) : Type :=
  | Absent
  | Undefined
  | Value (a : A).
Arguments Absent {A}.
Arguments Undefined {A}.
Arguments Value {A} a.

(** Reading [o.p]: [undefined] for a missing property too. *)
Definition read {A} (s : Slot A) : option A :=
  match s with Value a => Some a | _ => None end.

(** The property [p] of [{...base, ...later}]. *)
Definition over {A} (base later : Slot A) : Slot A :=
  match later with Absent => base | _ => later end.

(** Truthiness of a number, of a string, of [x | undefined]. *)
Definition truthy (n : Z) : bool := bool_decide (n ≠ 0).
Definition nonempty (s : string) : bool := bool_decide (s ≠ "").
Definition truthy_opt (o : option Z) : bool := from_option truthy false o.
Definition nonempty_opt (o : option string) : bool := from_option nonempty false o.

(** [o[k]] on an object whose values may be [undefined]. *)
Definition get {V} (o : gmap Z (option V)) (k : Z) : option V := mjoin (o !! k).

(** [Array.prototype.indexOf]: first position, or [-1]. *)
Fixpoint indexOf (l : list Z) (x : Z) : Z :=
  match l with
  | [] => -1
  | y :: l' =>
      if decide (y = x) then 0
      else let r := indexOf l' x in if decide (r = -1) then -1 else r + 1
  end.

(** [a[i]]: [undefined] out of range. *)
Definition at_index {A} (l : list A) (i : Z) : option A :=
  if decide (0 ≤ i) then l !! Z.to_nat i else None.

(** [a.splice(start, 0, x)]: a negative [start] counts from the end, and the
    position is clamped to the array. *)
Definition splice_insert {A} (start : Z) (x : A) (l : list A) : list A :=
  let len := Z.of_nat (length l) in
  let pos := if decide (start < 0) then Z.max (len + start) 0 else Z.min start len in
  take (Z.to_nat pos) l ++ x :: drop (Z.to_nat pos) l.

End JS.

Import JS.

(** ** Data model *)

Abbreviation TabID := Z.

(** [interface Tab].  A stored record is built by object spreads, so any of
    its properties may be missing; a partial patch has the same shape. *)
Record Tab := mkTab {
  url : Slot string;
  href : Slot string;
  title : Slot string;
  favicon : Slot string;
  isLoading : Slot bool;
  canGoBack : Slot bool;
  canGoForward : Slot bool
}.

(** [{}] *)
Definition empty_tab : Tab :=
  mkTab Absent Absent Absent Absent Absent Absent Absent.

(** [{...a, ...b}] *)
Definition spread (a b : Tab) : Tab :=
  {| url := over (url a) (url b);
     href := over (href a) (href b);
     title := over (title a) (title b);
     favicon := over (favicon a) (favicon b);
     isLoading := over (isLoading a) (isLoading b);
     canGoBack := over (canGoBack a) (canGoBack b);
     canGoForward := over (canGoForward a) (canGoForward b) |}.

(** [{...tab}] where [tab] may be [undefined]. *)
Definition spread_undefined (tab : option Tab) : Tab :=
  spread empty_tab (default empty_tab tab).

(** [interface Tabs] *)
Abbreviation Tabs := (gmap TabID (option Tab)).

Record Rectangle := mkRect { x : Z; y : Z; width : Z; height : Z }.

(** The signals of a page session the manager listens to. *)
Inductive Signal :=
  | did_start_loading
  | did_start_navigation
  | will_redirect
  | page_title_updated
  | page_favicon_updated
  | did_stop_loading
  | dom_ready.

Global Instance Signal_eq_dec : EqDecision Signal.
Proof. solve_decision. Defined.

(** A listener registered by [loadURL]: the signal, and the view id its
    closure captured. *)
Record Listener := mkListener { on : Signal; owner : TabID }.

Global Instance Listener_eq_dec : EqDecision Listener.
Proof. solve_decision. Defined.

(** [HandlerDetails], the fields the default handler reads. *)
Record HandlerDetails := mkDetails {
  hd_url : string;
  hd_frameName : string;
  hd_disposition : string
}.

Inductive Action := deny | allow.

(** The handler given to [setWindowOpenHandler]: the closure [onNewWindow]
    of [loadURL] (with the id it captured) or [options.onNewWindow]. *)
Inductive WindowOpenHandler :=
  | DefaultHandler (origin : TabID)
  | CustomHandler (h : HandlerDetails → Action).

(** The state of a [WebContents] that the manager reads or writes.
    [wc_canGoBack] and [wc_canGoForward] are what [canGoBack()] and
    [canGoForward()] answer; the runtime owns them. *)
Record WebContents := mkWC {
  wc_marks : bool;                               (* __IS_INITIALIZED__ *)
  wc_handler : option WindowOpenHandler;
  wc_listeners : list Listener;                  (* in registration order *)
  wc_loads : list string;                        (* loadURL calls, oldest first *)
  wc_canGoBack : bool;
  wc_canGoForward : bool
}.

(** [type TabView = BrowserView & { id }] *)
Record TabView := mkView { view_id : TabID; webContents : WebContents }.

(** [new BrowserView(...)] with [view.id = view.webContents.id]. *)
Definition new_view (id : TabID) : TabView :=
  mkView id (mkWC false None [] [] false false).

(** Messages to the control surface. *)
Inductive Notification :=
  | active_update (id : option TabID)
  | tabs_update (confs : Tabs) (tabs : list TabID).

(** Events for the host application ([EventEmitter.emit]). *)
Inductive Emitted :=
  | emit_control_ready
  | emit_new_tab (view : TabID) (openedURL : option string) (lastView : option TabID)
  | emit_url_updated (view : TabID) (href : string).

(** What the manager does to the runtime. *)
Inductive Effect :=
  | Layout (applied : option (TabID * Rectangle))   (* one setContentBounds() *)
  | Reply (n : Notification)                       (* ipc.reply *)
  | Emit (e : Emitted)
  | RemoveBrowserView (id : TabID)
  | AddBrowserView (id : TabID)
  | SetAutoResize (id : TabID)
  | Focus (id : TabID)
  | OpenDevTools (id : TabID)
  | Destroy (id : TabID).

Record BrowserLikeWindowOptions := mkOptions {
  controlHeight : option Z;
  startPage : option string;
  blankPage : option string;
  blankTitle : option string;
  opt_onNewWindow : option (HandlerDetails → Action);
  debug : bool
}.

(** [IpcMainEvent]: its sender's web contents id. *)
Record IpcMainEvent := mkIpc { sender : Z }.

Record BrowserLikeWindow := mkWin {
  options : BrowserLikeWindowOptions;
  contentSize : Z * Z;                    (* win.getContentSize() *)
  controlView : option Z;                 (* its web contents id *)
  defCurrentViewId : option TabID;
  defTabConfigs : Tabs;
  views : gmap TabID (option TabView);
  tabs : list TabID;
  ipc : option IpcMainEvent;
  log : list Effect
}.

(** The state the constructor leaves. *)
Definition constructed (o : BrowserLikeWindowOptions) (size : Z * Z) (control : Z)
  : BrowserLikeWindow :=
  mkWin o size (Some control) None ∅ ∅ [] None [].

(** Field updates. *)
Definition with_defCurrentViewId (v : option TabID) (w : BrowserLikeWindow) :=
  mkWin (options w) (contentSize w) (controlView w) v (defTabConfigs w)
        (views w) (tabs w) (ipc w) (log w).
Definition with_defTabConfigs (v : Tabs) (w : BrowserLikeWindow) :=
  mkWin (options w) (contentSize w) (controlView w) (defCurrentViewId w) v
        (views w) (tabs w) (ipc w) (log w).
Definition with_views (v : gmap TabID (option TabView)) (w : BrowserLikeWindow) :=
  mkWin (options w) (contentSize w) (controlView w) (defCurrentViewId w)
        (defTabConfigs w) v (tabs w) (ipc w) (log w).
Definition with_tabs (v : list TabID) (w : BrowserLikeWindow) :=
  mkWin (options w) (contentSize w) (controlView w) (defCurrentViewId w)
        (defTabConfigs w) (views w) v (ipc w) (log w).
Definition with_ipc (v : option IpcMainEvent) (w : BrowserLikeWindow) :=
  mkWin (options w) (contentSize w) (controlView w) (defCurrentViewId w)
        (defTabConfigs w) (views w) (tabs w) v (log w).
Definition effect (e : Effect) (w : BrowserLikeWindow) :=
  mkWin (options w) (contentSize w) (controlView w) (defCurrentViewId w)
        (defTabConfigs w) (views w) (tabs w) (ipc w) (log w ++ [e]).

(** ** The methods of [BrowserLikeWindow] *)

Definition getControlBounds (w : BrowserLikeWindow) : Rectangle :=
  {| x := 0; y := 0; width := fst (contentSize w);
     height := match controlHeight (options w) with
               | Some h => if truthy h then h else 130
               | None => 130
               end |}.

Definition currentViewId (w : BrowserLikeWindow) : option TabID := defCurrentViewId w.

Definition tabConfigs (w : BrowserLikeWindow) : Tabs := defTabConfigs w.

Definition currentView (w : BrowserLikeWindow) : option TabView :=
  match currentViewId w with
  | Some id => if truthy id then get (views w) id else None
  | None => None
  end.

Definition setContentBounds (w : BrowserLikeWindow) : BrowserLikeWindow :=
  let '(contentWidth, contentHeight) := contentSize w in
  let controlBounds := getControlBounds w in
  match currentView w with
  | Some v =>
      effect (Layout (Some (view_id v,
                {| x := 0; y := y controlBounds + height controlBounds;
                   width := contentWidth;
                   height := contentHeight - height controlBounds |}))) w
  | None => effect (Layout None) w
  end.

(** [ipc.reply] when the reply handle has been captured. *)
Definition reply (n : Notification) (w : BrowserLikeWindow) : BrowserLikeWindow :=
  match ipc w with
  | Some _ => effect (Reply n) w
  | None => w
  end.

(** [set currentViewId(id)] *)
Definition set_currentViewId (id : option TabID) (w : BrowserLikeWindow) :=
  reply (active_update id) (setContentBounds (with_defCurrentViewId id w)).

(** [set tabConfigs(v)] *)
Definition set_tabConfigs (v : Tabs) (w : BrowserLikeWindow) :=
  let w := with_defTabConfigs v w in
  reply (tabs_update v (tabs w)) w.

Definition setTabConfig (viewId : TabID) (kv : Tab) (w : BrowserLikeWindow) :=
  let tab := get (tabConfigs w) viewId in
  let wc := webContents <$> get (views w) viewId in
  set_tabConfigs
    (<[viewId :=
         Some (spread
                 {| url := url (spread_undefined tab);
                    href := href (spread_undefined tab);
                    title := title (spread_undefined tab);
                    favicon := favicon (spread_undefined tab);
                    isLoading := isLoading (spread_undefined tab);
                    canGoBack := Value (from_option wc_canGoBack false wc);
                    canGoForward := Value (from_option wc_canGoForward false wc) |}
                 kv)]> (tabConfigs w)) w.

(** The listeners [loadURL] chains on the web contents, in source order. *)
Definition lifecycle (id : TabID) : list Listener :=
  map (λ s, mkListener s id)
      [did_start_loading; did_start_navigation; will_redirect; page_title_updated;
       page_favicon_updated; did_stop_loading; dom_ready].

(** The web contents of the view stored under [key], updated in place. *)
Definition update_webContents (key : TabID) (f : WebContents → WebContents)
    (w : BrowserLikeWindow) : BrowserLikeWindow :=
  match get (views w) key with
  | Some v => with_views (<[key := Some (mkView (view_id v) (f (webContents v)))]> (views w)) w
  | None => w
  end.

(** [webContents.loadURL(url)] *)
Definition navigate (u : string) (wc : WebContents) : WebContents :=
  mkWC (wc_marks wc) (wc_handler wc) (wc_listeners wc) (wc_loads wc ++ [u])
       (wc_canGoBack wc) (wc_canGoForward wc).

(** The first-navigation wiring of [loadURL]: window-open handler, the
    listeners, the navigation itself, then the marker. *)
Definition wire (o : BrowserLikeWindowOptions) (id : TabID) (u : string)
    (wc : WebContents) : WebContents :=
  mkWC true
       (Some (match opt_onNewWindow o with
              | Some h => CustomHandler h
              | None => DefaultHandler id
              end))
       (wc_listeners wc ++ lifecycle id)
       (wc_loads wc ++ [u])
       (wc_canGoBack wc) (wc_canGoForward wc).

Definition loadURL (u : string) (w : BrowserLikeWindow) : BrowserLikeWindow :=
  match currentView w, currentViewId w with
  | Some cv, Some key =>
      if nonempty u then
        let id := view_id cv in
        if wc_marks (webContents cv) then update_webContents key (navigate u) w
        else
          let w := update_webContents key (wire (options w) id u) w in
          let w := setContentBounds w in
          if debug (options w) then effect (OpenDevTools id) w else w
      else w
  | _, _ => w
  end.

Definition setCurrentView (viewId : option TabID) (w : BrowserLikeWindow) :=
  match viewId with
  | Some id =>
      if truthy id then
        let w := match currentView w with
                 | Some cv => effect (RemoveBrowserView (view_id cv)) w
                 | None => w
                 end in
        let w := match get (views w) id with
                 | Some v => effect (AddBrowserView (view_id v)) w
                 | None => w
                 end in
        set_currentViewId (Some id) w
      else w
  | None => w
  end.

(** [newTab(url, appendTo)]; [fresh] is the id the runtime gives to the web
    contents of the [BrowserView] created here. *)
Definition newTab (fresh : TabID) (u : option string) (appendTo : option TabID)
    (w : BrowserLikeWindow) : BrowserLikeWindow :=
  let view := new_view fresh in
  let w :=
    if truthy_opt appendTo then
      let prevIndex := indexOf (tabs w) (default 0 appendTo) in
      with_tabs (splice_insert (prevIndex + 1) (view_id view) (tabs w)) w
    else with_tabs (tabs w ++ [view_id view]) w in
  let w := with_views (<[view_id view := Some view]> (views w)) w in
  let lastView := currentView w in
  let w := setCurrentView (Some (view_id view)) w in
  let w := effect (SetAutoResize (view_id view)) w in
  let w := if nonempty_opt u then loadURL (default "" u) w else w in
  let w := setTabConfig (view_id view)
             {| url := Absent; href := Absent;
                title := Value (match blankTitle (options w) with
                                | Some t => if nonempty t then t else "about:blank"
                                | None => "about:blank"
                                end);
                favicon := Absent; isLoading := Absent;
                canGoBack := Absent; canGoForward := Absent |} w in
  effect (Emit (emit_new_tab (view_id view) u (view_id <$> lastView))) w.

Definition switchTab (viewId : TabID) (w : BrowserLikeWindow) :=
  let w := setCurrentView (Some viewId) w in
  match currentView w with
  | Some cv => effect (Focus (view_id cv)) w
  | None => w
  end.

Definition destroyView (viewId : TabID) (w : BrowserLikeWindow) :=
  match get (views w) viewId with
  | Some v => with_views (<[viewId := None]> (views w)) (effect (Destroy (view_id v)) w)
  | None => w
  end.

(** ** The IPC channels *)

(** The messages of the six channels whose listeners work on the manager's
    own state.  The seventh channel, ['act'], passes a method name on to
    the runtime; it is embedded further down, with the runtime's answers. *)
Inductive Command :=
  | control_ready
  | url_change (u : string)
  | url_enter (u : string)
  | new_tab (u : option string)
  | switch_tab (id : TabID)
  | close_tab (id : TabID).

(** The reassignment at the head of the ['close-tab'] listener. *)
Definition close_reassign (id : TabID) (w : BrowserLikeWindow) :=
  if decide (Some id = currentViewId w) then
    let removeIndex := indexOf (tabs w) id in
    let nextIndex :=
      if decide (removeIndex = Z.of_nat (length (tabs w)) - 1) then 0
      else removeIndex + 1 in
    setCurrentView (at_index (tabs w) nextIndex) w
  else w.

(** Its removals: from the order, from the records, from the views. *)
Definition close_remove (id : TabID) (w : BrowserLikeWindow) :=
  let w := with_tabs (filter (λ v, v ≠ id) (tabs w)) w in
  let w := set_tabConfigs (<[id := None]> (tabConfigs w)) w in
  destroyView id w.

(** The listeners of [channels]; [fresh] as in [newTab]. *)
Definition channels (fresh : TabID) (c : Command) (e : IpcMainEvent)
    (w : BrowserLikeWindow) : BrowserLikeWindow :=
  match c with
  | control_ready =>
      let w := with_ipc (Some e) w in
      let w := newTab fresh (Some (default "" (startPage (options w)))) None w in
      effect (Emit emit_control_ready) w
  | url_change u =>
      if truthy_opt (currentViewId w)
      then setTabConfig (default 0 (currentViewId w))
             {| url := Value u; href := Absent; title := Absent; favicon := Absent;
                isLoading := Absent; canGoBack := Absent; canGoForward := Absent |} w
      else w
  | url_enter u => loadURL u w
  | new_tab u => newTab fresh u None w
  | switch_tab id => switchTab id w
  | close_tab id =>
      let w := close_remove id (close_reassign id w) in
      if decide (length (tabs w) = 0%nat) then newTab fresh (blankPage (options w)) None w
      else w
  end.

(** The wrapper registered with [ipcMain.on]: only messages of this
    window's own control view reach the listener. *)
Definition dispatch (fresh : TabID) (e : IpcMainEvent) (c : Command)
    (w : BrowserLikeWindow) : BrowserLikeWindow :=
  match controlView w with
  | Some control => if decide (sender e = control) then channels fresh c e w else w
  | None => w
  end.

(** ** Session signals *)

Inductive Occurrence :=
  | on_did_start_loading
  | on_did_start_navigation (href : string) (isInPlace isMainFrame : bool)
  | on_will_redirect (href : string)
  | on_page_title_updated (title : string)
  | on_page_favicon_updated (favicons : list string)
  | on_did_stop_loading
  | on_dom_ready.

Definition signal_of (o : Occurrence) : Signal :=
  match o with
  | on_did_start_loading => did_start_loading
  | on_did_start_navigation _ _ _ => did_start_navigation
  | on_will_redirect _ => will_redirect
  | on_page_title_updated _ => page_title_updated
  | on_page_favicon_updated _ => page_favicon_updated
  | on_did_stop_loading => did_stop_loading
  | on_dom_ready => dom_ready
  end.

(** [{ k: v }] patches of one or two properties. *)
Definition patch_isLoading (b : bool) : Tab :=
  mkTab Absent Absent Absent Absent (Value b) Absent Absent.
Definition patch_url_href (h : string) : Tab :=
  mkTab (Value h) (Value h) Absent Absent Absent Absent Absent.
Definition patch_title (t : string) : Tab :=
  mkTab Absent Absent (Value t) Absent Absent Absent Absent.
Definition patch_favicon (f : Slot string) : Tab :=
  mkTab Absent Absent Absent f Absent Absent Absent.

(** The body of the listener [loadURL] registered for the signal, with the
    id its closure captured. *)
Definition handler (id : TabID) (o : Occurrence) (w : BrowserLikeWindow) :=
  match o with
  | on_did_start_loading => setTabConfig id (patch_isLoading true) w
  | on_did_start_navigation h _ isMainFrame =>
      if isMainFrame
      then effect (Emit (emit_url_updated id h)) (setTabConfig id (patch_url_href h) w)
      else w
  | on_will_redirect h =>
      effect (Emit (emit_url_updated id h)) (setTabConfig id (patch_url_href h) w)
  | on_page_title_updated t => setTabConfig id (patch_title t) w
  | on_page_favicon_updated favicons =>
      setTabConfig id (patch_favicon (match favicons with
                                      | f :: _ => Value f
                                      | [] => Undefined
                                      end)) w
  | on_did_stop_loading => setTabConfig id (patch_isLoading false) w
  | on_dom_ready => effect (Focus id) w
  end.

(** The web contents of the live view [key] emits a signal: every listener
    registered for it runs, in registration order. *)
Definition fire (key : TabID) (o : Occurrence) (w : BrowserLikeWindow) :=
  match get (views w) key with
  | Some v =>
      foldl (λ w l, if decide (on l = signal_of o) then handler (owner l) o w else w)
            w (wc_listeners (webContents v))
  | None => w
  end.

(** The runtime changes what [canGoBack()] and [canGoForward()] answer. *)
Definition history (back fwd : bool) (wc : WebContents) : WebContents :=
  mkWC (wc_marks wc) (wc_handler wc) (wc_listeners wc) (wc_loads wc) back fwd.

(** ** The window-open handler *)

Inductive Result (A : Type) : Type :=
  | Ok (a : A)
  | Throw.                     (* the TypeError of [new URL] *)
Arguments Ok {A} a.
Arguments Throw {A}.

Inductive Event :=
  | Ipc (e : IpcMainEvent) (c : Command)
  | Session (view : TabID) (o : Occurrence)
  | WindowOpen (view : TabID) (d : HandlerDetails)
  | History (view : TabID) (back fwd : bool).

(** One turn of the event loop: the event, and the id the runtime would
    give to a [BrowserView] created while it is handled. *)
Record Step := mkStep { fresh_id : TabID; event : Event }.

Section Manager.

(** [new URL(s).host] of the platform: [None] when the constructor throws,
    the empty string for a URL without host. *)
Variable url_host : string → option string.

(** The closure [onNewWindow] of [loadURL]; [id] is the view id it captured. *)
Definition onNewWindow (fresh id : TabID) (detail : HandlerDetails)
    (w : BrowserLikeWindow) : Result (Action * BrowserLikeWindow) :=
  match url_host (hd_url detail) with
  | None => Throw
  | Some host =>
      if nonempty host then
        if decide (hd_disposition detail = "new-window") then Ok (allow, w)
        else Ok (deny, newTab fresh (Some (hd_url detail)) (Some id) w)
      else Ok (deny, w)
  end.

(** The page of the live view [key] asks for a window. *)
Definition window_open (fresh key : TabID) (d : HandlerDetails)
    (w : BrowserLikeWindow) : BrowserLikeWindow :=
  match get (views w) key with
  | Some v =>
      match wc_handler (webContents v) with
      | Some (DefaultHandler id) =>
          match onNewWindow fresh id d w with
          | Ok (_, w') => w'
          | Throw => w
          end
      | _ => w
      end
  | None => w
  end.

Definition step (s : Step) (w : BrowserLikeWindow) : BrowserLikeWindow :=
  match event s with
  | Ipc e c => dispatch (fresh_id s) e c w
  | Session key o => fire key o w
  | WindowOpen key d => window_open (fresh_id s) key d w
  | History key back fwd => update_webContents key (history back fwd) w
  end.

Definition run (steps : list Step) (w : BrowserLikeWindow) : BrowserLikeWindow :=
  foldl (λ w s, step s w) w steps.

End Manager.

(** ** The ['act'] channel

    The seventh listener of [channels], [webContentsAct], hands a method
    name to the web contents of the current view.  The manager's part is
    the lookup, the test and the call; whether the property is callable,
    what [getURL()] returns and what the call does to the web contents are
    the runtime's, and come with the message. *)

Record Answer := mkAnswer {
  callable : bool;                        (* [isCallable(webContents[actionName])] *)
  current_url : string;                   (* [webContents.getURL()] *)
  call : WebContents → WebContents        (* [action.call(webContents)] *)
}.

Definition webContentsAct (actionName : string) (a : Answer)
    (w : BrowserLikeWindow) : BrowserLikeWindow :=
  match currentView w, currentViewId w with
  | Some cv, Some key =>
      if callable a then
        if bool_decide (actionName = "reload") && bool_decide (current_url a = "")
        then w
        else update_webContents key (call a) w
      else w
  | _, _ => w
  end.

(** Its wrapper, as in [dispatch]. *)
Definition act (e : IpcMainEvent) (actionName : string) (a : Answer)
    (w : BrowserLikeWindow) : BrowserLikeWindow :=
  match controlView w with
  | Some control => if decide (sender e = control) then webContentsAct actionName a w else w
  | None => w
  end.

(** A turn of the event loop: one of the events above, or an ['act']
    message. *)
Inductive Turn :=
  | Handled (s : Step)
  | Act (e : IpcMainEvent) (actionName : string) (a : Answer).

Definition turn (url_host : string → option string) (t : Turn)
    (w : BrowserLikeWindow) : BrowserLikeWindow :=
  match t with
  | Handled s => step url_host s w
  | Act e actionName a => act e actionName a w
  end.

Definition session (url_host : string → option string) (turns : list Turn)
    (w : BrowserLikeWindow) : BrowserLikeWindow :=
  foldl (λ w t, turn url_host t w) w turns.

(** ** A URL constructor to run the handler with

    [new URL(s).host] after the URL Standard's parser without a base URL, as
    far as the host goes.  The input is trimmed; a string without a scheme
    is rejected; a URL with an opaque path or without authority has the
    empty host; credentials are dropped and must be followed by a host; a
    special scheme requires a host; a forbidden code point in the host and
    a port that is no number up to 65535 are rejected; the default port of
    the scheme is left out.  Not done: IDNA for domains outside ASCII, and
    the parsing of IPv4 and IPv6 addresses, which are returned as written.
    The theorems below hold for any constructor; this one serves to
    evaluate the handler on concrete requests. *)

Module URL.

Definition code (c : ascii) : nat := nat_of_ascii c.

Definition is_upper (c : ascii) : bool := Nat.leb 65 (code c) && Nat.leb (code c) 90.
Definition is_lower (c : ascii) : bool := Nat.leb 97 (code c) && Nat.leb (code c) 122.
Definition is_digit (c : ascii) : bool := Nat.leb 48 (code c) && Nat.leb (code c) 57.
Definition is_alpha (c : ascii) : bool := is_upper c || is_lower c.

Definition is_scheme_char (c : ascii) : bool :=
  is_alpha c || is_digit c
  || bool_decide (c = "+"%char) || bool_decide (c = "-"%char) || bool_decide (c = "."%char).

Definition lower (c : ascii) : ascii :=
  if is_upper c then ascii_of_nat (code c + 32) else c.

Fixpoint lower_string (s : string) : string :=
  match s with
  | EmptyString => EmptyString
  | String c r => String (lower c) (lower_string r)
  end.

Fixpoint any (p : ascii → bool) (s : string) : bool :=
  match s with
  | EmptyString => false
  | String c r => p c || any p r
  end.

(** The input loses its leading and trailing C0 controls and spaces, then
    every tab and newline. *)
Definition is_c0_or_space (c : ascii) : bool := Nat.leb (code c) 32.

Definition is_tab_or_newline (c : ascii) : bool :=
  bool_decide (code c ∈ [9; 10; 13]%nat).

Fixpoint trim_start (s : string) : string :=
  match s with
  | String c r => if is_c0_or_space c then trim_start r else s
  | EmptyString => EmptyString
  end.

Fixpoint trim_end (s : string) : string :=
  match s with
  | String c r =>
      match trim_end r with
      | EmptyString => if is_c0_or_space c then EmptyString else String c EmptyString
      | r' => String c r'
      end
  | EmptyString => EmptyString
  end.

Fixpoint remove_tab_newline (s : string) : string :=
  match s with
  | String c r =>
      if is_tab_or_newline c then remove_tab_newline r
      else String c (remove_tab_newline r)
  | EmptyString => EmptyString
  end.

(** Scheme state: scheme characters up to the first [:]. *)
Fixpoint scheme_state (s acc : string) : option (string * string) :=
  match s with
  | EmptyString => None
  | String c r =>
      if bool_decide (c = ":"%char) then Some (acc, r)
      else if is_scheme_char c then scheme_state r (acc +:+ String (lower c) EmptyString)
      else None
  end.

(** Scheme start state: without a base URL, no scheme is a failure. *)
Definition split_scheme (s : string) : option (string * string) :=
  match s with
  | String c _ => if is_alpha c then scheme_state s EmptyString else None
  | EmptyString => None
  end.

Definition special (scheme : string) : bool :=
  bool_decide (scheme ∈ ["http"; "https"; "ws"; "wss"; "ftp"]).

Definition default_port (scheme : string) : option N :=
  if bool_decide (scheme ∈ ["http"; "ws"]) then Some 80%N
  else if bool_decide (scheme ∈ ["https"; "wss"]) then Some 443%N
  else if bool_decide (scheme = "ftp") then Some 21%N
  else None.

Definition is_slash (c : ascii) : bool :=
  bool_decide (c = "/"%char) || bool_decide (c = "\"%char).

Fixpoint skip_slashes (s : string) : string :=
  match s with
  | String c r => if is_slash c then skip_slashes r else s
  | EmptyString => EmptyString
  end.

(** The authority ends at [/], [?], [#] (and [\] for a special scheme). *)
Fixpoint authority (sp : bool) (s : string) : string :=
  match s with
  | EmptyString => EmptyString
  | String c r =>
      if bool_decide (c = "/"%char) || bool_decide (c = "?"%char)
         || bool_decide (c = "#"%char) || (sp && bool_decide (c = "\"%char))
      then EmptyString
      else String c (authority sp r)
  end.

(** Credentials end at the last [@]. *)
Fixpoint after_credentials (s acc : string) : string :=
  match s with
  | EmptyString => acc
  | String c r =>
      if bool_decide (c = "@"%char) then after_credentials r EmptyString
      else after_credentials r (acc +:+ String c EmptyString)
  end.

(** Host state: the host ends at the first [:] outside brackets; what
    follows is the port. *)
Fixpoint split_port (s : string) (inside : bool) (acc : string)
  : string * option string :=
  match s with
  | EmptyString => (acc, None)
  | String c r =>
      if bool_decide (c = ":"%char) && negb inside then (acc, Some r)
      else split_port r
             (if bool_decide (c = "["%char) then true
              else if bool_decide (c = "]"%char) then false else inside)
             (acc +:+ String c EmptyString)
  end.

(** Port state: digits only, at most 65535. *)
Fixpoint port_value (s : string) (acc : N) : option N :=
  match s with
  | EmptyString => Some acc
  | String c r =>
      if is_digit c then port_value r (acc * 10 + N.of_nat (code c - 48))%N else None
  end.

Definition forbidden_host (c : ascii) : bool :=
  bool_decide (code c ∈ [0; 9; 10; 13; 32; 35; 47; 58; 60; 62; 63; 64; 91; 92; 93;
                          94; 124]%nat).

Definition forbidden_domain (c : ascii) : bool :=
  forbidden_host c || Nat.leb (code c) 31 || bool_decide (code c = 37%nat)
  || bool_decide (code c = 127%nat).

Definition hex_value (c : ascii) : option nat :=
  if is_digit c then Some (code c - 48)%nat
  else if Nat.leb 65 (code c) && Nat.leb (code c) 70 then Some (code c - 55)%nat
  else if Nat.leb 97 (code c) && Nat.leb (code c) 102 then Some (code c - 87)%nat
  else None.

Definition hex_digit (n : nat) : ascii :=
  ascii_of_nat (if Nat.ltb n 10 then n + 48 else n + 55).

Fixpoint percent_decode (s : string) : string :=
  match s with
  | String c r =>
      match r with
      | String h1 (String h2 r') =>
          match hex_value h1, hex_value h2 with
          | Some v1, Some v2 =>
              if bool_decide (c = "%"%char)
              then String (ascii_of_nat (16 * v1 + v2)) (percent_decode r')
              else String c (percent_decode r)
          | _, _ => String c (percent_decode r)
          end
      | _ => String c (percent_decode r)
      end
  | EmptyString => EmptyString
  end.

(** The C0 control percent-encode set: C0 controls and what lies past [~]. *)
Fixpoint percent_encode (s : string) : string :=
  match s with
  | String c r =>
      if Nat.leb (code c) 31 || Nat.leb 127 (code c)
      then String "%" (String (hex_digit (code c / 16))
                         (String (hex_digit (code c mod 16)) (percent_encode r)))
      else String c (percent_encode r)
  | EmptyString => EmptyString
  end.

Fixpoint last_is (x : ascii) (s : string) : bool :=
  match s with
  | String c EmptyString => bool_decide (c = x)
  | String _ r => last_is x r
  | EmptyString => false
  end.

(** The host parser.  An address in brackets must be closed; an opaque host
    (of a scheme that is not special) must hold no forbidden host code
    point; a domain is percent-decoded and lower-cased, and must be
    non-empty and hold no forbidden domain code point. *)
Definition parse_host (opaque : bool) (s : string) : option string :=
  match s with
  | String "[" _ => if last_is "]" s then Some (lower_string s) else None
  | _ =>
      if opaque then
        if any forbidden_host s then None else Some (percent_encode s)
      else
        let domain := lower_string (percent_decode s) in
        if nonempty domain && negb (any forbidden_domain domain) then Some domain
        else None
  end.

(** Authority, host and port states, and the serialisation [host:port]
    with the default port of the scheme left out. *)
Definition authority_host (scheme : string) (sp : bool) (s : string) : option string :=
  let auth := authority sp s in
  let buffer := after_credentials auth EmptyString in
  if any (λ c, bool_decide (c = "@"%char)) auth && negb (nonempty buffer) then None
  else
    match split_port buffer false EmptyString with
    | (h, Some p) =>
        if nonempty h then
          match parse_host (negb sp) h, port_value p 0 with
          | Some h', Some n =>
              if negb (nonempty p) || bool_decide (default_port scheme = Some n)
              then Some h'
              else if (n <=? 65535)%N then Some (h' +:+ ":" +:+ pretty n)
              else None
          | _, _ => None
          end
        else None
    | (h, None) =>
        if sp && negb (nonempty h) then None else parse_host (negb sp) h
    end.

(** The file states: a host only after two slashes; a Windows drive letter
    is no host, and [localhost] is the empty host. *)
Definition drive_letter (s : string) : bool :=
  match s with
  | String c (String d EmptyString) =>
      is_alpha c && (bool_decide (d = ":"%char) || bool_decide (d = "|"%char))
  | _ => false
  end.

Definition file_host (rest : string) : option string :=
  match rest with
  | String c1 (String c2 r) =>
      if is_slash c1 && is_slash c2 then
        let buffer := authority true r in
        if drive_letter buffer || negb (nonempty buffer) then Some EmptyString
        else
          match parse_host false buffer with
          | Some h => Some (if bool_decide (h = "localhost") then EmptyString else h)
          | None => None
          end
      else Some EmptyString
  | _ => Some EmptyString
  end.

Definition host (s : string) : option string :=
  match split_scheme (remove_tab_newline (trim_end (trim_start s))) with
  | None => None
  | Some (scheme, rest) =>
      if bool_decide (scheme = "file") then file_host rest
      else if special scheme then authority_host scheme true (skip_slashes rest)
      else
        match rest with
        | String "/" (String "/" r) => authority_host scheme false r
        | _ => Some EmptyString
        end
  end.

End URL.

(** ** The window's ['closed'] listener *)





(** ** The control surface's mirror (useConnect.ts) *)

(** The calls of the hook's two option callbacks. *)
Inductive Callback :=
  | onTabsUpdate (confs : Tabs) (tabs : list TabID)
  | onTabActive (tab : option Tab).

(** The three [useState] cells, and the callback calls made so far. *)
Record Mirror := mkMirror {
  m_tabs : Tabs;
  m_tabIDs : list TabID;
  m_activeID : option TabID;
  m_calls : list Callback
}.

(** [useState({})], [useState([])], [useState(0)]. *)
Definition first_render : Mirror := mkMirror ∅ [] (Some 0) [].

(** The object [channels] built by a render: its listeners close over the
    [tabs] of that render; the setters write the cells. *)
Definition render_channels (rendered : Tabs) (n : Notification) (m : Mirror) : Mirror :=
  match n with
  | tabs_update confs ids =>
      mkMirror confs ids (m_activeID m) (m_calls m ++ [onTabsUpdate confs ids])
  | active_update v =>
      let activeTab := from_option (get rendered) None v in
      mkMirror (m_tabs m) (m_tabIDs m) v (m_calls m ++ [onTabActive activeTab])
  end.

(** [useEffect(..., [])] runs once, after the first render: the listeners
    on [ipcRenderer] are those of the first render, for good. *)
Definition registered : Notification → Mirror → Mirror :=
  render_channels (m_tabs first_render).

(** The notifications of the manager arrive in order. *)
Definition deliver (ns : list Notification) (m : Mirror) : Mirror :=
  foldl (λ m n, registered n m) m ns.

(** ** Vocabulary of the properties *)

(** The active pointer is absent with an empty order, or a member of it. *)
Definition pointer_ok (w : BrowserLikeWindow) : Prop :=
  match currentViewId w with
  | None => tabs w = []
  | Some id => id ∈ tabs w
  end.

(** The tab order holds the ids of live surfaces: pairwise distinct ids
    that the runtime really hands out (never [0]), the active one among them. *)
Definition well_formed (w : BrowserLikeWindow) : Prop :=
  NoDup (tabs w) ∧ (0 ∉ tabs w) ∧ pointer_ok w.

(** The id offered by the runtime is a real id not in use in the order. *)
Definition fresh_for (w : BrowserLikeWindow) (id : TabID) : Prop :=
  id ≠ 0 ∧ (id ∉ tabs w).

(** Events that create or close a tab. *)
Definition create_or_close (ev : Event) : Prop :=
  match ev with
  | Ipc _ control_ready | Ipc _ (new_tab _) | Ipc _ (close_tab _) | WindowOpen _ _ => True
  | _ => False
  end.

(** Any event but the activation of an arbitrary id. *)
Definition no_switch (ev : Event) : Prop :=
  match ev with
  | Ipc _ (switch_tab _) => False
  | _ => True
  end.

Definition is_handshake (ev : Event) : Prop :=
  match ev with
  | Ipc _ control_ready => True
  | _ => False
  end.

(** Along the run, every id the runtime offers is fresh for the state it
    is offered to. *)
Fixpoint allocates_fresh (url_host : string → option string) (steps : list Step)
    (w : BrowserLikeWindow) : Prop :=
  match steps with
  | [] => True
  | s :: rest =>
      fresh_for w (fresh_id s) ∧ allocates_fresh url_host rest (step url_host s w)
  end.

(** Counting in a log. *)
Definition is_layout (e : Effect) : bool :=
  match e with Layout _ => true | _ => false end.
Definition is_reply (e : Effect) : bool :=
  match e with Reply _ => true | _ => false end.
Definition is_active_update (e : Effect) : bool :=
  match e with Reply (active_update _) => true | _ => false end.
Definition is_tabs_update (e : Effect) : bool :=
  match e with Reply (tabs_update _ _) => true | _ => false end.

Definition count (p : Effect → bool) (es : list Effect) : nat :=
  length (filter (λ e, p e = true) es).

(** The effects an operation added: the log of [w'] past that of [w]. *)
Definition produced (w w' : BrowserLikeWindow) : list Effect :=
  drop (length (log w)) (log w').

(** The notifications in a log, in order. *)
Definition notifications (es : list Effect) : list Notification :=
  omap (λ e, match e with Reply n => Some n | _ => None end) es.

(** What reaches the control surface of [ns]: all of it once the reply
    handle is there, nothing before. *)
Definition delivered (w : BrowserLikeWindow) (ns : list Notification)
  : list Notification :=
  match ipc w with Some _ => ns | None => [] end.

(** From [w] to [w'] the log grew by effects holding the notifications [ns]
    and [n] layout passes. *)
Definition adds (w w' : BrowserLikeWindow) (ns : list Notification) (n : nat) : Prop :=
  ∃ es, log w' = log w ++ es ∧ notifications es = ns ∧ count is_layout es = n.

(** From [w] to [w'] the reply handle is the same, and without one no
    notification went out. *)
Definition quiet (w w' : BrowserLikeWindow) : Prop :=
  ipc w' = ipc w ∧ (ipc w = None → notifications (log w') = notifications (log w)).

(** The handshake of this window's own control view. *)
Definition handshake_from (control : Z) (ev : Event) : Prop :=
  match ev with
  | Ipc e control_ready => sender e = control
  | _ => False
  end.

(** The live capabilities of the session of [id], [false] without session. *)
Definition live_canGoBack (w : BrowserLikeWindow) (id : TabID) : bool :=
  from_option wc_canGoBack false (webContents <$> get (views w) id).
Definition live_canGoForward (w : BrowserLikeWindow) (id : TabID) : bool :=
  from_option wc_canGoForward false (webContents <$> get (views w) id).

(** The listeners of a web contents are those of no wiring or of one. *)
Definition wired_once (v : TabView) : Prop :=
  (wc_marks (webContents v) = false ∧ wc_listeners (webContents v) = [])
  ∨ (wc_marks (webContents v) = true
     ∧ wc_listeners (webContents v) = lifecycle (view_id v)).

(** Every live view is wired at most once. *)
Definition views_wired (w : BrowserLikeWindow) : Prop :=
  ∀ (k : TabID) v, get (views w) k = Some v → wired_once v.

(** Every live view is stored under its own id, which is in the tab
    order; a default window-open handler on it captured that id, and only
    a view with a real id has a handler. *)
Definition views_in_order (w : BrowserLikeWindow) : Prop :=
  ∀ (k : TabID) v, get (views w) k = Some v →
    k ∈ tabs w ∧ view_id v = k
    ∧ (∀ origin, wc_handler (webContents v) = Some (DefaultHandler origin) → origin = k)
    ∧ (wc_handler (webContents v) ≠ None → k ≠ 0).

(** How many listeners a web contents has for a signal. *)
Definition listeners_for (s : Signal) (wc : WebContents) : nat :=
  length (filter (λ l, on l = s) (wc_listeners wc)).

(** Along the run, every ['switch-tab'] asks for a tab of the order. *)
Fixpoint switches_in_order (url_host : string → option string) (steps : list Step)
    (w : BrowserLikeWindow) : Prop :=
  match steps with
  | [] => True
  | s :: rest =>
      match event s with
      | Ipc _ (switch_tab id) => id ∈ tabs w
      | _ => True
      end
      ∧ switches_in_order url_host rest (step url_host s w)
  end.

(** Every view the manager holds is stored under an id of the tab order. *)
Definition views_keyed (w : BrowserLikeWindow) : Prop :=
  ∀ id : TabID, is_Some (get (views w) id) → id ∈ tabs w.

(** Every tab of the order has a live view and a Tab record. *)
Definition order_is_live (w : BrowserLikeWindow) : Prop :=
  ∀ id : TabID, id ∈ tabs w →
    is_Some (get (views w) id) ∧ is_Some (get (tabConfigs w) id).

(** What the control surface should be showing: the records, the order and
    the active tab of the manager. *)
Definition shown (w : BrowserLikeWindow) (m : Mirror) : Prop :=
  m_tabs m = tabConfigs w ∧ m_tabIDs m = tabs w ∧ m_activeID m = currentViewId w.

(** The rectangle [setContentBounds] gives to the current view. *)
Definition content_bounds (w : BrowserLikeWindow) : Rectangle :=
  {| x := 0;
     y := y (getControlBounds w) + height (getControlBounds w);
     width := fst (contentSize w);
     height := snd (contentSize w) - height (getControlBounds w) |}.

(** From [w] to [w'], with the same reply handle, notifications went out
    that take a control surface showing [w] to one showing [w']. *)
Definition tracks (w w' : BrowserLikeWindow) : Prop :=
  ipc w' = ipc w
  ∧ ∃ ns, notifications (log w') = notifications (log w) ++ delivered w ns
          ∧ ∀ m, shown w m → shown w' (deliver ns m).

(** A call of [onTabActive] that was given no tab. *)
Definition told_no_tab (c : Callback) : Prop :=
  match c with
  | onTabActive tab => tab = None
  | onTabsUpdate _ _ => True
  end.

(** A notification a control surface can render: a [tabs-update] lists
    each tab once and brings a record for each tab it lists. *)
Definition payload_ok (n : Notification) : Prop :=
  match n with
  | tabs_update confs ids =>
      NoDup ids ∧ ∀ id : TabID, id ∈ ids → is_Some (get confs id)
  | active_update _ => True
  end.

(** The state between two events: distinct tabs, each with its view and
    its record, and a log of notifications that were in order when sent. *)
Definition sound (w : BrowserLikeWindow) : Prop :=
  NoDup (tabs w) ∧ order_is_live w ∧ Forall payload_ok (notifications (log w)).

(** ** A window to evaluate on *)

Module Sample.

Definition opts : BrowserLikeWindowOptions :=
  mkOptions None (Some "https://start.test") None (Some "New tab") None false.

(** The control view has web contents id 1. *)
Definition control : IpcMainEvent := mkIpc 1.

Definition w0 : BrowserLikeWindow := constructed opts (1024, 800) 1.

(** After the handshake: the start page in tab 2. *)
Definition ready : BrowserLikeWindow := dispatch 2 control control_ready w0.

(** Tabs [2; 3; 4], the middle one active. *)
Definition three : BrowserLikeWindow :=
  dispatch 5 control (switch_tab 3)
    (dispatch 4 control (new_tab None) (dispatch 3 control (new_tab None) ready)).

(** The session of tab 2 gained a history entry since its record was merged. *)
Definition navigated : BrowserLikeWindow :=
  update_webContents 2 (history true false) ready.

Definition patch_canGoBack (b : bool) : Tab :=
  mkTab Absent Absent Absent Absent Absent (Value b) Absent.

(** The view of tab 2 once the start page has been loaded in it. *)
Definition view2 : TabView :=
  mkView 2 (mkWC true (Some (DefaultHandler 2)) (lifecycle 2) ["https://start.test"]
              false false).

(** The handshake, a second tab, a link of tab 2 opened as a tab, and
    every tab closed in turn. *)
Definition steps : list Step :=
  [ mkStep 2 (Ipc control control_ready);
    mkStep 3 (Ipc control (new_tab None));
    mkStep 4 (WindowOpen 2 (mkDetails "https://a.test/x" "" "foreground-tab"));
    mkStep 5 (Ipc control (close_tab 4));
    mkStep 6 (Ipc control (close_tab 3));
    mkStep 7 (Ipc control (close_tab 2)) ].

(** A session: the handshake, a second tab that loads a page, back to the
    first tab, an address typed and entered there, and that tab closed. *)
Definition browsing : list Step :=
  [ mkStep 2 (Ipc control control_ready);
    mkStep 3 (Ipc control (new_tab (Some "https://a.test/")));
    mkStep 4 (Session 3 on_did_start_loading);
    mkStep 4 (Session 3 (on_did_start_navigation "https://a.test/" false true));
    mkStep 4 (Session 3 (on_page_title_updated "A"));
    mkStep 4 (Session 3 on_did_stop_loading);
    mkStep 4 (Ipc control (switch_tab 2));
    mkStep 4 (Ipc control (url_change "https://b.te"));
    mkStep 4 (Ipc control (url_enter "https://b.test/"));
    mkStep 4 (History 2 true false);
    mkStep 4 (Ipc control (close_tab 2)) ].

(** Commands and signals that arrive before the handshake. *)
Definition early : list Step :=
  [ mkStep 2 (Ipc control (new_tab (Some "https://a.test/")));
    mkStep 3 (Session 2 on_did_start_loading);
    mkStep 3 (Ipc control (url_change "x"));
    mkStep 3 (Ipc control (close_tab 2)) ].

End Sample.

(** * Properties *)

(** ** Arrays *)

Lemma indexOf_not_elem (l : list Z) (x : Z) : x ∉ l → indexOf l x = -1.
Proof.
  induction l as [|y l IH]; simpl; [done|].
  intros [Hne Hnot]%not_elem_of_cons.
  destruct (decide (y = x)) as [->|_]; [done|].
  rewrite IH by done. by rewrite decide_True.
Qed.

Lemma indexOf_first (l1 l2 : list Z) (x : Z) :
  x ∉ l1 → indexOf (l1 ++ x :: l2) x = Z.of_nat (length l1).
Proof.
  induction l1 as [|y l1 IH]; simpl.
  - intros _. by rewrite decide_True.
  - intros [Hne Hnot]%not_elem_of_cons.
    rewrite decide_False by done. rewrite IH by done.
    rewrite decide_False by lia. lia.
Qed.

Lemma splice_insert_at {A} (l1 l2 : list A) (x : A) :
  splice_insert (Z.of_nat (length l1)) x (l1 ++ l2) = l1 ++ x :: l2.
Proof.
  unfold splice_insert. rewrite decide_False by lia.
  rewrite length_app, Z.min_l by lia. rewrite Nat2Z.id.
  by rewrite take_app_length, drop_app_length.
Qed.

Lemma splice_insert_after {A} (l1 l2 : list A) (x y : A) :
  splice_insert (Z.of_nat (length l1) + 1) y (l1 ++ x :: l2) = l1 ++ x :: y :: l2.
Proof.
  pose proof (splice_insert_at (l1 ++ [x]) l2 y) as H.
  rewrite length_app, Nat2Z.inj_add in H. simpl in H.
  by rewrite <- !app_assoc in H.
Qed.

Lemma splice_insert_front {A} (l : list A) (x : A) :
  splice_insert 0 x l = x :: l.
Proof. apply (splice_insert_at [] l x). Qed.

Lemma splice_insert_perm {A} (i : Z) (x : A) (l : list A) :
  splice_insert i x l ≡ₚ x :: l.
Proof.
  unfold splice_insert. rewrite <- Permutation_middle.
  by rewrite take_drop.
Qed.

Lemma at_index_app_head (l1 l2 : list Z) :
  at_index (l1 ++ l2) (Z.of_nat (length l1)) = head l2.
Proof.
  unfold at_index. rewrite decide_True by lia. rewrite Nat2Z.id.
  rewrite lookup_app_r by lia. rewrite Nat.sub_diag. by destruct l2.
Qed.

Lemma filter_ne_not_elem (l : list Z) (x : Z) :
  x ∉ l → filter (λ v, v ≠ x) l = l.
Proof.
  induction l as [|y l IH]; [done|].
  intros [Hne Hnot]%not_elem_of_cons.
  rewrite filter_cons_True by done. by rewrite IH.
Qed.

Lemma filter_ne_remove (l1 l2 : list Z) (x : Z) :
  x ∉ l1 → x ∉ l2 → filter (λ v, v ≠ x) (l1 ++ x :: l2) = l1 ++ l2.
Proof.
  intros H1 H2. rewrite filter_app, filter_cons_False by naive_solver.
  by rewrite !filter_ne_not_elem.
Qed.

(** ** What each method leaves alone *)

Lemma truthy_true (n : Z) : n ≠ 0 → truthy n = true.
Proof. intros. unfold truthy. by rewrite bool_decide_eq_true. Qed.

Lemma get_insert {V} (o : gmap Z (option V)) (k : Z) (v : option V) :
  get (<[k := v]> o) k = v.
Proof. unfold get. by rewrite lookup_insert_eq. Qed.

Lemma get_insert_ne {V} (o : gmap Z (option V)) (k j : Z) (v : option V) :
  k ≠ j → get (<[k := v]> o) j = get o j.
Proof. intros. unfold get. by rewrite lookup_insert_ne. Qed.

Ltac crush :=
  intros;
  repeat first
    [ progress simpl
    | progress unfold reply, setContentBounds, set_currentViewId, set_tabConfigs,
        setTabConfig, update_webContents, destroyView
    | case_match ];
  try done.

Section Frames.
Implicit Types (w : BrowserLikeWindow) (n : Notification) (kv : Tab).

Lemma effect_tabs e w : tabs (effect e w) = tabs w.
Proof. done. Qed.
Lemma effect_views e w : views (effect e w) = views w.
Proof. done. Qed.
Lemma effect_pointer e w : defCurrentViewId (effect e w) = defCurrentViewId w.
Proof. done. Qed.
Lemma effect_confs e w : defTabConfigs (effect e w) = defTabConfigs w.
Proof. done. Qed.
Lemma effect_ipc e w : ipc (effect e w) = ipc w.
Proof. done. Qed.
Lemma effect_options e w : options (effect e w) = options w.
Proof. done. Qed.
Lemma effect_control e w : controlView (effect e w) = controlView w.
Proof. done. Qed.
Lemma effect_log e w : log (effect e w) = log w ++ [e].
Proof. done. Qed.

Lemma reply_tabs n w : tabs (reply n w) = tabs w.
Proof. crush. Qed.
Lemma reply_views n w : views (reply n w) = views w.
Proof. crush. Qed.
Lemma reply_pointer n w : defCurrentViewId (reply n w) = defCurrentViewId w.
Proof. crush. Qed.
Lemma reply_confs n w : defTabConfigs (reply n w) = defTabConfigs w.
Proof. crush. Qed.
Lemma reply_ipc n w : ipc (reply n w) = ipc w.
Proof. crush. Qed.
Lemma reply_options n w : options (reply n w) = options w.
Proof. crush. Qed.
Lemma reply_control n w : controlView (reply n w) = controlView w.
Proof. crush. Qed.

Lemma setContentBounds_tabs w : tabs (setContentBounds w) = tabs w.
Proof. crush. Qed.
Lemma setContentBounds_views w : views (setContentBounds w) = views w.
Proof. crush. Qed.
Lemma setContentBounds_pointer w :
  defCurrentViewId (setContentBounds w) = defCurrentViewId w.
Proof. crush. Qed.
Lemma setContentBounds_confs w : defTabConfigs (setContentBounds w) = defTabConfigs w.
Proof. crush. Qed.
Lemma setContentBounds_ipc w : ipc (setContentBounds w) = ipc w.
Proof. crush. Qed.
Lemma setContentBounds_options w : options (setContentBounds w) = options w.
Proof. crush. Qed.
Lemma setContentBounds_control w : controlView (setContentBounds w) = controlView w.
Proof. crush. Qed.

Lemma set_currentViewId_tabs id w : tabs (set_currentViewId id w) = tabs w.
Proof. crush. Qed.
Lemma set_currentViewId_views id w : views (set_currentViewId id w) = views w.
Proof. crush. Qed.
Lemma set_currentViewId_pointer id w : defCurrentViewId (set_currentViewId id w) = id.
Proof. crush. Qed.
Lemma set_currentViewId_confs id w :
  defTabConfigs (set_currentViewId id w) = defTabConfigs w.
Proof. crush. Qed.
Lemma set_currentViewId_ipc id w : ipc (set_currentViewId id w) = ipc w.
Proof. crush. Qed.
Lemma set_currentViewId_options id w : options (set_currentViewId id w) = options w.
Proof. crush. Qed.
Lemma set_currentViewId_control id w :
  controlView (set_currentViewId id w) = controlView w.
Proof. crush. Qed.

Lemma set_tabConfigs_tabs v w : tabs (set_tabConfigs v w) = tabs w.
Proof. crush. Qed.
Lemma set_tabConfigs_views v w : views (set_tabConfigs v w) = views w.
Proof. crush. Qed.
Lemma set_tabConfigs_pointer v w :
  defCurrentViewId (set_tabConfigs v w) = defCurrentViewId w.
Proof. crush. Qed.
Lemma set_tabConfigs_confs v w : defTabConfigs (set_tabConfigs v w) = v.
Proof. crush. Qed.
Lemma set_tabConfigs_ipc v w : ipc (set_tabConfigs v w) = ipc w.
Proof. crush. Qed.
Lemma set_tabConfigs_options v w : options (set_tabConfigs v w) = options w.
Proof. crush. Qed.
Lemma set_tabConfigs_control v w : controlView (set_tabConfigs v w) = controlView w.
Proof. crush. Qed.

Lemma setTabConfig_tabs id kv w : tabs (setTabConfig id kv w) = tabs w.
Proof. crush. Qed.
Lemma setTabConfig_views id kv w : views (setTabConfig id kv w) = views w.
Proof. crush. Qed.
Lemma setTabConfig_pointer id kv w :
  defCurrentViewId (setTabConfig id kv w) = defCurrentViewId w.
Proof. crush. Qed.
Lemma setTabConfig_ipc id kv w : ipc (setTabConfig id kv w) = ipc w.
Proof. crush. Qed.
Lemma setTabConfig_options id kv w : options (setTabConfig id kv w) = options w.
Proof. crush. Qed.
Lemma setTabConfig_control id kv w : controlView (setTabConfig id kv w) = controlView w.
Proof. crush. Qed.

Lemma update_webContents_tabs k f w : tabs (update_webContents k f w) = tabs w.
Proof. crush. Qed.
Lemma update_webContents_pointer k f w :
  defCurrentViewId (update_webContents k f w) = defCurrentViewId w.
Proof. crush. Qed.
Lemma update_webContents_confs k f w :
  defTabConfigs (update_webContents k f w) = defTabConfigs w.
Proof. crush. Qed.
Lemma update_webContents_ipc k f w : ipc (update_webContents k f w) = ipc w.
Proof. crush. Qed.
Lemma update_webContents_options k f w :
  options (update_webContents k f w) = options w.
Proof. crush. Qed.
Lemma update_webContents_control k f w :
  controlView (update_webContents k f w) = controlView w.
Proof. crush. Qed.
Lemma update_webContents_log k f w : log (update_webContents k f w) = log w.
Proof. crush. Qed.

Lemma destroyView_tabs id w : tabs (destroyView id w) = tabs w.
Proof. crush. Qed.
Lemma destroyView_pointer id w :
  defCurrentViewId (destroyView id w) = defCurrentViewId w.
Proof. crush. Qed.
Lemma destroyView_confs id w : defTabConfigs (destroyView id w) = defTabConfigs w.
Proof. crush. Qed.
Lemma destroyView_ipc id w : ipc (destroyView id w) = ipc w.
Proof. crush. Qed.
Lemma destroyView_options id w : options (destroyView id w) = options w.
Proof. crush. Qed.
Lemma destroyView_control id w : controlView (destroyView id w) = controlView w.
Proof. crush. Qed.

End Frames.

Create Rewrite HintDb frame.
#[export] Hint Rewrite
  effect_tabs effect_views effect_pointer effect_confs effect_ipc effect_options
  effect_control effect_log
  reply_tabs reply_views reply_pointer reply_confs reply_ipc reply_options reply_control
  setContentBounds_tabs setContentBounds_views setContentBounds_pointer
  setContentBounds_confs setContentBounds_ipc setContentBounds_options
  setContentBounds_control
  set_currentViewId_tabs set_currentViewId_views set_currentViewId_pointer
  set_currentViewId_confs set_currentViewId_ipc set_currentViewId_options
  set_currentViewId_control
  set_tabConfigs_tabs set_tabConfigs_views set_tabConfigs_pointer set_tabConfigs_confs
  set_tabConfigs_ipc set_tabConfigs_options set_tabConfigs_control
  setTabConfig_tabs setTabConfig_views setTabConfig_pointer setTabConfig_ipc
  setTabConfig_options setTabConfig_control
  update_webContents_tabs update_webContents_pointer update_webContents_confs
  update_webContents_ipc update_webContents_options update_webContents_control
  update_webContents_log
  destroyView_tabs destroyView_pointer destroyView_confs destroyView_ipc
  destroyView_options destroyView_control : frame.

Ltac frames :=
  intros;
  repeat first
    [ progress autorewrite with frame
    | progress simpl
    | case_match ];
  try done.

Section FramesOfMethods.
Implicit Types (w : BrowserLikeWindow) (v : option TabID) (u : string).

Lemma setCurrentView_tabs v w : tabs (setCurrentView v w) = tabs w.
Proof. unfold setCurrentView. frames. Qed.
Lemma setCurrentView_views v w : views (setCurrentView v w) = views w.
Proof. unfold setCurrentView. frames. Qed.
Lemma setCurrentView_confs v w : defTabConfigs (setCurrentView v w) = defTabConfigs w.
Proof. unfold setCurrentView. frames. Qed.
Lemma setCurrentView_ipc v w : ipc (setCurrentView v w) = ipc w.
Proof. unfold setCurrentView. frames. Qed.
Lemma setCurrentView_options v w : options (setCurrentView v w) = options w.
Proof. unfold setCurrentView. frames. Qed.
Lemma setCurrentView_control v w : controlView (setCurrentView v w) = controlView w.
Proof. unfold setCurrentView. frames. Qed.

(** [setCurrentView] moves the pointer exactly when its argument is truthy. *)
Lemma setCurrentView_pointer v w :
  defCurrentViewId (setCurrentView v w)
  = if truthy_opt v then v else defCurrentViewId w.
Proof. unfold setCurrentView. destruct v as [id|]; simpl; frames. Qed.

Lemma loadURL_tabs u w : tabs (loadURL u w) = tabs w.
Proof. unfold loadURL. frames. Qed.
Lemma loadURL_pointer u w : defCurrentViewId (loadURL u w) = defCurrentViewId w.
Proof. unfold loadURL. frames. Qed.
Lemma loadURL_confs u w : defTabConfigs (loadURL u w) = defTabConfigs w.
Proof. unfold loadURL. frames. Qed.
Lemma loadURL_ipc u w : ipc (loadURL u w) = ipc w.
Proof. unfold loadURL. frames. Qed.
Lemma loadURL_options u w : options (loadURL u w) = options w.
Proof. unfold loadURL. frames. Qed.
Lemma loadURL_control u w : controlView (loadURL u w) = controlView w.
Proof. unfold loadURL. frames. Qed.

End FramesOfMethods.

#[export] Hint Rewrite
  setCurrentView_tabs setCurrentView_views setCurrentView_confs setCurrentView_ipc
  setCurrentView_options setCurrentView_control setCurrentView_pointer
  loadURL_tabs loadURL_pointer loadURL_confs loadURL_ipc loadURL_options
  loadURL_control : frame.

Ltac new_tab_frames :=
  intros; unfold newTab; cbn zeta;
  destruct (truthy_opt _), (nonempty_opt _); autorewrite with frame; try done.

Section NewTab.
Implicit Types (w : BrowserLikeWindow) (u : option string) (a : option TabID).

Lemma newTab_tabs fresh u a w :
  tabs (newTab fresh u a w)
  = if truthy_opt a
    then splice_insert (indexOf (tabs w) (default 0 a) + 1) fresh (tabs w)
    else tabs w ++ [fresh].
Proof. new_tab_frames. Qed.

Lemma newTab_pointer fresh u a w :
  defCurrentViewId (newTab fresh u a w)
  = if truthy fresh then Some fresh else defCurrentViewId w.
Proof. new_tab_frames. Qed.

Lemma newTab_ipc fresh u a w : ipc (newTab fresh u a w) = ipc w.
Proof. new_tab_frames. Qed.

Lemma newTab_options fresh u a w : options (newTab fresh u a w) = options w.
Proof. new_tab_frames. Qed.

Lemma newTab_control fresh u a w : controlView (newTab fresh u a w) = controlView w.
Proof. new_tab_frames. Qed.

End NewTab.

#[export] Hint Rewrite newTab_ipc newTab_options newTab_control : frame.

(** ** Creation *)

(** C10. [newTab] with a truthy [appendTo] that is not in the tab order puts
    the new id at the front of the order: [indexOf] answers [-1] and the
    splice position is [0]. *)
Theorem newTab_unknown_appendTo_front fresh u (a : TabID) w :
  a ≠ 0 → a ∉ tabs w →
  tabs (newTab fresh u (Some a) w) = fresh :: tabs w.
Proof.
  intros Ha Hnot. rewrite newTab_tabs. simpl.
  rewrite truthy_true by done.
  rewrite indexOf_not_elem by done. apply splice_insert_front.
Qed.

Lemma newTab_unknown_appendTo_front_witness :
  tabs (newTab 9 None (Some 7) Sample.three) = [9; 2; 3; 4].
Proof.
  apply (newTab_unknown_appendTo_front 9 None 7 Sample.three); [done|].
  change (tabs Sample.three) with [2; 3; 4].
  rewrite !elem_of_cons, elem_of_nil. lia.
Defined.

(** ** Merging a patch into a Tab record *)

Lemma spread_empty_l (t : Tab) : spread empty_tab t = t.
Proof. destruct t as [[] [] [] [] [] [] []]; reflexivity. Qed.

Lemma spread_undefined_eq (t : option Tab) : spread_undefined t = default empty_tab t.
Proof. apply spread_empty_l. Qed.

(** The record [setTabConfig] stores: the old record, the live
    capabilities, the patch on top. *)
Lemma setTabConfig_record id kv w :
  get (tabConfigs (setTabConfig id kv w)) id
  = Some {| url := over (url (default empty_tab (get (tabConfigs w) id))) (url kv);
            href := over (href (default empty_tab (get (tabConfigs w) id))) (href kv);
            title := over (title (default empty_tab (get (tabConfigs w) id))) (title kv);
            favicon := over (favicon (default empty_tab (get (tabConfigs w) id)))
                            (favicon kv);
            isLoading := over (isLoading (default empty_tab (get (tabConfigs w) id)))
                              (isLoading kv);
            canGoBack := over (Value (live_canGoBack w id)) (canGoBack kv);
            canGoForward := over (Value (live_canGoForward w id)) (canGoForward kv) |}.
Proof.
  unfold setTabConfig, tabConfigs. rewrite set_tabConfigs_confs, get_insert.
  by rewrite spread_undefined_eq.
Qed.

Lemma setTabConfig_other id kv w (j : TabID) :
  j ≠ id → tabConfigs (setTabConfig id kv w) !! j = tabConfigs w !! j.
Proof.
  intros. unfold setTabConfig, tabConfigs. rewrite set_tabConfigs_confs.
  by rewrite lookup_insert_ne.
Qed.

(** C5, as the code has it.  A merge whose patch carries neither
    [canGoBack] nor [canGoForward] stores the capabilities of the live
    session ([false] without session), whatever else the patch holds. *)
Theorem setTabConfig_refreshes_capabilities id kv w :
  canGoBack kv = Absent → canGoForward kv = Absent →
  ∃ r, get (tabConfigs (setTabConfig id kv w)) id = Some r
       ∧ canGoBack r = Value (live_canGoBack w id)
       ∧ canGoForward r = Value (live_canGoForward w id).
Proof.
  intros Hb Hf. eexists. split; [apply setTabConfig_record|].
  simpl. by rewrite Hb, Hf.
Qed.

Lemma setTabConfig_refreshes_capabilities_witness :
  ∃ r, get (tabConfigs (setTabConfig 2 (patch_title "X") Sample.navigated)) 2 = Some r
       ∧ canGoBack r = Value (live_canGoBack Sample.navigated 2)
       ∧ canGoForward r = Value (live_canGoForward Sample.navigated 2).
Proof.
  exact (setTabConfig_refreshes_capabilities 2 (patch_title "X") Sample.navigated
           eq_refl eq_refl).
Defined.

(** C5, as stated, fails: a patch that carries [canGoBack] is spread last
    and wins over the live value. *)
Lemma setTabConfig_patch_overrides_capability :
  ∃ r, get (tabConfigs (setTabConfig 2 (Sample.patch_canGoBack true) Sample.ready)) 2
       = Some r
       ∧ canGoBack r = Value true
       ∧ live_canGoBack Sample.ready 2 = false.
Proof. vm_compute. eexists. repeat split; reflexivity. Qed.

(** ** The address bar: ['url-change'] *)

(** C7, as the code has it.  With an active tab, ['url-change'] leaves the
    tab order, the active pointer, the views and every other Tab record
    alone; in the active tab's record it sets [url] to the payload and, as
    every merge does, refreshes [canGoBack] and [canGoForward] from the live
    session; [href], [title], [favicon] and [isLoading] keep their values. *)
Theorem url_change_updates_address_bar fresh u e w (id : TabID) :
  currentViewId w = Some id → id ≠ 0 →
  let w' := channels fresh (url_change u) e w in
  let old := default empty_tab (get (tabConfigs w) id) in
  tabs w' = tabs w ∧ currentViewId w' = currentViewId w ∧ views w' = views w
  ∧ (∀ j : TabID, j ≠ id → tabConfigs w' !! j = tabConfigs w !! j)
  ∧ ∃ r, get (tabConfigs w') id = Some r
         ∧ url r = Value u
         ∧ href r = href old ∧ title r = title old
         ∧ favicon r = favicon old ∧ isLoading r = isLoading old
         ∧ canGoBack r = Value (live_canGoBack w id)
         ∧ canGoForward r = Value (live_canGoForward w id).
Proof.
  intros Hcur Hid. simpl. rewrite Hcur. simpl. rewrite truthy_true by done.
  unfold currentViewId.
  rewrite setTabConfig_tabs, setTabConfig_pointer, setTabConfig_views.
  repeat split; try done.
  - intros j Hj. by apply setTabConfig_other.
  - eexists. split; [apply setTabConfig_record|].
    simpl. repeat split; by destruct (default empty_tab _) as [[] [] [] [] [] [] []].
Qed.

Lemma url_change_updates_address_bar_witness :
  let w' := channels 9 (url_change "x") Sample.control Sample.navigated in
  tabs w' = tabs Sample.navigated
  ∧ currentViewId w' = currentViewId Sample.navigated
  ∧ views w' = views Sample.navigated
  ∧ (∀ j : TabID, j ≠ 2 → tabConfigs w' !! j = tabConfigs Sample.navigated !! j)
  ∧ ∃ r, get (tabConfigs w') 2 = Some r
         ∧ url r = Value "x"
         ∧ href r = href (default empty_tab (get (tabConfigs Sample.navigated) 2))
         ∧ title r = title (default empty_tab (get (tabConfigs Sample.navigated) 2))
         ∧ favicon r = favicon (default empty_tab (get (tabConfigs Sample.navigated) 2))
         ∧ isLoading r
           = isLoading (default empty_tab (get (tabConfigs Sample.navigated) 2))
         ∧ canGoBack r = Value (live_canGoBack Sample.navigated 2)
         ∧ canGoForward r = Value (live_canGoForward Sample.navigated 2).
Proof.
  apply (url_change_updates_address_bar 9 "x" Sample.control Sample.navigated 2).
  - vm_compute. reflexivity.
  - lia.
Defined.

(** C7, as stated, fails: the record of the active tab said [canGoBack:
    false], the session has gained a history entry since, and ['url-change']
    rewrites the flag along with the address. *)
Lemma url_change_also_refreshes_capabilities :
  let w' := channels 9 (url_change "x") Sample.control Sample.navigated in
  ∃ r r', currentViewId Sample.navigated = Some 2
          ∧ get (tabConfigs Sample.navigated) 2 = Some r
          ∧ get (tabConfigs w') 2 = Some r'
          ∧ canGoBack r = Value false ∧ canGoBack r' = Value true.
Proof. vm_compute. eexists _, _. repeat split; reflexivity. Qed.

(** ** The view a new tab gets *)

Lemma currentView_at w (key : TabID) :
  defCurrentViewId w = Some key → key ≠ 0 → currentView w = get (views w) key.
Proof.
  intros Hcur Hkey. unfold currentView, currentViewId. rewrite Hcur.
  by rewrite truthy_true.
Qed.

Lemma currentView_inv w cv :
  currentView w = Some cv →
  ∃ key : TabID, defCurrentViewId w = Some key ∧ key ≠ 0 ∧ get (views w) key = Some cv.
Proof.
  unfold currentView, currentViewId. destruct (defCurrentViewId w) as [key|]; [|done].
  destruct (truthy key) eqn:Hkey; [|done]. intros Hget. exists key.
  repeat split; [|done]. intros ->. done.
Qed.

Lemma currentView_setCurrentView (id : TabID) w :
  id ≠ 0 → currentView (setCurrentView (Some id) w) = get (views w) id.
Proof.
  intros Hid. rewrite (currentView_at _ id); [|by rewrite setCurrentView_pointer; simpl;
    rewrite truthy_true|done].
  by rewrite setCurrentView_views.
Qed.

Lemma update_webContents_get k f w v :
  get (views w) k = Some v →
  get (views (update_webContents k f w)) k = Some (mkView (view_id v) (f (webContents v))).
Proof. intros Hv. unfold update_webContents. rewrite Hv. simpl. apply get_insert. Qed.

Lemma update_webContents_get_ne k f w (j : TabID) :
  k ≠ j → get (views (update_webContents k f w)) j = get (views w) j.
Proof.
  intros. unfold update_webContents. destruct (get (views w) k); [|done].
  simpl. by apply get_insert_ne.
Qed.

(** The views after [loadURL]: the web contents of the current view is
    wired on its first navigation and only navigated afterwards. *)
Lemma loadURL_views u w :
  views (loadURL u w)
  = match currentView w, currentViewId w with
    | Some cv, Some key =>
        if nonempty u then
          views (update_webContents key
                   (if wc_marks (webContents cv) then navigate u
                    else wire (options w) (view_id cv) u) w)
        else views w
    | _, _ => views w
    end.
Proof. unfold loadURL. frames. Qed.

Lemma newTab_view fresh u a w :
  fresh ≠ 0 →
  get (views (newTab fresh u a w)) fresh
  = Some (mkView fresh
            (if nonempty_opt u
             then wire (options w) fresh (default "" u) (webContents (new_view fresh))
             else webContents (new_view fresh))).
Proof.
  intros Hfresh. unfold newTab. cbn [view_id new_view webContents].
  set (w1 := with_views _ _).
  assert (get (views w1) fresh = Some (new_view fresh)) as Hget.
  { unfold w1. destruct (truthy_opt a); simpl; apply get_insert. }
  assert (options w1 = options w) as Hopt.
  { unfold w1. by destruct (truthy_opt a). }
  set (w2 := effect _ (setCurrentView _ w1)).
  assert (currentView w2 = Some (new_view fresh)) as Hcv.
  { unfold w2. rewrite <- Hget. by apply currentView_setCurrentView. }
  assert (currentViewId w2 = Some fresh) as Hcur.
  { unfold w2, currentViewId. rewrite effect_pointer, setCurrentView_pointer.
    simpl. by rewrite truthy_true. }
  assert (get (views w2) fresh = Some (new_view fresh)) as Hget2.
  { unfold w2. by rewrite effect_views, setCurrentView_views. }
  assert (options w2 = options w) as Hopt2.
  { unfold w2. by rewrite effect_options, setCurrentView_options. }
  rewrite effect_views, setTabConfig_views.
  destruct u as [u|]; cbn [nonempty_opt from_option default]; [|exact Hget2].
  destruct (nonempty u) eqn:Hu; [|exact Hget2].
  rewrite loadURL_views, Hcv, Hcur. unfold id. rewrite Hu.
  cbn [new_view webContents wc_marks view_id].
  rewrite (update_webContents_get _ _ _ _ Hget2). by rewrite Hopt2.
Qed.

(** ** The window-open handler *)

Section Policy.

Variable url_host : string → option string.

(** C4, as the code has it.  On every target the URL constructor accepts,
    the handler answers without raising, and it answers [deny], leaving the
    state alone, when the host is empty.  On a target the constructor
    rejects, the handler raises the constructor's error. *)
Theorem onNewWindow_raises_iff_unparseable fresh (id : TabID) d w :
  (∀ h, url_host (hd_url d) = Some h →
        (∃ r, onNewWindow url_host fresh id d w = Ok r)
        ∧ (h = "" → onNewWindow url_host fresh id d w = Ok (deny, w)))
  ∧ (url_host (hd_url d) = None → onNewWindow url_host fresh id d w = Throw).
Proof.
  unfold onNewWindow. split.
  - intros h ->. split.
    + destruct (nonempty h); [case_decide|]; by eexists.
    + by intros ->.
  - by intros ->.
Qed.

End Policy.

(** ** Witnesses for the window-open handler *)

Lemma onNewWindow_raises_iff_unparseable_witness :
  (∃ r, onNewWindow URL.host 9 3 (mkDetails "about:blank" "" "foreground-tab")
          Sample.three = Ok r)
  ∧ onNewWindow URL.host 9 3 (mkDetails "about:blank" "" "foreground-tab") Sample.three
    = Ok (deny, Sample.three).
Proof.
  destruct (onNewWindow_raises_iff_unparseable URL.host 9 3
              (mkDetails "about:blank" "" "foreground-tab") Sample.three) as [H _].
  destruct (H "") as [H1 H2]; [vm_compute; reflexivity|].
  split; [exact H1|]. by apply H2.
Defined.

(** C4, as stated, fails: a target that is no URL makes the constructor
    throw before the handler reaches any answer. *)
Lemma onNewWindow_raises_on_unparseable_target :
  onNewWindow URL.host 9 3 (mkDetails "not a url" "" "foreground-tab") Sample.three
  = Throw.
Proof. vm_compute. reflexivity. Qed.

(** ** What each method adds to the log *)

Lemma count_app p (es1 es2 : list Effect) : count p (es1 ++ es2) = (count p es1 + count p es2)%nat.
Proof. unfold count. by rewrite filter_app, length_app. Qed.

Lemma notifications_app (es1 es2 : list Effect) :
  notifications (es1 ++ es2) = notifications es1 ++ notifications es2.
Proof. apply omap_app. Qed.

Lemma adds_refl w : adds w w [] 0.
Proof. exists []. by rewrite app_nil_r. Qed.

Lemma adds_trans w1 w2 w3 ns ns' n n' :
  adds w1 w2 ns n → adds w2 w3 ns' n' → adds w1 w3 (ns ++ ns') (n + n').
Proof.
  intros (es & Hes & <- & <-) (es' & Hes' & <- & <-). exists (es ++ es').
  rewrite Hes', Hes, <- app_assoc. by rewrite notifications_app, count_app.
Qed.

Lemma adds_eq w w' ns ns' n n' : adds w w' ns n → ns = ns' → n = n' → adds w w' ns' n'.
Proof. by intros H <- <-. Qed.

Lemma adds_same_log w w' : log w' = log w → adds w w' [] 0.
Proof. intros H. exists []. by rewrite app_nil_r. Qed.

Lemma adds_effect e w :
  adds w (effect e w) (notifications [e]) (count is_layout [e]).
Proof. by exists [e]. Qed.

(** What an operation produced is what it added. *)
Lemma adds_produced w w' ns n :
  adds w w' ns n →
  notifications (produced w w') = ns ∧ count is_layout (produced w w') = n.
Proof.
  intros (es & Hes & <- & <-). unfold produced. by rewrite Hes, drop_app_length.
Qed.

Lemma adds_notifications w w' ns n :
  adds w w' ns n → notifications (log w') = notifications (log w) ++ ns.
Proof. intros (es & -> & <- & _). apply notifications_app. Qed.

Ltac adds_step :=
  first [ apply adds_refl | apply adds_effect
        | eapply adds_trans; [|apply adds_effect] ].

Section Logs.
Implicit Types (w : BrowserLikeWindow) (n : Notification).

Lemma adds_reply n w : adds w (reply n w) (delivered w [n]) 0.
Proof.
  unfold reply, delivered. destruct (ipc w); [apply adds_effect|apply adds_refl].
Qed.

Lemma adds_setContentBounds w : adds w (setContentBounds w) [] 1.
Proof.
  unfold setContentBounds. destruct (contentSize w), (currentView w); apply adds_effect.
Qed.

Lemma adds_set_currentViewId id w :
  adds w (set_currentViewId id w) (delivered w [active_update id]) 1.
Proof.
  unfold set_currentViewId.
  eapply adds_eq; [eapply adds_trans; [|apply adds_reply]|..].
  - eapply adds_eq; [eapply adds_trans;
      [apply (adds_same_log w (with_defCurrentViewId id w)); done
      |apply adds_setContentBounds]|done..].
  - unfold delivered. by rewrite setContentBounds_ipc.
  - done.
Qed.

Lemma adds_set_tabConfigs v w :
  adds w (set_tabConfigs v w) (delivered w [tabs_update v (tabs w)]) 0.
Proof.
  unfold set_tabConfigs.
  eapply adds_eq; [eapply adds_trans;
    [apply (adds_same_log w (with_defTabConfigs v w)); done|apply adds_reply]|done..].
Qed.

Lemma adds_setTabConfig id kv w :
  adds w (setTabConfig id kv w)
       (delivered w [tabs_update (tabConfigs (setTabConfig id kv w)) (tabs w)]) 0.
Proof.
  unfold tabConfigs. unfold setTabConfig at 2. rewrite set_tabConfigs_confs.
  apply adds_set_tabConfigs.
Qed.

Lemma adds_setCurrentView (id : TabID) w :
  id ≠ 0 →
  adds w (setCurrentView (Some id) w) (delivered w [active_update (Some id)]) 1.
Proof.
  intros Hid. unfold setCurrentView. rewrite truthy_true by done.
  set (w1 := match currentView w with Some _ => _ | None => w end).
  assert (adds w w1 [] 0 ∧ ipc w1 = ipc w) as [H1 Hipc1].
  { unfold w1. destruct (currentView w); split; try done; adds_step. }
  set (w2 := match get (views w1) id with Some _ => _ | None => w1 end).
  assert (adds w1 w2 [] 0 ∧ ipc w2 = ipc w1) as [H2 Hipc2].
  { unfold w2. destruct (get (views w1) id); split; try done; adds_step. }
  eapply adds_eq; [eapply adds_trans; [eapply adds_trans; [exact H1|exact H2]|
    apply adds_set_currentViewId]|..]; [|done].
  unfold delivered. by rewrite Hipc2, Hipc1.
Qed.

(** A falsy id is no activation at all. *)
Lemma setCurrentView_falsy v w : truthy_opt v = false → setCurrentView v w = w.
Proof. destruct v as [id|]; simpl; [|done]. by intros ->. Qed.

(** The layout passes of [loadURL]: one on the first navigation of the
    current view, none otherwise. *)
Lemma adds_loadURL u w :
  adds w (loadURL u w) []
       (match currentView w, currentViewId w with
        | Some cv, Some _ =>
            if nonempty u then if wc_marks (webContents cv) then 0 else 1 else 0
        | _, _ => 0
        end).
Proof.
  unfold loadURL. destruct (currentView w) as [cv|]; [|apply adds_refl].
  destruct (currentViewId w) as [key|]; [|apply adds_refl].
  destruct (nonempty u); [|apply adds_refl].
  destruct (wc_marks (webContents cv)).
  - apply adds_same_log, update_webContents_log.
  - cbn zeta. set (w1 := update_webContents _ _ w).
    assert (adds w (setContentBounds w1) [] 1) as H.
    { eapply adds_eq; [eapply adds_trans;
        [apply (adds_same_log w w1), update_webContents_log
        |apply adds_setContentBounds]|done..]. }
    destruct (debug _); [|exact H].
    eapply adds_eq; [eapply adds_trans; [exact H|apply adds_effect]|done..].
Qed.

Lemma adds_destroyView id w : adds w (destroyView id w) [] 0.
Proof.
  unfold destroyView. destruct (get (views w) id); [|apply adds_refl].
  exists [Destroy (view_id t)]. done.
Qed.

End Logs.

(** A creation: one activation, the first navigation when a URL is given,
    one merge. *)
Lemma adds_newTab fresh u a w :
  fresh ≠ 0 →
  adds w (newTab fresh u a w)
       (delivered w [active_update (Some fresh);
                     tabs_update (tabConfigs (newTab fresh u a w))
                                 (tabs (newTab fresh u a w))])
       (if nonempty_opt u then 2 else 1).
Proof.
  intros Hfresh.
  cut (∃ w5 e, newTab fresh u a w = effect (Emit e) w5
               ∧ adds w w5 (delivered w [active_update (Some fresh);
                                          tabs_update (defTabConfigs w5) (tabs w5)])
                      (if nonempty_opt u then 2 else 1)).
  { intros (w5 & e & E & H). rewrite E. unfold tabConfigs.
    rewrite effect_confs, effect_tabs.
    eapply adds_eq; [eapply adds_trans; [exact H|apply adds_effect]|..].
    - apply app_nil_r.
    - apply Nat.add_0_r. }
  unfold newTab. cbn [view_id new_view webContents]. cbn zeta.
  set (w1 := with_views _ _).
  assert (get (views w1) fresh = Some (new_view fresh)) as Hget.
  { unfold w1. destruct (truthy_opt a); simpl; apply get_insert. }
  assert (log w1 = log w ∧ ipc w1 = ipc w) as [Hlog1 Hipc1].
  { unfold w1. by destruct (truthy_opt a). }
  set (w2 := effect _ (setCurrentView _ w1)).
  assert (adds w w2 (delivered w [active_update (Some fresh)]) 1) as H2.
  { unfold w2. eapply adds_eq; [eapply adds_trans; [eapply adds_trans;
      [apply (adds_same_log w w1 Hlog1)|apply adds_setCurrentView, Hfresh]
      |apply adds_effect]|..].
    - unfold delivered. rewrite Hipc1. simpl. apply app_nil_r.
    - done. }
  assert (currentView w2 = Some (new_view fresh)) as Hcv.
  { unfold w2. rewrite <- Hget. by apply currentView_setCurrentView. }
  assert (currentViewId w2 = Some fresh) as Hcur.
  { unfold w2, currentViewId. rewrite effect_pointer, setCurrentView_pointer.
    simpl. by rewrite truthy_true. }
  assert (ipc w2 = ipc w) as Hipc2.
  { unfold w2. by rewrite effect_ipc, setCurrentView_ipc. }
  set (w4 := if nonempty_opt u then _ else w2).
  assert (adds w2 w4 [] (if nonempty_opt u then 1 else 0) ∧ ipc w4 = ipc w2)
    as [H4 Hipc4].
  { unfold w4. destruct u as [u|]; cbn [nonempty_opt from_option default];
      [|split; [apply adds_refl|done]].
    destruct (nonempty u) eqn:Hu; [|split; [apply adds_refl|done]].
    split; [|apply loadURL_ipc].
    eapply adds_eq; [apply adds_loadURL|done|].
    rewrite Hcv, Hcur. unfold id. by rewrite Hu. }
  eexists _, _. split; [reflexivity|].
  eapply adds_eq; [eapply adds_trans; [eapply adds_trans; [exact H2|exact H4]|
    apply adds_setTabConfig]|..].
  - unfold delivered, tabConfigs. rewrite Hipc4, Hipc2, setTabConfig_tabs.
    by destruct (ipc w).
  - destruct (nonempty_opt u); simpl; lia.
Qed.

(** ** Closing a tab *)

Lemma at_index_0 {A} (l : list A) : at_index l 0 = head l.
Proof. unfold at_index. rewrite decide_True by lia. by destruct l. Qed.

Lemma at_index_after (l1 l2 : list Z) (x : Z) :
  at_index (l1 ++ x :: l2) (Z.of_nat (length l1) + 1) = head l2.
Proof.
  pose proof (at_index_app_head (l1 ++ [x]) l2) as H.
  rewrite length_app, Nat2Z.inj_add, <- app_assoc in H. exact H.
Qed.

Lemma head_elem_of {A} (l : list A) (x : A) : head l = Some x → x ∈ l.
Proof. destruct l; [done|]. intros [= ->]. apply elem_of_cons. by left. Qed.

Lemma head_truthy (l : list Z) : l ≠ [] → 0 ∉ l → truthy_opt (head l) = true.
Proof.
  destruct l as [|x l]; [done|]. intros _ [Hx _]%not_elem_of_cons. simpl.
  apply truthy_true. congruence.
Qed.

Section Close.
Implicit Types (w : BrowserLikeWindow) (id fresh : TabID).

Lemma close_reassign_tabs id w : tabs (close_reassign id w) = tabs w.
Proof. unfold close_reassign. case_decide; by autorewrite with frame. Qed.
Lemma close_reassign_views id w : views (close_reassign id w) = views w.
Proof. unfold close_reassign. case_decide; by autorewrite with frame. Qed.
Lemma close_reassign_confs id w : defTabConfigs (close_reassign id w) = defTabConfigs w.
Proof. unfold close_reassign. case_decide; by autorewrite with frame. Qed.
Lemma close_reassign_ipc id w : ipc (close_reassign id w) = ipc w.
Proof. unfold close_reassign. case_decide; by autorewrite with frame. Qed.
Lemma close_reassign_options id w : options (close_reassign id w) = options w.
Proof. unfold close_reassign. case_decide; by autorewrite with frame. Qed.
Lemma close_reassign_control id w : controlView (close_reassign id w) = controlView w.
Proof. unfold close_reassign. case_decide; by autorewrite with frame. Qed.

Lemma close_reassign_inactive id w :
  currentViewId w ≠ Some id → close_reassign id w = w.
Proof. intros H. unfold close_reassign. by rewrite decide_False. Qed.

(** The tab that the reassignment looks at: the successor of the first
    occurrence of [id], the first entry when [id] is last. *)
Lemma close_reassign_next id w l1 l2 :
  tabs w = l1 ++ id :: l2 → id ∉ l1 → currentViewId w = Some id →
  close_reassign id w = setCurrentView (head (l2 ++ l1 ++ [id])) w.
Proof.
  intros Htabs Hnot Hcur. unfold close_reassign. rewrite decide_True by done.
  rewrite Htabs, indexOf_first by done. f_equal.
  rewrite length_app. destruct l2 as [|x l2]; cbn [length].
  - rewrite decide_True by lia. by rewrite at_index_0.
  - rewrite decide_False by lia. by rewrite at_index_after.
Qed.

Lemma close_reassign_pointer id w l1 l2 :
  tabs w = l1 ++ id :: l2 → id ∉ l1 → 0 ∉ tabs w → currentViewId w = Some id →
  currentViewId (close_reassign id w) = head (l2 ++ l1 ++ [id]).
Proof.
  intros Htabs Hnot Hzero Hcur. rewrite (close_reassign_next id w l1 l2) by done.
  unfold currentViewId. rewrite setCurrentView_pointer.
  rewrite head_truthy; [done|by destruct l2, l1|].
  intros Hin. apply Hzero. rewrite Htabs, elem_of_app, elem_of_cons.
  rewrite !elem_of_app, list_elem_of_singleton in Hin.
  destruct Hin as [?|[?|?]]; auto.
Qed.

Lemma close_remove_tabs id w : tabs (close_remove id w) = filter (λ v, v ≠ id) (tabs w).
Proof. unfold close_remove. by autorewrite with frame. Qed.
Lemma close_remove_pointer id w :
  defCurrentViewId (close_remove id w) = defCurrentViewId w.
Proof. unfold close_remove. by autorewrite with frame. Qed.
Lemma close_remove_ipc id w : ipc (close_remove id w) = ipc w.
Proof. unfold close_remove. by autorewrite with frame. Qed.
Lemma close_remove_options id w : options (close_remove id w) = options w.
Proof. unfold close_remove. by autorewrite with frame. Qed.
Lemma close_remove_control id w : controlView (close_remove id w) = controlView w.
Proof. unfold close_remove. by autorewrite with frame. Qed.

Lemma destroyView_get id w : get (views (destroyView id w)) id = None.
Proof.
  unfold destroyView. destruct (get (views w) id) eqn:H; [|done].
  simpl. apply get_insert.
Qed.

Lemma destroyView_get_ne id w (j : TabID) :
  j ≠ id → get (views (destroyView id w)) j = get (views w) j.
Proof.
  intros. unfold destroyView. destruct (get (views w) id); [|done].
  simpl. by apply get_insert_ne.
Qed.

Lemma close_remove_record id w : get (tabConfigs (close_remove id w)) id = None.
Proof.
  unfold close_remove, tabConfigs.
  rewrite destroyView_confs, set_tabConfigs_confs. apply get_insert.
Qed.

Lemma close_remove_view id w : get (views (close_remove id w)) id = None.
Proof. unfold close_remove. apply destroyView_get. Qed.

End Close.

#[export] Hint Rewrite
  close_reassign_tabs close_reassign_views close_reassign_confs close_reassign_ipc
  close_reassign_options close_reassign_control
  close_remove_tabs close_remove_pointer close_remove_ipc close_remove_options
  close_remove_control : frame.

Section NewTabRecords.
Implicit Types (w : BrowserLikeWindow) (u : option string) (a : option TabID).

Lemma newTab_confs_ne fresh u a w (j : TabID) :
  j ≠ fresh → defTabConfigs (newTab fresh u a w) !! j = defTabConfigs w !! j.
Proof.
  intros Hj. unfold newTab. cbn zeta. rewrite effect_confs.
  rewrite (setTabConfig_other _ _ _ j) by done. unfold tabConfigs.
  destruct (truthy_opt a), (nonempty_opt u); by autorewrite with frame.
Qed.

(** The record a new tab starts with carries the blank title. *)
Lemma newTab_record fresh u a w :
  ∃ r, get (tabConfigs (newTab fresh u a w)) fresh = Some r
       ∧ title r = Value (match blankTitle (options w) with
                          | Some t => if nonempty t then t else "about:blank"
                          | None => "about:blank"
                          end).
Proof.
  unfold newTab. cbn zeta. unfold tabConfigs at 1. rewrite effect_confs.
  eexists. split; [apply setTabConfig_record|]. cbn [title over].
  destruct (truthy_opt a), (nonempty_opt u); by autorewrite with frame.
Qed.

Lemma newTab_views_ne fresh u a w (j : TabID) :
  fresh ≠ 0 → j ≠ fresh → get (views (newTab fresh u a w)) j = get (views w) j.
Proof.
  intros Hfresh Hj. unfold newTab. cbn [view_id new_view]. cbn zeta.
  set (w1 := with_views _ _).
  assert (get (views w1) j = get (views w) j) as Hget.
  { unfold w1. destruct (truthy_opt a); simpl; by rewrite get_insert_ne. }
  set (w2 := effect _ (setCurrentView _ w1)).
  assert (currentViewId w2 = Some fresh) as Hcur.
  { unfold w2, currentViewId. rewrite effect_pointer, setCurrentView_pointer.
    simpl. by rewrite truthy_true. }
  assert (views w2 = views w1) as Hviews.
  { unfold w2. by rewrite effect_views, setCurrentView_views. }
  rewrite effect_views, setTabConfig_views, <- Hget, <- Hviews.
  destruct (nonempty_opt u); [|done].
  rewrite loadURL_views, Hcur. destruct (currentView w2); [|done].
  destruct (nonempty _); [|done]. by apply update_webContents_get_ne.
Qed.

End NewTabRecords.

(** ** What the window-open handler decides *)

Section Decision.

Variable url_host : string → option string.

(** The URL constructor rejects the empty string. *)
Hypothesis url_host_empty : url_host "" = None.

(** C3, as the code has it.  On a target the URL constructor rejects, the
    default handler raises and decides nothing.  On a target it accepts, it
    denies, leaving the state alone, when the URL has an empty host; it
    allows, leaving the state alone, when there is a host and the
    disposition is [new-window]; otherwise it denies the native window and
    creates, before it answers, a tab that sits right after the originating
    tab in the order, is current, is wired and navigated to the target, has
    a record with the blank title, and is announced to the control surface
    by an [active-update] and a [tabs-update]; the views and the records of
    the other tabs stay. *)
Theorem onNewWindow_decides fresh (id : TabID) d w :
  (url_host (hd_url d) = None → onNewWindow url_host fresh id d w = Throw)
  ∧ (url_host (hd_url d) = Some "" → onNewWindow url_host fresh id d w = Ok (deny, w))
  ∧ (∀ h, url_host (hd_url d) = Some h → h ≠ "" →
          hd_disposition d = "new-window" →
          onNewWindow url_host fresh id d w = Ok (allow, w))
  ∧ (∀ h, url_host (hd_url d) = Some h → h ≠ "" →
          hd_disposition d ≠ "new-window" →
          ∃ w', onNewWindow url_host fresh id d w = Ok (deny, w')
                ∧ w' = newTab fresh (Some (hd_url d)) (Some id) w
                ∧ (∀ l1 l2, id ≠ 0 → id ∉ l1 → tabs w = l1 ++ id :: l2 →
                            tabs w' = l1 ++ id :: fresh :: l2)
                ∧ (fresh ≠ 0 →
                   currentViewId w' = Some fresh
                   ∧ get (views w') fresh
                     = Some (mkView fresh
                               (mkWC true
                                  (Some (match opt_onNewWindow (options w) with
                                         | Some c => CustomHandler c
                                         | None => DefaultHandler fresh
                                         end))
                                  (lifecycle fresh) [hd_url d] false false))
                   ∧ (∃ r, get (tabConfigs w') fresh = Some r
                           ∧ title r
                             = Value (match blankTitle (options w) with
                                      | Some t => if nonempty t then t else "about:blank"
                                      | None => "about:blank"
                                      end))
                   ∧ notifications (produced w w')
                     = delivered w [active_update (Some fresh);
                                    tabs_update (tabConfigs w') (tabs w')]
                   ∧ ∀ j : TabID, j ≠ fresh →
                       get (views w') j = get (views w) j
                       ∧ get (tabConfigs w') j = get (tabConfigs w) j)).
Proof.
  unfold onNewWindow. split; [by intros ->|]. split; [by intros ->|]. split.
  - intros h -> Hh ->. unfold nonempty. by rewrite bool_decide_eq_true_2.
  - intros h Hhost Hh Hdisp. rewrite Hhost. unfold nonempty at 1.
    rewrite bool_decide_eq_true_2 by done. rewrite decide_False by done.
    eexists. split; [done|]. split; [done|]. split.
    + intros l1 l2 Hid Hnot Htabs. rewrite newTab_tabs. simpl.
      rewrite truthy_true by done. rewrite Htabs, indexOf_first by done.
      apply splice_insert_after.
    + intros Hfresh.
      assert (nonempty (hd_url d) = true) as Hurl.
      { unfold nonempty. apply bool_decide_eq_true_2. intros Hempty.
        rewrite Hempty, url_host_empty in Hhost. done. }
      split.
      { unfold currentViewId. rewrite newTab_pointer. by rewrite truthy_true. }
      split.
      { rewrite newTab_view by done. cbn [nonempty_opt from_option default]. by rewrite Hurl. }
      split; [apply newTab_record|]. split.
      { by destruct (adds_produced _ _ _ _
                       (adds_newTab fresh (Some (hd_url d)) (Some id) w Hfresh)). }
      intros j Hj. split; [by apply newTab_views_ne|].
      unfold get, tabConfigs. by rewrite newTab_confs_ne.
Qed.

End Decision.

(** The requests of the specification, on the window with tabs [2; 3; 4]:
    no host, a host with [new-window], a host with [foreground-tab]. *)
Lemma onNewWindow_decides_witness :
  onNewWindow URL.host 9 3 (mkDetails "about:blank" "" "foreground-tab") Sample.three
  = Ok (deny, Sample.three)
  ∧ onNewWindow URL.host 9 3 (mkDetails "https://a.test/x" "" "new-window") Sample.three
    = Ok (allow, Sample.three)
  ∧ ∃ w', onNewWindow URL.host 9 3 (mkDetails "https://a.test/x" "" "foreground-tab")
            Sample.three = Ok (deny, w')
          ∧ tabs w' = [2; 3; 9; 4] ∧ currentViewId w' = Some 9
          ∧ wc_loads <$> (webContents <$> get (views w') 9) = Some ["https://a.test/x"].
Proof.
  assert (URL.host "" = None) as Hempty by (vm_compute; reflexivity).
  split; [|split].
  - refine (proj1 (proj2 (onNewWindow_decides URL.host Hempty 9 3
                            (mkDetails "about:blank" "" "foreground-tab")
                            Sample.three)) _).
    vm_compute. reflexivity.
  - refine (proj1 (proj2 (proj2 (onNewWindow_decides URL.host Hempty 9 3
                                   (mkDetails "https://a.test/x" "" "new-window")
                                   Sample.three))) "a.test" _ _ _);
      [vm_compute; reflexivity|done|done].
  - destruct (onNewWindow_decides URL.host Hempty 9 3
                (mkDetails "https://a.test/x" "" "foreground-tab") Sample.three)
      as (_ & _ & _ & H3).
    destruct (H3 "a.test") as (w' & Hw' & _ & Htabs & Hview);
      [vm_compute; reflexivity|done|done|].
    exists w'. split; [exact Hw'|]. split.
    + apply (Htabs [2] [4]); [lia| |vm_compute; reflexivity].
      rewrite elem_of_cons, elem_of_nil. lia.
    + destruct Hview as (Hcur & Hget & _); [lia|]. split; [exact Hcur|].
      by rewrite Hget.
Defined.

(** C3, as stated for every request, fails: a relative reference is no URL
    for the constructor, which throws before the handler reaches any of its
    three answers. *)
Lemma onNewWindow_undecided_on_relative_target :
  onNewWindow URL.host 9 3 (mkDetails "page.html" "" "foreground-tab") Sample.three
  = Throw.
Proof. vm_compute. reflexivity. Qed.

Section CloseTab.
Implicit Types (w : BrowserLikeWindow) (id fresh : TabID).

Lemma close_tab_tabs fresh e w id :
  tabs (channels fresh (close_tab id) e w)
  = if decide (filter (λ v, v ≠ id) (tabs w) = []) then [fresh]
    else filter (λ v, v ≠ id) (tabs w).
Proof.
  cbn [channels]. cbn zeta. rewrite close_remove_tabs, close_reassign_tabs.
  destruct (filter _ (tabs w)) as [|x rest] eqn:Hrest.
  - rewrite decide_True by done. rewrite decide_True by done.
    rewrite newTab_tabs. simpl. by rewrite close_remove_tabs, close_reassign_tabs, Hrest.
  - rewrite decide_False by done. rewrite decide_False by done.
    by rewrite close_remove_tabs, close_reassign_tabs.
Qed.

Lemma close_tab_pointer fresh e w id :
  fresh ≠ 0 →
  defCurrentViewId (channels fresh (close_tab id) e w)
  = if decide (filter (λ v, v ≠ id) (tabs w) = []) then Some fresh
    else defCurrentViewId (close_reassign id w).
Proof.
  intros Hfresh. cbn [channels]. cbn zeta.
  rewrite close_remove_tabs, close_reassign_tabs.
  destruct (filter _ (tabs w)) as [|x rest] eqn:Hrest.
  - rewrite decide_True by done. rewrite decide_True by done.
    rewrite newTab_pointer. by rewrite truthy_true.
  - rewrite decide_False by done. rewrite decide_False by done.
    by rewrite close_remove_pointer.
Qed.

Lemma close_tab_record fresh e w id :
  fresh ≠ id → get (tabConfigs (channels fresh (close_tab id) e w)) id = None.
Proof.
  intros Hne. cbn [channels]. cbn zeta. case_decide; [|apply close_remove_record].
  unfold tabConfigs, get. rewrite newTab_confs_ne by done. apply close_remove_record.
Qed.

Lemma close_tab_view fresh e w id :
  fresh ≠ 0 → fresh ≠ id → get (views (channels fresh (close_tab id) e w)) id = None.
Proof.
  intros Hfresh Hne. cbn [channels]. cbn zeta. case_decide; [|apply close_remove_view].
  rewrite newTab_views_ne by done. apply close_remove_view.
Qed.

End CloseTab.

(** ** The order and the pointer after a close *)

Section CloseInOrder.
Implicit Types (w : BrowserLikeWindow) (id fresh : TabID).

Lemma NoDup_around (l1 l2 : list Z) (x : Z) :
  NoDup (l1 ++ x :: l2) → (x ∉ l1) ∧ (x ∉ l2) ∧ NoDup (l1 ++ l2).
Proof.
  rewrite !NoDup_app, NoDup_cons. intros (H1 & H12 & Hx & H2).
  repeat split; try done.
  - intros Hin. apply (H12 x Hin). apply elem_of_cons. by left.
  - intros y Hy Hy2. apply (H12 y Hy). apply elem_of_cons. by right.
Qed.

(** Closing a tab of the order: what is left of the order, with a fresh
    tab when nothing is; the pointer on the successor when the closed tab
    was active. *)
Lemma close_tab_in_order fresh e w id l1 l2 :
  NoDup (tabs w) → 0 ∉ tabs w → fresh ≠ 0 → tabs w = l1 ++ id :: l2 →
  tabs (channels fresh (close_tab id) e w)
  = (if decide (l1 ++ l2 = []) then [fresh] else l1 ++ l2)
  ∧ currentViewId (channels fresh (close_tab id) e w)
    = (if decide (l1 ++ l2 = []) then Some fresh
       else if decide (currentViewId w = Some id) then head (l2 ++ l1)
       else currentViewId w).
Proof.
  intros Hnd Hzero Hfresh Htabs.
  destruct (NoDup_around l1 l2 id) as (Hl1 & Hl2 & _); [by rewrite <- Htabs|].
  unfold currentViewId. rewrite close_tab_tabs, close_tab_pointer by done.
  rewrite Htabs, filter_ne_remove by done. split; [done|].
  case_decide as Hrest; [done|]. case_decide as Hcur.
  - pose proof (close_reassign_pointer id w l1 l2 Htabs Hl1 Hzero Hcur) as Hp.
    unfold currentViewId in Hp. rewrite Hp.
    destruct l2 as [|x l2]; [|done]. simpl. by destruct l1.
  - by rewrite close_reassign_inactive.
Qed.

End CloseInOrder.

(** C2, as the code has it.  In a state whose order holds distinct real
    ids, closing a tab [id] of the order [l1 ++ id :: l2]: when [id] is
    active, the reassignment activates its successor, the first entry when
    [id] is last, and that tab is active afterwards if any other tab
    remains; when [id] is not active, the pointer is untouched provided
    another tab remains or the pointer names a tab of the order; [id] leaves
    the order, its record and its view are gone; and when nothing remains,
    whether [id] was active or not, the order is the one fresh tab, active,
    with the blank title and the blank page as its navigation. *)
Theorem close_tab_reassigns_and_removes fresh e w (id : TabID) l1 l2 :
  NoDup (tabs w) → (0 ∉ tabs w) → fresh_for w fresh → tabs w = l1 ++ id :: l2 →
  let w' := channels fresh (close_tab id) e w in
  let blank := blankPage (options w) in
  (currentViewId w = Some id →
   currentViewId (close_reassign id w) = head (l2 ++ l1 ++ [id]))
  ∧ (currentViewId w = Some id → l1 ++ l2 ≠ [] → currentViewId w' = head (l2 ++ l1))
  ∧ (currentViewId w ≠ Some id → l1 ++ l2 ≠ [] ∨ pointer_ok w →
     currentViewId w' = currentViewId w)
  ∧ (id ∉ tabs w') ∧ get (tabConfigs w') id = None ∧ get (views w') id = None
  ∧ (l1 ++ l2 ≠ [] → tabs w' = l1 ++ l2)
  ∧ (l1 ++ l2 = [] →
     tabs w' = [fresh] ∧ currentViewId w' = Some fresh
     ∧ (∃ r, get (tabConfigs w') fresh = Some r
             ∧ title r = Value (match blankTitle (options w) with
                                | Some t => if nonempty t then t else "about:blank"
                                | None => "about:blank"
                                end))
     ∧ wc_loads <$> (webContents <$> get (views w') fresh)
       = Some (if nonempty_opt blank then [default "" blank] else [])).
Proof.
  intros Hnd Hzero (Hfresh & Hfnot) Htabs w' blank.
  destruct (NoDup_around l1 l2 id) as (Hl1 & Hl2 & _); [by rewrite <- Htabs|].
  assert (id ∈ tabs w) as Hin.
  { rewrite Htabs, elem_of_app, elem_of_cons. auto. }
  assert (fresh ≠ id) as Hne by (intros ->; done).
  destruct (close_tab_in_order fresh e w id l1 l2) as [Ht Hp]; try done.
  fold w' in Ht, Hp.
  split; [by apply close_reassign_pointer|].
  split; [intros Hcur Hrest; by rewrite Hp, decide_False, decide_True|].
  split.
  { intros Hcur Hleft. rewrite Hp. rewrite decide_False; [by rewrite decide_False|].
    intros Hrest. destruct Hleft as [Hleft|Hptr]; [done|].
    apply app_eq_nil in Hrest as [-> ->]. unfold pointer_ok in Hptr.
    simpl in Htabs. destruct (currentViewId w) as [c|]; [|by rewrite Htabs in Hptr].
    rewrite Htabs, list_elem_of_singleton in Hptr. congruence. }
  split.
  { rewrite Ht. case_decide.
    - rewrite list_elem_of_singleton. congruence.
    - rewrite elem_of_app. tauto. }
  split; [by apply close_tab_record|].
  split; [by apply close_tab_view|].
  split; [intros Hrest; by rewrite Ht, decide_False|].
  intros Hrest. rewrite Ht, Hp, !decide_True by done. repeat split.
  - unfold w'. cbn [channels]. cbn zeta. rewrite decide_True.
    + destruct (newTab_record fresh (blankPage (options (close_remove id
        (close_reassign id w)))) None (close_remove id (close_reassign id w)))
        as (r & Hr & Htitle).
      exists r. split; [exact Hr|]. rewrite Htitle. by autorewrite with frame.
    + rewrite close_remove_tabs, close_reassign_tabs, Htabs, filter_ne_remove by done.
      by rewrite Hrest.
  - unfold w'. cbn [channels]. cbn zeta. rewrite decide_True.
    + rewrite newTab_view by done. autorewrite with frame. fold blank.
      by destruct (nonempty_opt blank).
    + rewrite close_remove_tabs, close_reassign_tabs, Htabs, filter_ne_remove by done.
      by rewrite Hrest.
Qed.

Lemma three_well_formed : well_formed Sample.three.
Proof.
  unfold well_formed, pointer_ok.
  change (tabs Sample.three) with [2; 3; 4].
  change (currentViewId Sample.three) with (Some 3).
  repeat split; apply (bool_decide_unpack _); vm_compute; exact I.
Defined.

Lemma three_fresh_9 : fresh_for Sample.three 9.
Proof.
  unfold fresh_for. change (tabs Sample.three) with [2; 3; 4].
  split; apply (bool_decide_unpack _); vm_compute; exact I.
Defined.

(** The scenario of the specification: order [2; 3; 4] with 3 active;
    closing 3 leaves [2; 4] with 4 active. *)
Lemma close_tab_reassigns_and_removes_witness :
  let w' := channels 9 (close_tab 3) Sample.control Sample.three in
  tabs Sample.three = [2; 3; 4] ∧ currentViewId Sample.three = Some 3
  ∧ tabs w' = [2; 4] ∧ currentViewId w' = Some 4
  ∧ (3 ∉ tabs w') ∧ get (tabConfigs w') 3 = None ∧ get (views w') 3 = None.
Proof.
  destruct (close_tab_reassigns_and_removes 9 Sample.control Sample.three 3 [2] [4]
              (proj1 three_well_formed) (proj1 (proj2 three_well_formed))
              three_fresh_9 eq_refl)
    as (_ & Hactive & _ & Hgone & Hrecord & Hview & Horder & _).
  split; [reflexivity|]. split; [reflexivity|].
  split; [by apply Horder|]. split; [by apply Hactive|].
  split; [exact Hgone|]. split; [exact Hrecord|exact Hview].
Defined.

(** C2, as stated for every state, fails.  After the handshake and a
    ['switch-tab'] to an id that names no tab, the order is [2] and the
    pointer is 7: tab 2 is in the order and is not the active one, yet
    closing it moves the pointer, to the tab created for the emptied order. *)
Lemma close_tab_inactive_moves_pointer :
  let w := run URL.host [ mkStep 2 (Ipc Sample.control control_ready);
                          mkStep 3 (Ipc Sample.control (switch_tab 7)) ] Sample.w0 in
  let w' := channels 9 (close_tab 2) Sample.control w in
  tabs w = [2] ∧ currentViewId w = Some 7 ∧ currentViewId w' = Some 9.
Proof. vm_compute. repeat split. Qed.

(** ** Signals leave the order, the pointer and the views alone *)

Section Fire.
Implicit Types (w : BrowserLikeWindow) (o : Occurrence).

(** A field that no listener body changes is unchanged by [fire]. *)
Lemma fire_preserves {X} (field : BrowserLikeWindow → X) :
  (∀ id o w, field (handler id o w) = field w) →
  ∀ key o w, field (fire key o w) = field w.
Proof.
  intros Hh key o w. unfold fire. destruct (get (views w) key) as [v|]; [|done].
  generalize w. induction (wc_listeners (webContents v)) as [|l ls IH];
    intros w0; simpl; [done|].
  rewrite IH. case_decide; [apply Hh|done].
Qed.

Lemma handler_tabs id o w : tabs (handler id o w) = tabs w.
Proof. destruct o; simpl; try case_match; by autorewrite with frame. Qed.
Lemma handler_pointer id o w : defCurrentViewId (handler id o w) = defCurrentViewId w.
Proof. destruct o; simpl; try case_match; by autorewrite with frame. Qed.
Lemma handler_views id o w : views (handler id o w) = views w.
Proof. destruct o; simpl; try case_match; by autorewrite with frame. Qed.
Lemma handler_ipc id o w : ipc (handler id o w) = ipc w.
Proof. destruct o; simpl; try case_match; by autorewrite with frame. Qed.
Lemma handler_control id o w : controlView (handler id o w) = controlView w.
Proof. destruct o; simpl; try case_match; by autorewrite with frame. Qed.

Lemma fire_tabs key o w : tabs (fire key o w) = tabs w.
Proof. apply fire_preserves, handler_tabs. Qed.
Lemma fire_pointer key o w : defCurrentViewId (fire key o w) = defCurrentViewId w.
Proof. apply fire_preserves, handler_pointer. Qed.
Lemma fire_views key o w : views (fire key o w) = views w.
Proof. apply fire_preserves, handler_views. Qed.
Lemma fire_ipc key o w : ipc (fire key o w) = ipc w.
Proof. apply fire_preserves, handler_ipc. Qed.
Lemma fire_control key o w : controlView (fire key o w) = controlView w.
Proof. apply fire_preserves, handler_control. Qed.

End Fire.

#[export] Hint Rewrite fire_tabs fire_pointer fire_views fire_ipc fire_control : frame.

(** ** The invariant of the order and the pointer *)

Section WellFormed.
Implicit Types (w : BrowserLikeWindow) (id fresh : TabID).

Lemma well_formed_same w w' :
  tabs w' = tabs w → defCurrentViewId w' = defCurrentViewId w →
  well_formed w → well_formed w'.
Proof.
  unfold well_formed, pointer_ok, currentViewId. by intros -> ->.
Qed.

Lemma well_formed_newTab fresh u a w :
  NoDup (tabs w) → 0 ∉ tabs w → fresh_for w fresh →
  well_formed (newTab fresh u a w).
Proof.
  intros Hnd Hzero [Hfresh Hnot].
  assert (tabs (newTab fresh u a w) ≡ₚ fresh :: tabs w) as Hperm.
  { rewrite newTab_tabs. destruct (truthy_opt a).
    - apply splice_insert_perm.
    - symmetry. apply Permutation_cons_append. }
  unfold well_formed, pointer_ok, currentViewId.
  rewrite newTab_pointer, truthy_true by done. rewrite !Hperm.
  rewrite NoDup_cons, !elem_of_cons. repeat split; try done; [|by left].
  intros [?|?]; [congruence|done].
Qed.

Lemma well_formed_close_tab fresh e w id :
  well_formed w → fresh_for w fresh →
  well_formed (channels fresh (close_tab id) e w).
Proof.
  intros (Hnd & Hzero & Hptr) [Hfresh Hnot].
  assert (well_formed (newTab fresh (blankPage (options w)) None
            (with_tabs [] w))) as Hblank.
  { apply well_formed_newTab; simpl; [constructor|apply not_elem_of_nil|].
    split; [done|apply not_elem_of_nil]. }
  destruct (decide (id ∈ tabs w)) as [Hin|Hout].
  - apply list_elem_of_split in Hin as (l1 & l2 & Htabs).
    destruct (NoDup_around l1 l2 id) as (Hl1 & Hl2 & Hnd'); [by rewrite <- Htabs|].
    destruct (close_tab_in_order fresh e w id l1 l2) as [Ht Hp]; try done.
    unfold well_formed, pointer_ok. rewrite Ht, Hp. case_decide as Hrest.
    + repeat split; [apply NoDup_singleton| |apply list_elem_of_singleton; done].
      rewrite list_elem_of_singleton. congruence.
    + assert (0 ∉ l1 ++ l2) as Hzero'.
      { intros H0. apply Hzero. rewrite Htabs. rewrite elem_of_app in *.
        rewrite elem_of_cons. tauto. }
      repeat split; try done. case_decide as Hcur.
      * destruct (head (l2 ++ l1)) as [x|] eqn:Hhead.
        -- apply head_elem_of in Hhead. rewrite elem_of_app in *. tauto.
        -- destruct l2, l1; done.
      * unfold pointer_ok in Hptr. destruct (currentViewId w) as [c|].
        -- rewrite Htabs, elem_of_app, elem_of_cons in Hptr.
           rewrite elem_of_app. destruct Hptr as [?|[?|?]]; try tauto. congruence.
        -- by rewrite Htabs in Hptr; destruct l1.
  - unfold well_formed, pointer_ok, currentViewId.
    rewrite close_tab_tabs, close_tab_pointer, filter_ne_not_elem by done.
    case_decide as Hempty.
    + repeat split; [apply NoDup_singleton| |apply list_elem_of_singleton; done].
      rewrite list_elem_of_singleton. congruence.
    + rewrite close_reassign_inactive; [done|].
      unfold pointer_ok in Hptr. intros Hcur. rewrite Hcur in Hptr. done.
Qed.

End WellFormed.

Section Runs.

Variable url_host : string → option string.

(** Every event but the activation of an arbitrary id keeps the state
    well formed, when the runtime hands out fresh ids. *)
Lemma well_formed_step s w :
  no_switch (event s) → well_formed w → fresh_for w (fresh_id s) →
  well_formed (step url_host s w).
Proof.
  intros Hev Hwf Hfresh. pose proof Hwf as (Hnd & Hzero & Hptr).
  unfold step. destruct (event s) as [e c|key o|key d|key back fwd].
  - unfold dispatch. destruct (controlView w) as [control|]; [|done].
    case_decide; [|done]. destruct c; try done.
    + apply (well_formed_same (newTab (fresh_id s)
               (Some (default "" (startPage (options w)))) None (with_ipc (Some e) w)));
        [done..|].
      by apply well_formed_newTab.
    + simpl. destruct (truthy_opt _); [|done].
      eapply well_formed_same; [| |exact Hwf]; by autorewrite with frame.
    + eapply well_formed_same; [| |exact Hwf]; simpl; by autorewrite with frame.
    + by apply well_formed_newTab.
    + by apply well_formed_close_tab.
  - eapply well_formed_same; [| |exact Hwf]; by autorewrite with frame.
  - unfold window_open. destruct (get (views w) key) as [v|]; [|done].
    destruct (wc_handler (webContents v)) as [[origin|h]|]; try done.
    unfold onNewWindow. destruct (url_host (hd_url d)) as [host|]; [|done].
    destruct (nonempty host); [|done]. case_decide; [done|].
    by apply well_formed_newTab.
  - eapply well_formed_same; [| |exact Hwf]; by autorewrite with frame.
Qed.

Lemma well_formed_run steps w (n : nat) :
  Forall (λ s, no_switch (event s)) steps → allocates_fresh url_host steps w →
  well_formed w → well_formed (run url_host (take n steps) w).
Proof.
  revert w n. induction steps as [|s steps IH]; intros w n Hns Hfresh Hwf.
  - by rewrite take_nil.
  - destruct n as [|n]; [done|]. simpl.
    apply Forall_cons in Hns as [Hs Hns]. destruct Hfresh as [Hf Hfresh].
    apply IH; [done..|]. by apply well_formed_step.
Qed.

Lemma well_formed_constructed o size control :
  well_formed (constructed o size control).
Proof.
  unfold well_formed, pointer_ok. simpl.
  repeat split; [constructor|apply not_elem_of_nil].
Qed.

(** C1. From the constructed state, along every sequence of events that
    create or close tabs, the runtime handing out fresh ids, after each
    event the active pointer is absent with an empty order or a member of
    the order. *)
Theorem pointer_in_order_after_create_close o size control steps :
  Forall (λ s, create_or_close (event s)) steps →
  allocates_fresh url_host steps (constructed o size control) →
  ∀ n : nat, pointer_ok (run url_host (take n steps) (constructed o size control)).
Proof.
  intros Hev Hfresh n.
  apply (well_formed_run steps (constructed o size control) n); [|done|].
  - eapply Forall_impl; [exact Hev|]. intros s. simpl.
    by destruct (event s) as [? []| | |].
  - apply well_formed_constructed.
Qed.

End Runs.

Lemma pointer_in_order_after_create_close_witness :
  pointer_ok (run URL.host (take 3 Sample.steps) Sample.w0)
  ∧ pointer_ok (run URL.host (take 6 Sample.steps) Sample.w0).
Proof.
  assert (∀ n : nat, pointer_ok (run URL.host (take n Sample.steps) Sample.w0)) as H.
  { apply (pointer_in_order_after_create_close URL.host Sample.opts (1024, 800) 1
             Sample.steps).
    - repeat constructor.
    - cbn [allocates_fresh Sample.steps]. unfold fresh_for.
      repeat split; apply (bool_decide_unpack _); vm_compute; exact I. }
  split; apply H.
Defined.

(** ** Layout passes and notifications of each operation *)

Section Accounting.
Implicit Types (w : BrowserLikeWindow) (id fresh : TabID).

Lemma adds_switchTab id w :
  id ≠ 0 → adds w (switchTab id w) (delivered w [active_update (Some id)]) 1.
Proof.
  intros Hid. unfold switchTab. cbn zeta.
  pose proof (adds_setCurrentView id w Hid) as H.
  destruct (currentView _); [|exact H].
  eapply adds_eq; [eapply adds_trans; [exact H|apply adds_effect]|..];
    [apply app_nil_r|done].
Qed.

Lemma adds_close_reassign_active id w l1 l2 :
  tabs w = l1 ++ id :: l2 → id ∉ l1 → 0 ∉ tabs w → currentViewId w = Some id →
  adds w (close_reassign id w) (delivered w [active_update (head (l2 ++ l1 ++ [id]))]) 1.
Proof.
  intros Htabs Hnot Hzero Hcur. rewrite (close_reassign_next id w l1 l2) by done.
  destruct (head (l2 ++ l1 ++ [id])) as [x|] eqn:Hhead; [|by destruct l2, l1].
  apply adds_setCurrentView. intros ->. apply head_elem_of in Hhead.
  apply Hzero. rewrite Htabs, elem_of_app, elem_of_cons.
  rewrite !elem_of_app, list_elem_of_singleton in Hhead.
  destruct Hhead as [?|[?|?]]; auto.
Qed.

Lemma adds_close_remove id w :
  adds w (close_remove id w)
       (delivered w [tabs_update (<[id := None]> (tabConfigs w))
                                 (filter (λ v, v ≠ id) (tabs w))]) 0.
Proof.
  unfold close_remove. cbn zeta.
  eapply adds_eq; [eapply adds_trans; [eapply adds_trans;
    [apply (adds_same_log w (with_tabs (filter (λ v, v ≠ id) (tabs w)) w)); done
    |apply adds_set_tabConfigs]|apply adds_destroyView]|..]; [|done].
  apply app_nil_r.
Qed.

Lemma delivered_app w ns ns' : delivered w ns ++ delivered w ns' = delivered w (ns ++ ns').
Proof. unfold delivered. by destruct (ipc w). Qed.

(** The effects of a close: the reassignment when the tab is active, the
    removal, a creation when nothing is left. *)
Lemma adds_close_tab fresh e w id l1 l2 :
  NoDup (tabs w) → 0 ∉ tabs w → fresh ≠ 0 → tabs w = l1 ++ id :: l2 →
  let w' := channels fresh (close_tab id) e w in
  adds w w'
    (delivered w
       ((if decide (currentViewId w = Some id)
         then [active_update (head (l2 ++ l1 ++ [id]))] else [])
        ++ [tabs_update (<[id := None]> (tabConfigs w)) (l1 ++ l2)]
        ++ (if decide (l1 ++ l2 = [])
            then [active_update (Some fresh); tabs_update (tabConfigs w') (tabs w')]
            else [])))
    ((if decide (currentViewId w = Some id) then 1 else 0)
     + (if decide (l1 ++ l2 = [])
        then if nonempty_opt (blankPage (options w)) then 2 else 1 else 0)).
Proof.
  intros Hnd Hzero Hfresh Htabs w'.
  destruct (NoDup_around l1 l2 id) as (Hl1 & Hl2 & _); [by rewrite <- Htabs|].
  set (w1 := close_reassign id w).
  assert (adds w w1 (delivered w (if decide (currentViewId w = Some id)
                                  then [active_update (head (l2 ++ l1 ++ [id]))]
                                  else []))
            (if decide (currentViewId w = Some id) then 1 else 0)) as H1.
  { unfold w1. case_decide as Hcur.
    - by apply adds_close_reassign_active.
    - rewrite close_reassign_inactive by done. unfold delivered.
      destruct (ipc w); apply adds_refl. }
  set (w2 := close_remove id w1).
  assert (adds w1 w2 (delivered w [tabs_update (<[id := None]> (tabConfigs w))
                                               (l1 ++ l2)]) 0) as H2.
  { eapply adds_eq; [apply adds_close_remove|..]; [|done].
    unfold w1, delivered, tabConfigs. autorewrite with frame.
    by rewrite Htabs, filter_ne_remove. }
  assert (tabs w2 = l1 ++ l2) as Htabs2.
  { unfold w2, w1. autorewrite with frame. by rewrite Htabs, filter_ne_remove. }
  assert (ipc w2 = ipc w ∧ options w2 = options w) as [Hipc2 Hopt2].
  { unfold w2, w1. by autorewrite with frame. }
  assert (w' = if decide (l1 ++ l2 = [])
               then newTab fresh (blankPage (options w)) None w2 else w2) as Hw'.
  { unfold w'. cbn [channels]. cbn zeta. fold w1. fold w2. rewrite Htabs2, Hopt2.
    destruct (l1 ++ l2); by repeat case_decide. }
  assert (adds w2 w'
            (delivered w (if decide (l1 ++ l2 = [])
                          then [active_update (Some fresh);
                                tabs_update (tabConfigs w') (tabs w')]
                          else []))
            (if decide (l1 ++ l2 = [])
             then if nonempty_opt (blankPage (options w)) then 2 else 1 else 0)) as H3.
  { case_decide as Hrest.
    - rewrite Hw'. eapply adds_eq; [apply adds_newTab, Hfresh| |done].
      unfold delivered. by rewrite Hipc2.
    - rewrite Hw'. unfold delivered. destruct (ipc w); apply adds_refl. }
  eapply adds_eq; [eapply adds_trans; [eapply adds_trans; [exact H1|exact H2]|exact H3]
                  |..].
  - by rewrite !delivered_app, <- app_assoc.
  - by rewrite Nat.add_0_r.
Qed.

End Accounting.

(** C6, as the code has it.  An activation of a real id makes one layout
    pass and sends one notification, [active-update].  A creation makes one
    activation and one merge: an [active-update] then a [tabs-update], one
    layout pass, and a second one for the first navigation when a URL is
    given.  A close sends one [tabs-update], after the one activation (one
    layout pass, one [active-update]) when the closed tab was active, and
    before one creation when the order is left empty.  Notifications reach
    the control surface once the reply handle is captured. *)
Theorem layout_and_notifications_per_operation fresh e w :
  (∀ id : TabID, id ≠ 0 →
     let es := produced w (switchTab id w) in
     count is_layout es = 1%nat
     ∧ notifications es = delivered w [active_update (Some id)])
  ∧ (∀ u a, fresh ≠ 0 →
       let w' := newTab fresh u a w in
       let es := produced w w' in
       count is_layout es = (if nonempty_opt u then 2 else 1)%nat
       ∧ notifications es
         = delivered w [active_update (Some fresh);
                        tabs_update (tabConfigs w') (tabs w')])
  ∧ (∀ (id : TabID) l1 l2,
       well_formed w → fresh_for w fresh → tabs w = l1 ++ id :: l2 →
       let w' := channels fresh (close_tab id) e w in
       let es := produced w w' in
       count is_layout es
       = ((if decide (currentViewId w = Some id) then 1 else 0)
          + (if decide (l1 ++ l2 = [])
             then if nonempty_opt (blankPage (options w)) then 2 else 1
             else 0))%nat
       ∧ notifications es
         = delivered w
             ((if decide (currentViewId w = Some id)
               then [active_update (head (l2 ++ l1 ++ [id]))] else [])
              ++ [tabs_update (<[id := None]> (tabConfigs w)) (l1 ++ l2)]
              ++ (if decide (l1 ++ l2 = [])
                  then [active_update (Some fresh);
                        tabs_update (tabConfigs w') (tabs w')]
                  else []))).
Proof.
  split; [|split].
  - intros id Hid es. by destruct (adds_produced _ _ _ _ (adds_switchTab id w Hid)).
  - intros u a Hfresh w' es.
    by destruct (adds_produced _ _ _ _ (adds_newTab fresh u a w Hfresh)).
  - intros id l1 l2 (Hnd & Hzero & _) [Hfresh _] Htabs w' es.
    by destruct (adds_produced _ _ _ _
                   (adds_close_tab fresh e w id l1 l2 Hnd Hzero Hfresh Htabs)).
Qed.

Lemma layout_and_notifications_per_operation_witness :
  (let es := produced Sample.three (switchTab 2 Sample.three) in
   count is_layout es = 1%nat
   ∧ notifications es = delivered Sample.three [active_update (Some 2)])
  ∧ (let w' := channels 9 (close_tab 3) Sample.control Sample.three in
     let es := produced Sample.three w' in
     count is_layout es
     = ((if decide (currentViewId Sample.three = Some 3%Z) then 1 else 0)
        + (if decide ([2%Z] ++ [4%Z] = [])
           then if nonempty_opt (blankPage (options Sample.three)) then 2 else 1
           else 0))%nat
     ∧ notifications es
       = delivered Sample.three
           ((if decide (currentViewId Sample.three = Some 3)
             then [active_update (head ([4] ++ [2] ++ [3]))] else [])
            ++ [tabs_update (<[3 := None]> (tabConfigs Sample.three)) ([2] ++ [4])]
            ++ (if decide ([2] ++ [4] = [])
                then [active_update (Some 9); tabs_update (tabConfigs w') (tabs w')]
                else []))).
Proof.
  destruct (layout_and_notifications_per_operation 9 Sample.control Sample.three)
    as (Hswitch & _ & Hclose).
  split.
  - apply Hswitch. lia.
  - apply (Hclose 3 [2] [4] three_well_formed three_fresh_9 eq_refl).
Defined.

(** C6, as stated, fails: a creation after the handshake sends two
    notifications, the [active-update] of its activation and the
    [tabs-update] of its merge. *)
Lemma creation_sends_two_notifications :
  let es := produced Sample.ready (dispatch 3 Sample.control (new_tab None) Sample.ready) in
  count is_layout es = 1%nat ∧ count is_reply es = 2%nat.
Proof. vm_compute. split; reflexivity. Qed.

(** ** Before the handshake *)

Section Quiet.
Implicit Types (w : BrowserLikeWindow) (id fresh : TabID).

Lemma quiet_refl w : quiet w w.
Proof. by split. Qed.

Lemma quiet_trans w1 w2 w3 : quiet w1 w2 → quiet w2 w3 → quiet w1 w3.
Proof.
  intros [Hi1 Hn1] [Hi2 Hn2]. split; [congruence|].
  intros Hnone. rewrite Hn2, Hn1; congruence.
Qed.

Lemma quiet_adds w w' ns n : adds w w' (delivered w ns) n → ipc w' = ipc w → quiet w w'.
Proof.
  intros Hadds Hipc. split; [done|]. intros Hnone.
  rewrite (adds_notifications _ _ _ _ Hadds). unfold delivered. rewrite Hnone.
  apply app_nil_r.
Qed.

Lemma quiet_adds_nil w w' n : adds w w' [] n → ipc w' = ipc w → quiet w w'.
Proof.
  intros Hadds Hipc. split; [done|]. intros _.
  rewrite (adds_notifications _ _ _ _ Hadds). apply app_nil_r.
Qed.

Lemma quiet_same_log w w' : log w' = log w → ipc w' = ipc w → quiet w w'.
Proof. intros Hlog Hipc. split; [done|]. by rewrite Hlog. Qed.

(** An effect that is no reply. *)
Lemma quiet_effect e w : is_reply e = false → quiet w (effect e w).
Proof.
  intros He. apply (quiet_adds_nil _ _ (count is_layout [e])); [|done].
  eapply adds_eq; [apply adds_effect| |done]. by destruct e.
Qed.

Lemma quiet_setTabConfig id kv w : quiet w (setTabConfig id kv w).
Proof. eapply quiet_adds; [apply adds_setTabConfig|apply setTabConfig_ipc]. Qed.

Lemma quiet_setCurrentView v w : quiet w (setCurrentView v w).
Proof.
  destruct (truthy_opt v) eqn:Hv; [|rewrite setCurrentView_falsy by done; apply quiet_refl].
  destruct v as [id|]; [|done]. simpl in Hv.
  eapply quiet_adds; [apply adds_setCurrentView|apply setCurrentView_ipc].
  intros ->. done.
Qed.

Lemma quiet_loadURL u w : quiet w (loadURL u w).
Proof. eapply quiet_adds_nil; [apply adds_loadURL|apply loadURL_ipc]. Qed.

Lemma quiet_newTab fresh u a w : quiet w (newTab fresh u a w).
Proof.
  unfold newTab. cbn zeta. set (w1 := with_views _ _).
  assert (quiet w w1) as H1.
  { unfold w1. destruct (truthy_opt a); by apply quiet_same_log. }
  eapply quiet_trans; [|by apply quiet_effect].
  eapply quiet_trans; [|apply quiet_setTabConfig].
  assert (quiet w (effect (SetAutoResize (view_id (new_view fresh)))
                     (setCurrentView (Some (view_id (new_view fresh))) w1))) as H2.
  { eapply quiet_trans; [eapply quiet_trans; [exact H1|apply quiet_setCurrentView]|].
    by apply quiet_effect. }
  destruct (nonempty_opt u); [|exact H2].
  eapply quiet_trans; [exact H2|apply quiet_loadURL].
Qed.

End Quiet.

Section QuietEvents.
Implicit Types (w : BrowserLikeWindow) (id fresh : TabID).

Lemma quiet_switchTab id w : quiet w (switchTab id w).
Proof.
  unfold switchTab. cbn zeta. pose proof (quiet_setCurrentView (Some id) w) as H.
  destruct (currentView _); [|exact H].
  eapply quiet_trans; [exact H|by apply quiet_effect].
Qed.

Lemma quiet_close_reassign id w : quiet w (close_reassign id w).
Proof.
  unfold close_reassign. case_decide; [apply quiet_setCurrentView|apply quiet_refl].
Qed.

Lemma quiet_close_remove id w : quiet w (close_remove id w).
Proof. eapply quiet_adds; [apply adds_close_remove|apply close_remove_ipc]. Qed.

(** Every listener but the handshake keeps the reply handle as it is. *)
Lemma quiet_channels fresh c e w : c ≠ control_ready → quiet w (channels fresh c e w).
Proof.
  intros Hc. destruct c; try done; cbn [channels]; cbn zeta.
  - destruct (truthy_opt _); [apply quiet_setTabConfig|apply quiet_refl].
  - apply quiet_loadURL.
  - apply quiet_newTab.
  - apply quiet_switchTab.
  - assert (quiet w (close_remove id (close_reassign id w))) as H.
    { eapply quiet_trans; [apply quiet_close_reassign|apply quiet_close_remove]. }
    case_decide; [|exact H]. eapply quiet_trans; [exact H|apply quiet_newTab].
Qed.

Lemma quiet_handler id o w : quiet w (handler id o w).
Proof.
  destruct o; simpl; try apply quiet_setTabConfig.
  - destruct isMainFrame; [|apply quiet_refl].
    eapply quiet_trans; [apply quiet_setTabConfig|by apply quiet_effect].
  - eapply quiet_trans; [apply quiet_setTabConfig|by apply quiet_effect].
  - by apply quiet_effect.
Qed.

Lemma quiet_fire key o w : quiet w (fire key o w).
Proof.
  unfold fire. destruct (get (views w) key) as [v|]; [|apply quiet_refl].
  generalize (wc_listeners (webContents v)). clear v. intros ls. revert w.
  induction ls as [|l ls IH]; intros w; simpl; [apply quiet_refl|].
  eapply quiet_trans; [|apply IH].
  case_decide; [apply quiet_handler|apply quiet_refl].
Qed.

Lemma switchTab_control id w : controlView (switchTab id w) = controlView w.
Proof. unfold switchTab. cbn zeta. case_match; by autorewrite with frame. Qed.

Lemma channels_control fresh c e w : controlView (channels fresh c e w) = controlView w.
Proof.
  destruct c; cbn [channels]; cbn zeta; try case_match;
    autorewrite with frame; try done.
  apply switchTab_control.
Qed.

Variable url_host : string → option string.

Lemma quiet_window_open fresh key d w : quiet w (window_open url_host fresh key d w).
Proof.
  unfold window_open. destruct (get (views w) key) as [v|]; [|apply quiet_refl].
  destruct (wc_handler (webContents v)) as [[origin|h]|]; try apply quiet_refl.
  unfold onNewWindow. destruct (url_host (hd_url d)) as [host|]; [|apply quiet_refl].
  destruct (nonempty host); [|apply quiet_refl].
  case_decide; [apply quiet_refl|apply quiet_newTab].
Qed.

Lemma step_control s w : controlView (step url_host s w) = controlView w.
Proof.
  unfold step. destruct (event s) as [e c|key o|key d|key back fwd].
  - unfold dispatch. destruct (controlView w) eqn:Hc; [|done].
    case_decide; [|done]. by rewrite channels_control.
  - apply fire_control.
  - unfold window_open. destruct (get (views w) key) as [v|]; [|done].
    destruct (wc_handler (webContents v)) as [[origin|h]|]; try done.
    unfold onNewWindow. destruct (url_host (hd_url d)) as [host|]; [|done].
    destruct (nonempty host); [|done]. case_decide; [done|].
    apply newTab_control.
  - apply update_webContents_control.
Qed.

(** Every event but the handshake of the window's own control view. *)
Lemma quiet_step control s w :
  controlView w = Some control → ¬ handshake_from control (event s) →
  quiet w (step url_host s w).
Proof.
  intros Hcontrol Hev. unfold step.
  destruct (event s) as [e c|key o|key d|key back fwd].
  - unfold dispatch. rewrite Hcontrol. case_decide as Hsender; [|apply quiet_refl].
    apply quiet_channels. intros ->. by apply Hev.
  - apply quiet_fire.
  - apply quiet_window_open.
  - apply quiet_same_log; by autorewrite with frame.
Qed.

Lemma quiet_run control steps w :
  controlView w = Some control →
  Forall (λ s, ¬ handshake_from control (event s)) steps →
  quiet w (run url_host steps w)
  ∧ controlView (run url_host steps w) = Some control.
Proof.
  revert w. induction steps as [|s steps IH]; intros w Hcontrol Hev.
  - split; [apply quiet_refl|done].
  - apply Forall_cons in Hev as [Hs Hev]. simpl.
    destruct (IH (step url_host s w)) as [Hq Hc]; [by rewrite step_control|done|].
    split; [|done]. eapply quiet_trans; [by eapply quiet_step|exact Hq].
Qed.

(** C8. Whatever happens before the handshake of the window's own control
    view (commands, session signals, window-open requests), the reply
    handle is absent and no notification has been sent.  Nothing was kept
    for later either: the notifications sent by the time the handshake has
    been handled are the two of the handshake's own first tab. *)
Theorem notifications_dropped_before_handshake o size control steps :
  Forall (λ s, ¬ handshake_from control (event s)) steps →
  let w := run url_host steps (constructed o size control) in
  ipc w = None
  ∧ notifications (log w) = []
  ∧ ∀ fresh e, sender e = control → fresh ≠ 0 →
      let w' := step url_host (mkStep fresh (Ipc e control_ready)) w in
      ipc w' = Some e
      ∧ notifications (log w')
        = [active_update (Some fresh); tabs_update (tabConfigs w') (tabs w')].
Proof.
  intros Hev w.
  destruct (quiet_run control steps (constructed o size control) eq_refl Hev)
    as [[Hipc Hquiet] Hcontrol].
  fold w in Hipc, Hquiet, Hcontrol. simpl in Hipc, Hquiet.
  specialize (Hquiet eq_refl).
  split; [done|]. split; [done|].
  intros fresh e Hsender Hfresh w'.
  assert (w' = effect (Emit emit_control_ready)
                 (newTab fresh (Some (default "" (startPage (options w)))) None
                    (with_ipc (Some e) w))) as Hw'.
  { unfold w', step, dispatch. simpl. rewrite Hcontrol. by rewrite decide_True. }
  pose proof (adds_newTab fresh (Some (default "" (startPage (options w)))) None
                (with_ipc (Some e) w) Hfresh) as Hadds.
  apply adds_notifications in Hadds. simpl in Hadds. rewrite Hquiet in Hadds.
  rewrite Hw'. unfold tabConfigs. rewrite effect_ipc, newTab_ipc, effect_log.
  rewrite notifications_app, effect_confs, effect_tabs. simpl.
  split; [done|]. rewrite app_nil_r. exact Hadds.
Qed.

End QuietEvents.

Lemma notifications_dropped_before_handshake_witness :
  let w := run URL.host Sample.early Sample.w0 in
  ipc w = None
  ∧ notifications (log w) = []
  ∧ ∀ fresh e, sender e = 1 → fresh ≠ 0 →
      let w' := step URL.host (mkStep fresh (Ipc e control_ready)) w in
      ipc w' = Some e
      ∧ notifications (log w')
        = [active_update (Some fresh); tabs_update (tabConfigs w') (tabs w')].
Proof.
  apply (notifications_dropped_before_handshake URL.host Sample.opts (1024, 800) 1
           Sample.early).
  repeat constructor; simpl; tauto.
Defined.

(** ** Listeners are registered once *)

Section Wiring.
Implicit Types (w : BrowserLikeWindow) (id fresh : TabID).

Lemma lifecycle_once (s : Signal) id :
  length (filter (λ l, on l = s) (lifecycle id)) = 1%nat.
Proof. by destruct s. Qed.

Lemma wired_once_listeners v (s : Signal) :
  wired_once v → (listeners_for s (webContents v) ≤ 1)%nat.
Proof.
  unfold listeners_for. intros [[_ ->]|[_ ->]]; [simpl; lia|].
  by rewrite lifecycle_once.
Qed.

Lemma wired_once_navigate v u :
  wired_once v → wired_once (mkView (view_id v) (navigate u (webContents v))).
Proof. by intros [[? ?]|[? ?]]; [left|right]. Qed.

Lemma wired_once_history v back fwd :
  wired_once v → wired_once (mkView (view_id v) (history back fwd (webContents v))).
Proof. by intros [[? ?]|[? ?]]; [left|right]. Qed.

Lemma wired_once_wire v o u :
  wired_once v → wc_marks (webContents v) = false →
  wired_once (mkView (view_id v) (wire o (view_id v) u (webContents v))).
Proof.
  intros [[_ Hl]|[Hm _]] Hmarks; [|congruence]. right. simpl. by rewrite Hl.
Qed.

Lemma views_wired_same w w' : views w' = views w → views_wired w → views_wired w'.
Proof. unfold views_wired. by intros ->. Qed.

Lemma views_wired_insert w w' (k : TabID) (o : option TabView) :
  views w' = <[k := o]> (views w) → (∀ v, o = Some v → wired_once v) →
  views_wired w → views_wired w'.
Proof.
  intros Hviews Ho Hw j v. rewrite Hviews.
  destruct (decide (k = j)) as [->|Hne].
  - rewrite get_insert. apply Ho.
  - rewrite get_insert_ne by done. apply Hw.
Qed.

Lemma views_wired_update k f w :
  (∀ v, get (views w) k = Some v → wired_once v →
        wired_once (mkView (view_id v) (f (webContents v)))) →
  views_wired w → views_wired (update_webContents k f w).
Proof.
  intros Hf Hw. unfold update_webContents.
  destruct (get (views w) k) as [v|] eqn:Hget; [|done].
  eapply views_wired_insert; [done| |done].
  intros v' [= <-]. apply Hf; [done|]. by apply (Hw k).
Qed.

Lemma views_wired_loadURL u w : views_wired w → views_wired (loadURL u w).
Proof.
  intros Hw j v. rewrite loadURL_views.
  destruct (currentView w) as [cv|] eqn:Hcv; [|apply Hw].
  destruct (currentViewId w) as [key|] eqn:Hcur; [|apply Hw].
  destruct (nonempty u); [|apply Hw].
  apply currentView_inv in Hcv as (key' & Hkey' & _ & Hget).
  unfold currentViewId in Hcur. assert (key' = key) as -> by congruence.
  apply views_wired_update; [|done]. intros v0 Hv0 Hwired.
  assert (v0 = cv) as -> by congruence.
  destruct (wc_marks (webContents cv)) eqn:Hmarks.
  - by apply wired_once_navigate.
  - by apply wired_once_wire.
Qed.

Lemma views_wired_newTab fresh u a w : views_wired w → views_wired (newTab fresh u a w).
Proof.
  intros Hw. unfold newTab. cbn zeta. set (w1 := with_views _ _).
  assert (views_wired w1) as H1.
  { apply (views_wired_insert w w1 (view_id (new_view fresh)) (Some (new_view fresh)));
      [unfold w1; by destruct (truthy_opt a)| |done].
    intros v [= <-]. by left. }
  apply (views_wired_same (if nonempty_opt u
                           then loadURL (default "" u)
                                  (effect (SetAutoResize (view_id (new_view fresh)))
                                     (setCurrentView (Some (view_id (new_view fresh))) w1))
                           else effect (SetAutoResize (view_id (new_view fresh)))
                                  (setCurrentView (Some (view_id (new_view fresh))) w1)));
    [by autorewrite with frame|].
  assert (views_wired (effect (SetAutoResize (view_id (new_view fresh)))
                         (setCurrentView (Some (view_id (new_view fresh))) w1))) as H2.
  { apply (views_wired_same w1); [by autorewrite with frame|done]. }
  destruct (nonempty_opt u); [by apply views_wired_loadURL|done].
Qed.

Lemma views_wired_destroyView id w : views_wired w → views_wired (destroyView id w).
Proof.
  intros Hw. unfold destroyView. destruct (get (views w) id) as [v|]; [|done].
  eapply (views_wired_insert w); [done| |done]. done.
Qed.

Lemma views_wired_channels fresh c e w :
  views_wired w → views_wired (channels fresh c e w).
Proof.
  intros Hw. destruct c; cbn [channels]; cbn zeta.
  - apply (views_wired_same (newTab fresh (Some (default "" (startPage (options w))))
                               None (with_ipc (Some e) w))); [done|].
    by apply views_wired_newTab.
  - destruct (truthy_opt _); [|done].
    apply (views_wired_same w); [by autorewrite with frame|done].
  - by apply views_wired_loadURL.
  - by apply views_wired_newTab.
  - apply (views_wired_same w); [|done]. unfold switchTab. cbn zeta.
    case_match; by autorewrite with frame.
  - assert (views_wired (close_remove id (close_reassign id w))) as H.
    { unfold close_remove. cbn zeta. apply views_wired_destroyView.
      apply (views_wired_same w); [|done].
      rewrite set_tabConfigs_views. simpl. apply close_reassign_views. }
    case_decide; [by apply views_wired_newTab|done].
Qed.

Variable url_host : string → option string.

Lemma views_wired_step s w : views_wired w → views_wired (step url_host s w).
Proof.
  intros Hw. unfold step. destruct (event s) as [e c|key o|key d|key back fwd].
  - unfold dispatch. destruct (controlView w); [|done]. case_decide; [|done].
    by apply views_wired_channels.
  - apply (views_wired_same w); [apply fire_views|done].
  - unfold window_open. destruct (get (views w) key) as [v|]; [|done].
    destruct (wc_handler (webContents v)) as [[origin|h]|]; try done.
    unfold onNewWindow. destruct (url_host (hd_url d)) as [host|]; [|done].
    destruct (nonempty host); [|done]. case_decide; [done|].
    by apply views_wired_newTab.
  - apply views_wired_update; [|done]. intros v _. apply wired_once_history.
Qed.

Lemma views_wired_run steps w : views_wired w → views_wired (run url_host steps w).
Proof.
  revert w. induction steps as [|s steps IH]; intros w Hw; [done|].
  simpl. by apply IH, views_wired_step.
Qed.

(** C9. In every state the window reaches, every live view has at most
    one listener per lifecycle signal.  A [loadURL] on the active view
    leaves it wired, with exactly one listener per signal; and when the view
    was wired already, [loadURL] is nothing but the navigation of its web
    contents: same listeners, same window-open handler, no other effect. *)
Theorem listeners_registered_once o size control steps (k : TabID) v :
  let w := run url_host steps (constructed o size control) in
  get (views w) k = Some v →
  (∀ s, (listeners_for s (webContents v) ≤ 1)%nat)
  ∧ (∀ u, currentViewId w = Some k → k ≠ 0 → nonempty u = true →
       ∃ v', get (views (loadURL u w)) k = Some v'
             ∧ wc_marks (webContents v') = true
             ∧ (∀ s, listeners_for s (webContents v') = 1%nat)
             ∧ wc_loads (webContents v') = wc_loads (webContents v) ++ [u]
             ∧ (wc_marks (webContents v) = true →
                wc_listeners (webContents v') = wc_listeners (webContents v)
                ∧ wc_handler (webContents v') = wc_handler (webContents v)
                ∧ loadURL u w = update_webContents k (navigate u) w)).
Proof.
  intros w Hget.
  assert (wired_once v) as Hwired.
  { apply (views_wired_run steps (constructed o size control)) with (k := k); [|done].
    intros j v0. unfold get. simpl. by rewrite lookup_empty. }
  split; [intros s; by apply wired_once_listeners|].
  intros u Hcur Hk Hu.
  assert (currentView w = Some v) as Hcv by (by rewrite (currentView_at w k)).
  destruct (wc_marks (webContents v)) eqn:Hmarks.
  - assert (loadURL u w = update_webContents k (navigate u) w) as Hload.
    { unfold loadURL. by rewrite Hcv, Hcur, Hu, Hmarks. }
    eexists. rewrite Hload. split; [by apply update_webContents_get|].
    destruct Hwired as [[? ?]|[_ Hl]]; [congruence|].
    simpl. repeat split; try done.
    intros s. unfold listeners_for. simpl. rewrite Hl. apply lifecycle_once.
  - eexists. rewrite loadURL_views, Hcv, Hcur, Hu, Hmarks.
    split; [by apply update_webContents_get|].
    destruct Hwired as [[_ Hl]|[? ?]]; [|congruence].
    simpl. repeat split; try done.
    intros s. unfold listeners_for. simpl. rewrite Hl. apply lifecycle_once.
Qed.

End Wiring.

Lemma listeners_registered_once_witness :
  let w := run URL.host [mkStep 2 (Ipc Sample.control control_ready)] Sample.w0 in
  (∀ s, (listeners_for s (webContents Sample.view2) ≤ 1)%nat)
  ∧ (∀ u, currentViewId w = Some 2 → 2 ≠ 0 → nonempty u = true →
       ∃ v', get (views (loadURL u w)) 2 = Some v'
             ∧ wc_marks (webContents v') = true
             ∧ (∀ s, listeners_for s (webContents v') = 1%nat)
             ∧ wc_loads (webContents v') = wc_loads (webContents Sample.view2) ++ [u]
             ∧ (wc_marks (webContents Sample.view2) = true →
                wc_listeners (webContents v') = wc_listeners (webContents Sample.view2)
                ∧ wc_handler (webContents v') = wc_handler (webContents Sample.view2)
                ∧ loadURL u w = update_webContents 2 (navigate u) w)).
Proof.
  apply (listeners_registered_once URL.host Sample.opts (1024, 800) 1
           [mkStep 2 (Ipc Sample.control control_ready)] 2 Sample.view2).
  vm_compute. reflexivity.
Defined.

(** ** The originating tab of a window-open request is in the order *)

Section Origin.
Implicit Types (w : BrowserLikeWindow) (id fresh : TabID).

Lemma views_in_order_same w w' :
  views w' = views w → tabs w' = tabs w → views_in_order w → views_in_order w'.
Proof. unfold views_in_order. by intros -> ->. Qed.

Lemma views_in_order_update k f w :
  (∀ wc, wc_handler (f wc) = wc_handler wc
         ∨ (k ≠ 0 ∧ ∀ origin, wc_handler (f wc) = Some (DefaultHandler origin) →
                              origin = k)) →
  views_in_order w → views_in_order (update_webContents k f w).
Proof.
  intros Hf Hw j v. unfold update_webContents.
  destruct (get (views w) k) as [v0|] eqn:Hget; [|apply Hw]. simpl.
  destruct (decide (k = j)) as [<-|Hne]; [|rewrite get_insert_ne by done; apply Hw].
  rewrite get_insert. intros [= <-]. simpl.
  destruct (Hw k v0 Hget) as (Hin & Hid & Horigin & Hreal).
  repeat split; try done.
  - intros origin. destruct (Hf (webContents v0)) as [->|[_ H]]; [apply Horigin|apply H].
  - destruct (Hf (webContents v0)) as [->|[H _]]; done.
Qed.

Lemma views_in_order_loadURL u w : views_in_order w → views_in_order (loadURL u w).
Proof.
  intros Hw.
  apply (views_in_order_same
           (match currentView w, currentViewId w with
            | Some cv, Some key =>
                if nonempty u then
                  update_webContents key
                    (if wc_marks (webContents cv) then navigate u
                     else wire (options w) (view_id cv) u) w
                else w
            | _, _ => w
            end)).
  - rewrite loadURL_views. by repeat case_match.
  - rewrite loadURL_tabs. repeat case_match; by autorewrite with frame.
  - destruct (currentView w) as [cv|] eqn:Hcv; [|done].
    destruct (currentViewId w) as [key|] eqn:Hcur; [|done].
    destruct (nonempty u); [|done].
    apply currentView_inv in Hcv as (key' & Hkey' & Hreal & Hget).
    unfold currentViewId in Hcur. assert (key' = key) as -> by congruence.
    destruct (Hw key cv Hget) as (_ & Hid & _).
    apply views_in_order_update; [|done]. intros wc.
    destruct (wc_marks (webContents cv)); [by left|]. right. split; [done|].
    intros origin. simpl. destruct (opt_onNewWindow (options w)); [done|].
    intros [= <-]. exact Hid.
Qed.

Lemma views_in_order_newTab fresh u a w :
  views_in_order w → views_in_order (newTab fresh u a w).
Proof.
  intros Hw. unfold newTab. cbn [view_id new_view]. cbn zeta.
  set (w1 := with_views _ _).
  assert (views_in_order w1) as H1.
  { intros j v. unfold w1.
    assert (∀ y, y ∈ tabs w ∨ y = fresh →
                 y ∈ tabs (if truthy_opt a
                           then with_tabs (splice_insert
                                  (indexOf (tabs w) (default 0 a) + 1) fresh (tabs w)) w
                           else with_tabs (tabs w ++ [fresh]) w)) as Hin.
    { intros y Hy. destruct (truthy_opt a); simpl.
      - rewrite splice_insert_perm, elem_of_cons. tauto.
      - rewrite elem_of_app, list_elem_of_singleton. tauto. }
    simpl. destruct (decide (fresh = j)) as [<-|Hne].
    - rewrite get_insert. intros [= <-]. simpl. repeat split; try done.
      apply Hin. by right.
    - rewrite get_insert_ne by done.
      assert (views (if truthy_opt a
                     then with_tabs (splice_insert
                            (indexOf (tabs w) (default 0 a) + 1) fresh (tabs w)) w
                     else with_tabs (tabs w ++ [fresh]) w) = views w) as ->
        by (by destruct (truthy_opt a)).
      intros Hget. destruct (Hw j v Hget) as (Hj & Hrest).
      split; [|done]. apply Hin. by left. }
  set (w2 := effect _ (setCurrentView _ w1)).
  assert (views_in_order w2) as H2.
  { apply (views_in_order_same w1); [unfold w2; by autorewrite with frame..|done]. }
  apply (views_in_order_same (if nonempty_opt u then loadURL (default "" u) w2 else w2));
    [by autorewrite with frame..|].
  destruct (nonempty_opt u); [by apply views_in_order_loadURL|done].
Qed.

Lemma views_in_order_close_remove id w :
  views_in_order w → views_in_order (close_remove id w).
Proof.
  intros Hw j v Hget.
  destruct (decide (j = id)) as [->|Hne]; [by rewrite close_remove_view in Hget|].
  unfold close_remove in Hget. cbn zeta in Hget.
  rewrite destroyView_get_ne, set_tabConfigs_views in Hget by done. simpl in Hget.
  destruct (Hw j v Hget) as (Hj & Hrest). split; [|done].
  rewrite close_remove_tabs. apply list_elem_of_filter. by split.
Qed.

Lemma views_in_order_channels fresh c e w :
  views_in_order w → views_in_order (channels fresh c e w).
Proof.
  intros Hw. destruct c; cbn [channels]; cbn zeta.
  - apply (views_in_order_same (newTab fresh (Some (default "" (startPage (options w))))
                                  None (with_ipc (Some e) w))); [done..|].
    by apply views_in_order_newTab.
  - destruct (truthy_opt _); [|done].
    apply (views_in_order_same w); [by autorewrite with frame..|done].
  - by apply views_in_order_loadURL.
  - by apply views_in_order_newTab.
  - apply (views_in_order_same w); [| |done]; unfold switchTab; cbn zeta;
      case_match; by autorewrite with frame.
  - assert (views_in_order (close_remove id (close_reassign id w))) as H.
    { apply views_in_order_close_remove.
      apply (views_in_order_same w); [by autorewrite with frame..|done]. }
    case_decide; [by apply views_in_order_newTab|done].
Qed.

Variable url_host : string → option string.

Lemma views_in_order_step s w : views_in_order w → views_in_order (step url_host s w).
Proof.
  intros Hw. unfold step. destruct (event s) as [e c|key o|key d|key back fwd].
  - unfold dispatch. destruct (controlView w); [|done]. case_decide; [|done].
    by apply views_in_order_channels.
  - apply (views_in_order_same w); [apply fire_views|apply fire_tabs|done].
  - unfold window_open. destruct (get (views w) key) as [v|]; [|done].
    destruct (wc_handler (webContents v)) as [[origin|h]|]; try done.
    unfold onNewWindow. destruct (url_host (hd_url d)) as [host|]; [|done].
    destruct (nonempty host); [|done]. case_decide; [done|].
    by apply views_in_order_newTab.
  - apply views_in_order_update; [|done]. intros wc. by left.
Qed.

Lemma views_in_order_run steps w :
  views_in_order w → views_in_order (run url_host steps w).
Proof.
  revert w. induction steps as [|s steps IH]; intros w Hw; [done|].
  simpl. by apply IH, views_in_order_step.
Qed.

(** In every state the window reaches, a live view that has the default
    window-open handler is stored under the id the handler captured, a real
    id of the tab order: the originating tab that [onNewWindow] inserts
    after is there. *)
Lemma live_handler_origin_in_order o size control steps (key origin : TabID) v :
  let w := run url_host steps (constructed o size control) in
  get (views w) key = Some v →
  wc_handler (webContents v) = Some (DefaultHandler origin) →
  origin = key ∧ origin ≠ 0
  ∧ ∃ l1 l2, tabs w = l1 ++ origin :: l2 ∧ origin ∉ l1.
Proof.
  intros w Hget Hhandler.
  assert (views_in_order w) as Hw.
  { apply views_in_order_run. intros j v0. unfold get. simpl.
    by rewrite lookup_empty. }
  destruct (Hw key v Hget) as (Hin & _ & Horigin & Hreal).
  assert (origin = key) as -> by (by apply Horigin).
  split; [done|]. split; [apply Hreal; by rewrite Hhandler|].
  by apply list_elem_of_split_l.
Qed.

End Origin.

(** * Further properties of the manager *)

(** ** Layout *)

(** X1. With a current view, [setContentBounds] gives it the rectangle
    right below the control view: same left edge and width, top edge at the
    control view's bottom, and the two heights add up to the content height
    of the window; the control view's height is never zero ([130] stands in
    for a missing or zero option).  Without a current view it sets no
    bounds. *)
Theorem content_view_fills_below_control w :
  (∀ v, currentView w = Some v →
     setContentBounds w = effect (Layout (Some (view_id v, content_bounds w))) w)
  ∧ (currentView w = None → setContentBounds w = effect (Layout None) w)
  ∧ x (content_bounds w) = x (getControlBounds w)
  ∧ width (content_bounds w) = width (getControlBounds w)
  ∧ y (content_bounds w) = y (getControlBounds w) + height (getControlBounds w)
  ∧ height (getControlBounds w) + height (content_bounds w) = snd (contentSize w)
  ∧ height (getControlBounds w) ≠ 0.
Proof.
  split; [|split].
  - intros v Hv. unfold setContentBounds, content_bounds.
    rewrite Hv. by destruct (contentSize w).
  - intros Hv. unfold setContentBounds. rewrite Hv. by destruct (contentSize w).
  - unfold content_bounds. simpl. repeat split; [lia|].
    destruct (controlHeight (options w)) as [h|]; [|done].
    destruct (truthy h) eqn:Hh; [|done].
    unfold truthy in Hh. by apply bool_decide_eq_true in Hh.
Qed.

Lemma content_view_fills_below_control_witness :
  setContentBounds Sample.ready
  = effect (Layout (Some (view_id Sample.view2, content_bounds Sample.ready)))
      Sample.ready.
Proof.
  refine (proj1 (content_view_fills_below_control Sample.ready) Sample.view2 _).
  vm_compute. reflexivity.
Defined.

(** ** Destroying and closing again *)

Lemma destroyView_missing (id : TabID) w :
  get (views w) id = None → destroyView id w = w.
Proof. intros Hget. unfold destroyView. by rewrite Hget. Qed.

(** X2. [destroyView] on an id without live view changes nothing, so
    destroying twice is destroying once. *)
Theorem destroyView_idempotent (id : TabID) w :
  (get (views w) id = None → destroyView id w = w)
  ∧ destroyView id (destroyView id w) = destroyView id w.
Proof. split; [apply destroyView_missing|]. apply destroyView_missing, destroyView_get. Qed.

Lemma destroyView_idempotent_witness :
  destroyView 7 Sample.three = Sample.three.
Proof.
  refine (proj1 (destroyView_idempotent 7 Sample.three) _). vm_compute. reflexivity.
Defined.

(** X3. ['close-tab'] never leaves the order empty: whatever is closed, in
    whatever state, at least one tab is in the order afterwards. *)
Theorem close_tab_leaves_a_tab fresh e (id : TabID) w :
  ∃ first rest, tabs (channels fresh (close_tab id) e w) = first :: rest.
Proof.
  rewrite close_tab_tabs. case_decide as H; [by eexists _, _|].
  destruct (filter _ (tabs w)) as [|first rest]; [done|]. by eexists _, _.
Qed.

(** X4. In a well-formed state with tabs, ['close-tab'] for an id that is
    not in the order leaves the order and the active pointer alone; it still
    writes [undefined] over the record of that id and leaves the other
    records alone. *)
Theorem close_tab_unknown_id fresh e (id : TabID) w :
  well_formed w → tabs w ≠ [] → id ∉ tabs w →
  let w' := channels fresh (close_tab id) e w in
  tabs w' = tabs w ∧ currentViewId w' = currentViewId w
  ∧ tabConfigs w' = <[id := None]> (tabConfigs w).
Proof.
  intros (_ & _ & Hptr) Hne Hout w'.
  assert (currentViewId w ≠ Some id) as Hcur.
  { intros Hcur. unfold pointer_ok in Hptr. by rewrite Hcur in Hptr. }
  unfold w'. cbn [channels]. cbn zeta.
  rewrite close_reassign_inactive by done.
  rewrite close_remove_tabs, filter_ne_not_elem by done.
  rewrite decide_False by (by destruct (tabs w)).
  unfold currentViewId, tabConfigs.
  rewrite close_remove_tabs, close_remove_pointer, filter_ne_not_elem by done.
  repeat split. unfold close_remove. cbn zeta.
  by rewrite destroyView_confs, set_tabConfigs_confs.
Qed.

Lemma close_tab_unknown_id_witness :
  let w' := channels 9 (close_tab 7) Sample.control Sample.three in
  tabs w' = tabs Sample.three ∧ currentViewId w' = currentViewId Sample.three
  ∧ tabConfigs w' = <[7 := None]> (tabConfigs Sample.three).
Proof.
  refine (close_tab_unknown_id 9 Sample.control 7 Sample.three three_well_formed _ _).
  - change (tabs Sample.three) with [2; 3; 4]. done.
  - change (tabs Sample.three) with [2; 3; 4].
    apply (bool_decide_unpack _). vm_compute. exact I.
Defined.

(** X5. Closing the same tab twice: in a well-formed state, the second
    ['close-tab'] for the id changes neither the order, nor the active
    pointer, nor the views. *)
Theorem close_tab_twice f1 f2 e1 e2 (id : TabID) w :
  well_formed w → fresh_for w f1 → f1 ≠ id → f2 ≠ 0 →
  let w1 := channels f1 (close_tab id) e1 w in
  let w2 := channels f2 (close_tab id) e2 w1 in
  tabs w2 = tabs w1 ∧ currentViewId w2 = currentViewId w1 ∧ views w2 = views w1.
Proof.
  intros Hwf Hf1 Hne Hf2 w1 w2.
  assert (well_formed w1) as (Hnd1 & Hz1 & Hp1) by (by apply well_formed_close_tab).
  assert (id ∉ tabs w1) as Hout.
  { unfold w1. rewrite close_tab_tabs. case_decide.
    - rewrite list_elem_of_singleton. congruence.
    - rewrite list_elem_of_filter. tauto. }
  assert (tabs w1 ≠ []) as Hne1.
  { unfold w1. rewrite close_tab_tabs. case_decide as H; [done|]. exact H. }
  assert (currentViewId w1 ≠ Some id) as Hcur.
  { intros Hcur. unfold pointer_ok in Hp1. by rewrite Hcur in Hp1. }
  assert (get (views w1) id = None) as Hview.
  { apply close_tab_view; [by destruct Hf1|done]. }
  unfold w2. cbn [channels]. cbn zeta.
  rewrite close_reassign_inactive by done.
  rewrite close_remove_tabs, filter_ne_not_elem by done.
  rewrite decide_False by (by destruct (tabs w1)).
  unfold currentViewId.
  rewrite close_remove_tabs, close_remove_pointer, filter_ne_not_elem by done.
  repeat split. unfold close_remove. cbn zeta.
  rewrite destroyView_missing; by rewrite set_tabConfigs_views.
Qed.

Lemma close_tab_twice_witness :
  let w1 := channels 9 (close_tab 3) Sample.control Sample.three in
  let w2 := channels 10 (close_tab 3) Sample.control w1 in
  tabs w2 = tabs w1 ∧ currentViewId w2 = currentViewId w1 ∧ views w2 = views w1.
Proof.
  refine (close_tab_twice 9 10 Sample.control Sample.control 3 Sample.three
            three_well_formed three_fresh_9 _ _); lia.
Defined.

(** ** Activating a tab *)

Lemma well_formed_switchTab (id : TabID) w :
  well_formed w → id ∈ tabs w → well_formed (switchTab id w).
Proof.
  intros (Hnd & Hzero & Hptr) Hin.
  assert (id ≠ 0) as Hid by (intros ->; done).
  assert (tabs (switchTab id w) = tabs w
          ∧ defCurrentViewId (switchTab id w) = Some id) as [Ht Hp].
  { unfold switchTab. cbn zeta. case_match; autorewrite with frame;
      simpl; by rewrite truthy_true. }
  unfold well_formed, pointer_ok, currentViewId. by rewrite Ht, Hp.
Qed.

Section AllEvents.

Variable url_host : string → option string.

Lemma well_formed_step_in_order s w :
  match event s with
  | Ipc _ (switch_tab id) => id ∈ tabs w
  | _ => True
  end →
  well_formed w → fresh_for w (fresh_id s) → well_formed (step url_host s w).
Proof.
  intros Hev Hwf Hfresh.
  destruct (event s) as [e c| | |] eqn:Hs;
    try (apply well_formed_step; [by rewrite Hs|done..]).
  destruct c; try (apply well_formed_step; [by rewrite Hs|done..]).
  unfold step, dispatch. rewrite Hs. destruct (controlView w); [|done].
  case_decide; [|done]. by apply well_formed_switchTab.
Qed.

(** X6. From the constructed state, along every sequence of events (IPC
    commands, session signals, window-open requests, history changes) in
    which the runtime hands out fresh ids and every ['switch-tab'] names a
    tab of the order, after each event the order holds distinct non-zero ids
    and the active pointer is absent with an empty order or a member of it. *)
Theorem well_formed_after_every_event o size control steps :
  allocates_fresh url_host steps (constructed o size control) →
  switches_in_order url_host steps (constructed o size control) →
  ∀ n : nat, well_formed (run url_host (take n steps) (constructed o size control)).
Proof.
  generalize (well_formed_constructed o size control).
  generalize (constructed o size control). intros w Hwf Hfresh Hsw n.
  revert w n Hwf Hfresh Hsw.
  induction steps as [|s steps IH]; intros w n Hwf Hfresh Hsw.
  - by rewrite take_nil.
  - destruct n as [|n]; [done|]. simpl.
    destruct Hfresh as [Hf Hfresh]. destruct Hsw as [Hs Hsw].
    apply IH; [|done..]. by apply well_formed_step_in_order.
Qed.

End AllEvents.

Lemma set_currentViewId_log_no_view (id : TabID) w :
  get (views w) id = None → id ≠ 0 →
  log (set_currentViewId (Some id) w)
  = log w ++ [Layout None]
          ++ match ipc w with
             | Some _ => [Reply (active_update (Some id))]
             | None => []
             end.
Proof.
  intros Hget Hid. unfold set_currentViewId, reply, setContentBounds.
  rewrite (currentView_at (with_defCurrentViewId (Some id) w) id) by done.
  simpl. rewrite Hget. destruct (contentSize w). simpl.
  destruct (ipc w); simpl; [by rewrite <- app_assoc|done].
Qed.

(** X7. Activating a real id that has no live view (a closed tab, an id
    never created) still moves the active pointer to it: the view shown
    before is detached, nothing is attached or focused, the layout pass has
    no view to place, and the control surface is told the id is active;
    afterwards there is no current view, so [loadURL] does nothing. *)
Theorem switchTab_without_view (id : TabID) w :
  id ≠ 0 → get (views w) id = None →
  let w' := switchTab id w in
  currentViewId w' = Some id ∧ currentView w' = None ∧ tabs w' = tabs w
  ∧ log w' = log w
             ++ from_option (λ cv, [RemoveBrowserView (view_id cv)]) [] (currentView w)
             ++ [Layout None]
             ++ match ipc w with
                | Some _ => [Reply (active_update (Some id))]
                | None => []
                end
  ∧ ∀ u, loadURL u w' = w'.
Proof.
  intros Hid Hget w'.
  assert (currentView w' = None) as Hcv.
  { unfold w', switchTab. cbn zeta.
    assert (currentView (setCurrentView (Some id) w) = None) as H
      by (by rewrite currentView_setCurrentView).
    by rewrite H. }
  assert (w' = setCurrentView (Some id) w) as Hw'.
  { unfold w', switchTab. cbn zeta.
    by rewrite currentView_setCurrentView, Hget by done. }
  split; [|split; [done|split; [|split]]].
  - rewrite Hw'. unfold currentViewId. rewrite setCurrentView_pointer. simpl.
    by rewrite truthy_true.
  - rewrite Hw'. apply setCurrentView_tabs.
  - rewrite Hw'. unfold setCurrentView. rewrite truthy_true by done.
    destruct (currentView w) as [cv|]; cbn [from_option].
    + rewrite effect_views, Hget, set_currentViewId_log_no_view by done.
      rewrite effect_log, effect_ipc. by rewrite <- !app_assoc.
    + rewrite Hget. by apply set_currentViewId_log_no_view.
  - intros u. unfold loadURL. by rewrite Hcv.
Qed.

Lemma switchTab_without_view_witness :
  let w' := switchTab 7 Sample.three in
  currentViewId w' = Some 7 ∧ currentView w' = None ∧ tabs w' = tabs Sample.three
  ∧ log w' = log Sample.three
             ++ from_option (λ cv, [RemoveBrowserView (view_id cv)]) []
                  (currentView Sample.three)
             ++ [Layout None]
             ++ match ipc Sample.three with
                | Some _ => [Reply (active_update (Some 7))]
                | None => []
                end
  ∧ ∀ u, loadURL u w' = w'.
Proof.
  refine (switchTab_without_view 7 Sample.three _ _); [lia|].
  vm_compute. reflexivity.
Defined.

(** ** Creation leaves the other tabs alone *)

Lemma sublist_splice_insert {A} (i : Z) (x : A) (l : list A) :
  l `sublist_of` splice_insert i x l.
Proof.
  unfold splice_insert. cbn zeta. set (n := Z.to_nat _).
  rewrite <- (take_drop n l) at 1.
  apply sublist_app; [done|]. by apply sublist_cons.
Qed.

(** X8. A creation with a real id keeps the tabs that were in the order, in
    their order, and adds exactly one; the view and the record of every
    other id are what they were. *)
Theorem newTab_keeps_other_tabs fresh u a w :
  fresh ≠ 0 →
  let w' := newTab fresh u a w in
  tabs w `sublist_of` tabs w'
  ∧ length (tabs w') = S (length (tabs w))
  ∧ fresh ∈ tabs w'
  ∧ ∀ j : TabID, j ≠ fresh →
      get (views w') j = get (views w) j ∧ get (tabConfigs w') j = get (tabConfigs w) j.
Proof.
  intros Hfresh w'. unfold w'. rewrite newTab_tabs.
  split; [|split; [|split]].
  - destruct (truthy_opt a); [apply sublist_splice_insert|by apply sublist_inserts_r].
  - destruct (truthy_opt a).
    + by rewrite splice_insert_perm.
    + rewrite length_app. simpl. lia.
  - destruct (truthy_opt a).
    + rewrite splice_insert_perm. apply elem_of_cons. by left.
    + rewrite elem_of_app, list_elem_of_singleton. by right.
  - intros j Hj. split; [by apply newTab_views_ne|].
    unfold tabConfigs, get. by rewrite newTab_confs_ne.
Qed.

Lemma newTab_keeps_other_tabs_witness :
  let w' := newTab 9 (Some "https://a.test/") (Some 2) Sample.three in
  tabs Sample.three `sublist_of` tabs w'
  ∧ length (tabs w') = S (length (tabs Sample.three))
  ∧ 9 ∈ tabs w'
  ∧ ∀ j : TabID, j ≠ 9 →
      get (views w') j = get (views Sample.three) j
      ∧ get (tabConfigs w') j = get (tabConfigs Sample.three) j.
Proof.
  refine (newTab_keeps_other_tabs 9 (Some "https://a.test/") (Some 2) Sample.three _).
  lia.
Defined.

(** ** The order, the live views and the records agree *)

Section OrderIsLive.
Implicit Types (w : BrowserLikeWindow) (id fresh : TabID).

Lemma order_is_live_same w w' :
  tabs w' = tabs w →
  (∀ id, is_Some (get (views w) id) → is_Some (get (views w') id)) →
  (∀ id, is_Some (get (tabConfigs w) id) → is_Some (get (tabConfigs w') id)) →
  order_is_live w → order_is_live w'.
Proof.
  intros Ht Hv Hc Hw id Hin. rewrite Ht in Hin. destruct (Hw id Hin). split; auto.
Qed.

Lemma update_webContents_is_Some k f w id :
  is_Some (get (views w) id) → is_Some (get (views (update_webContents k f w)) id).
Proof.
  intros Hid. unfold update_webContents.
  destruct (get (views w) k) as [v|] eqn:Hk; [|done]. simpl.
  destruct (decide (k = id)) as [->|Hne]; [by rewrite get_insert|].
  by rewrite get_insert_ne.
Qed.

Lemma loadURL_is_Some u w id :
  is_Some (get (views w) id) → is_Some (get (views (loadURL u w)) id).
Proof.
  intros Hid. rewrite loadURL_views. repeat case_match; try done;
    by apply update_webContents_is_Some.
Qed.

Lemma setTabConfig_is_Some k kv w id :
  is_Some (get (tabConfigs w) id) → is_Some (get (tabConfigs (setTabConfig k kv w)) id).
Proof.
  intros Hid. destruct (decide (k = id)) as [->|Hne].
  - by rewrite setTabConfig_record.
  - unfold get. by rewrite setTabConfig_other.
Qed.

Lemma order_is_live_setTabConfig k kv w :
  order_is_live w → order_is_live (setTabConfig k kv w).
Proof.
  apply order_is_live_same; [by autorewrite with frame| |].
  - intros id. by rewrite setTabConfig_views.
  - intros id. apply setTabConfig_is_Some.
Qed.

Lemma order_is_live_loadURL u w : order_is_live w → order_is_live (loadURL u w).
Proof.
  apply order_is_live_same; [by autorewrite with frame| |].
  - intros id. apply loadURL_is_Some.
  - intros id. unfold tabConfigs. by rewrite loadURL_confs.
Qed.

Lemma order_is_live_newTab fresh u a w :
  order_is_live w → order_is_live (newTab fresh u a w).
Proof.
  intros Hw id Hin.
  assert (id = fresh ∨ id ∈ tabs w) as Hid.
  { rewrite newTab_tabs in Hin. destruct (truthy_opt a).
    - by rewrite splice_insert_perm, elem_of_cons in Hin.
    - rewrite elem_of_app, list_elem_of_singleton in Hin. tauto. }
  assert (id = fresh ∨ is_Some (get (views w) id) ∧ is_Some (get (tabConfigs w) id))
    as Hlive by (destruct Hid; [by left|right; by apply Hw]).
  clear Hin Hid. unfold newTab. cbn [view_id new_view]. cbn zeta.
  set (w1 := with_views _ _).
  assert (is_Some (get (views w1) id) ∧ defTabConfigs w1 = defTabConfigs w)
    as [Hv1 Hc1].
  { unfold w1. split; [|by destruct (truthy_opt a)]. simpl.
    destruct (decide (fresh = id)) as [->|Hne]; [by rewrite get_insert|].
    rewrite get_insert_ne by done. destruct Hlive as [?|[Hv _]]; [congruence|].
    by destruct (truthy_opt a). }
  set (w2 := effect _ (setCurrentView _ w1)).
  assert (is_Some (get (views w2) id) ∧ defTabConfigs w2 = defTabConfigs w)
    as [Hv2 Hc2].
  { unfold w2. by autorewrite with frame. }
  set (w3 := if nonempty_opt u then _ else w2).
  assert (is_Some (get (views w3) id) ∧ defTabConfigs w3 = defTabConfigs w)
    as [Hv3 Hc3].
  { unfold w3. destruct (nonempty_opt u); [|done].
    split; [by apply loadURL_is_Some|by rewrite loadURL_confs]. }
  unfold tabConfigs. rewrite effect_views, effect_confs, setTabConfig_views.
  split; [done|].
  destruct (decide (id = fresh)) as [->|Hne].
  - pose proof (setTabConfig_record fresh) as H. unfold tabConfigs in H. by rewrite H.
  - apply setTabConfig_is_Some. unfold tabConfigs. rewrite Hc3.
    destruct Hlive as [?|[_ Hc]]; [congruence|done].
Qed.

Lemma order_is_live_close_remove id w :
  order_is_live w → order_is_live (close_remove id w).
Proof.
  intros Hw j Hin. rewrite close_remove_tabs, list_elem_of_filter in Hin.
  destruct Hin as [Hne Hin]. destruct (Hw j Hin) as [Hv Hc].
  unfold close_remove, tabConfigs. cbn zeta.
  rewrite destroyView_get_ne, destroyView_confs by done.
  rewrite set_tabConfigs_views, set_tabConfigs_confs. simpl.
  rewrite get_insert_ne by done. done.
Qed.

Lemma order_is_live_channels fresh c e w :
  order_is_live w → order_is_live (channels fresh c e w).
Proof.
  intros Hw. destruct c; cbn [channels]; cbn zeta.
  - apply (order_is_live_same (newTab fresh (Some (default "" (startPage (options w))))
                                 None (with_ipc (Some e) w))); [done..|].
    by apply order_is_live_newTab.
  - destruct (truthy_opt _); [by apply order_is_live_setTabConfig|done].
  - by apply order_is_live_loadURL.
  - by apply order_is_live_newTab.
  - apply (order_is_live_same w); [| | |done]; unfold switchTab, tabConfigs; cbn zeta;
      intros; case_match; by autorewrite with frame.
  - assert (order_is_live (close_remove id (close_reassign id w))) as H.
    { apply order_is_live_close_remove.
      apply (order_is_live_same w); [| | |done]; unfold tabConfigs; intros;
        by autorewrite with frame. }
    case_decide; [by apply order_is_live_newTab|done].
Qed.

Lemma order_is_live_handler id o w : order_is_live w → order_is_live (handler id o w).
Proof.
  intros Hw. destruct o as [|h ip isMainFrame|h|t|favicons| |]; simpl;
    try by apply order_is_live_setTabConfig.
  - destruct isMainFrame; [|done].
    apply (order_is_live_same (setTabConfig id (patch_url_href h) w)); [done..|].
    by apply order_is_live_setTabConfig.
  - by apply (order_is_live_same w).
Qed.

Lemma order_is_live_fire key o w : order_is_live w → order_is_live (fire key o w).
Proof.
  unfold fire. destruct (get (views w) key) as [v|]; [|done].
  generalize (wc_listeners (webContents v)). clear v. intros ls. revert w.
  induction ls as [|l ls IH]; intros w Hw; simpl; [done|].
  apply IH. case_decide; [by apply order_is_live_handler|done].
Qed.

Variable url_host : string → option string.

Lemma order_is_live_step s w : order_is_live w → order_is_live (step url_host s w).
Proof.
  intros Hw. unfold step. destruct (event s) as [e c|key o|key d|key back fwd].
  - unfold dispatch. destruct (controlView w); [|done]. case_decide; [|done].
    by apply order_is_live_channels.
  - by apply order_is_live_fire.
  - unfold window_open. destruct (get (views w) key) as [v|]; [|done].
    destruct (wc_handler (webContents v)) as [[origin|h]|]; try done.
    unfold onNewWindow. destruct (url_host (hd_url d)) as [host|]; [|done].
    destruct (nonempty host); [|done]. case_decide; [done|].
    by apply order_is_live_newTab.
  - apply (order_is_live_same w); [by autorewrite with frame| | |done].
    + intros id. apply update_webContents_is_Some.
    + intros id. unfold tabConfigs. by rewrite update_webContents_confs.
Qed.

Lemma order_is_live_run steps w : order_is_live w → order_is_live (run url_host steps w).
Proof.
  revert w. induction steps as [|s steps IH]; intros w Hw; [done|].
  simpl. by apply IH, order_is_live_step.
Qed.

End OrderIsLive.

(** ** The views the manager holds are those of the tab order *)

Section Keyed.
Implicit Types (w : BrowserLikeWindow) (id fresh : TabID).

Lemma views_keyed_same w w' :
  (∀ id, is_Some (get (views w') id) → is_Some (get (views w) id)) →
  (∀ id, id ∈ tabs w → id ∈ tabs w') →
  views_keyed w → views_keyed w'.
Proof. intros Hv Ht Hw id Hid. by apply Ht, Hw, Hv. Qed.

Lemma update_webContents_is_Some_inv k f w id :
  is_Some (get (views (update_webContents k f w)) id) → is_Some (get (views w) id).
Proof.
  unfold update_webContents. destruct (get (views w) k) as [v|] eqn:Hk; [|done]. simpl.
  destruct (decide (k = id)) as [->|Hne]; [by rewrite Hk|].
  by rewrite get_insert_ne.
Qed.

Lemma views_keyed_update k f w : views_keyed w → views_keyed (update_webContents k f w).
Proof.
  apply views_keyed_same.
  - intros id. apply update_webContents_is_Some_inv.
  - intros id. by rewrite update_webContents_tabs.
Qed.

Lemma views_keyed_loadURL u w : views_keyed w → views_keyed (loadURL u w).
Proof.
  apply views_keyed_same.
  - intros id. rewrite loadURL_views. repeat case_match; try done;
      apply update_webContents_is_Some_inv.
  - intros id. by rewrite loadURL_tabs.
Qed.

Lemma views_keyed_newTab fresh u a w : views_keyed w → views_keyed (newTab fresh u a w).
Proof.
  intros Hw. unfold newTab. cbn [view_id new_view]. cbn zeta.
  set (w1 := with_views _ _).
  assert (views_keyed w1) as H1.
  { intros j. unfold w1.
    assert (∀ y, y ∈ tabs w ∨ y = fresh →
                 y ∈ tabs (if truthy_opt a
                           then with_tabs (splice_insert
                                  (indexOf (tabs w) (default 0 a) + 1) fresh (tabs w)) w
                           else with_tabs (tabs w ++ [fresh]) w)) as Hin.
    { intros y Hy. destruct (truthy_opt a); simpl.
      - rewrite splice_insert_perm, elem_of_cons. tauto.
      - rewrite elem_of_app, list_elem_of_singleton. tauto. }
    simpl. destruct (decide (fresh = j)) as [<-|Hne].
    - intros _. apply Hin. by right.
    - rewrite get_insert_ne by done.
      assert (views (if truthy_opt a
                     then with_tabs (splice_insert
                            (indexOf (tabs w) (default 0 a) + 1) fresh (tabs w)) w
                     else with_tabs (tabs w ++ [fresh]) w) = views w) as ->
        by (by destruct (truthy_opt a)).
      intros Hget. apply Hin. left. by apply Hw. }
  set (w2 := effect _ (setCurrentView _ w1)).
  assert (views_keyed w2) as H2.
  { apply (views_keyed_same w1); [| |done]; intros id; unfold w2;
      by autorewrite with frame. }
  apply (views_keyed_same (if nonempty_opt u then loadURL (default "" u) w2 else w2)).
  - intros id. by autorewrite with frame.
  - intros id. by autorewrite with frame.
  - destruct (nonempty_opt u); [by apply views_keyed_loadURL|done].
Qed.

Lemma views_keyed_close_remove id w : views_keyed w → views_keyed (close_remove id w).
Proof.
  intros Hw j Hget.
  destruct (decide (j = id)) as [->|Hne].
  { rewrite close_remove_view in Hget. by destruct Hget. }
  unfold close_remove in Hget. cbn zeta in Hget.
  rewrite destroyView_get_ne, set_tabConfigs_views in Hget by done. simpl in Hget.
  rewrite close_remove_tabs. apply list_elem_of_filter. split; [done|]. by apply Hw.
Qed.

Lemma views_keyed_channels fresh c e w :
  views_keyed w → views_keyed (channels fresh c e w).
Proof.
  intros Hw. destruct c; cbn [channels]; cbn zeta.
  - apply (views_keyed_same (newTab fresh (Some (default "" (startPage (options w))))
                               None (with_ipc (Some e) w))); [done..|].
    by apply views_keyed_newTab.
  - destruct (truthy_opt _); [|done].
    apply (views_keyed_same w); [| |done]; intros j; by autorewrite with frame.
  - by apply views_keyed_loadURL.
  - by apply views_keyed_newTab.
  - apply (views_keyed_same w); [| |done]; intros j; unfold switchTab; cbn zeta;
      case_match; by autorewrite with frame.
  - assert (views_keyed (close_remove id (close_reassign id w))) as H.
    { apply views_keyed_close_remove.
      apply (views_keyed_same w); [| |done]; intros j; by autorewrite with frame. }
    case_decide; [by apply views_keyed_newTab|done].
Qed.

Variable url_host : string → option string.

Lemma views_keyed_step s w : views_keyed w → views_keyed (step url_host s w).
Proof.
  intros Hw. unfold step. destruct (event s) as [e c|key o|key d|key back fwd].
  - unfold dispatch. destruct (controlView w); [|done]. case_decide; [|done].
    by apply views_keyed_channels.
  - apply (views_keyed_same w); [| |done]; intros j;
      by rewrite ?fire_views, ?fire_tabs.
  - unfold window_open. destruct (get (views w) key) as [v|]; [|done].
    destruct (wc_handler (webContents v)) as [[origin|h]|]; try done.
    unfold onNewWindow. destruct (url_host (hd_url d)) as [host|]; [|done].
    destruct (nonempty host); [|done]. case_decide; [done|].
    by apply views_keyed_newTab.
  - by apply views_keyed_update.
Qed.

Lemma order_is_live_update k f w :
  order_is_live w → order_is_live (update_webContents k f w).
Proof.
  apply order_is_live_same; [by autorewrite with frame| |].
  - intros id. apply update_webContents_is_Some.
  - intros id. unfold tabConfigs. by rewrite update_webContents_confs.
Qed.

Lemma agree_turn t w :
  views_keyed w ∧ order_is_live w →
  views_keyed (turn url_host t w) ∧ order_is_live (turn url_host t w).
Proof.
  intros [Hk Hl]. destruct t as [s|e actionName a]; simpl.
  - split; [by apply views_keyed_step|by apply order_is_live_step].
  - unfold act. destruct (controlView w); [|done]. case_decide; [|done].
    unfold webContentsAct. destruct (currentView w); [|done].
    destruct (currentViewId w); [|done]. destruct (callable a); [|done].
    destruct (_ && _); [done|].
    split; [by apply views_keyed_update|by apply order_is_live_update].
Qed.

(** X9. Until the window is closed, in every state it reaches, whatever the
    IPC messages (['act'] among them, whatever the method called does to the
    web contents), the session signals, the window-open requests, the
    history changes and the ids the runtime hands out: the ids under which
    the manager holds a view are exactly the ids of the tab order, and every
    tab of the order has a Tab record. *)
Theorem order_views_and_records_agree o size control turns :
  let w := session url_host turns (constructed o size control) in
  (∀ id : TabID, is_Some (get (views w) id) ↔ id ∈ tabs w)
  ∧ (∀ id : TabID, id ∈ tabs w → is_Some (get (tabConfigs w) id)).
Proof.
  intros w.
  assert (views_keyed w ∧ order_is_live w) as [Hin Hlive].
  { unfold w, session.
    assert (views_keyed (constructed o size control)
            ∧ order_is_live (constructed o size control)) as H0.
    { split.
      - intros id [v Hv]. unfold get in Hv. simpl in Hv. by rewrite lookup_empty in Hv.
      - intros id Hid. simpl in Hid. by apply elem_of_nil in Hid. }
    revert H0. generalize (constructed o size control).
    induction turns as [|t turns IH]; intros w0 H0; [done|].
    simpl. by apply IH, agree_turn. }
  split.
  - intros id. split; [apply Hin|]. intros Hid. by destruct (Hlive id Hid).
  - intros id Hid. by destruct (Hlive id Hid).
Qed.

End Keyed.

(** ** Session signals *)

Section Signals.
Implicit Types (w : BrowserLikeWindow) (id key fresh : TabID) (o : Occurrence).

(** The listeners of one wiring answer a signal by one listener body. *)
Lemma lifecycle_fires_once key o w :
  foldl (λ w l, if decide (on l = signal_of o) then handler (owner l) o w else w)
        w (lifecycle key)
  = handler key o w.
Proof. by destruct o. Qed.

Lemma fire_lifecycle key o w v :
  get (views w) key = Some v → wc_listeners (webContents v) = lifecycle key →
  fire key o w = handler key o w.
Proof.
  intros Hget Hls. unfold fire. rewrite Hget, Hls. apply lifecycle_fires_once.
Qed.


End Signals.


(** ** Merges accumulate *)

Lemma over_assoc {A} (a b c : Slot A) : over (over a b) c = over a (over b c).
Proof. by destruct c. Qed.

(** X11. Two merges into the record of one tab leave the records that a
    single merge of the two patches spread together would leave, except for
    the capabilities: [canGoBack] and [canGoForward] of the first patch are
    forgotten, the second merge takes them from the session again, or from
    its own patch. *)
Theorem setTabConfig_twice (id : TabID) kv1 kv2 w :
  tabConfigs (setTabConfig id kv2 (setTabConfig id kv1 w))
  = tabConfigs
      (setTabConfig id
         {| url := over (url kv1) (url kv2);
            href := over (href kv1) (href kv2);
            title := over (title kv1) (title kv2);
            favicon := over (favicon kv1) (favicon kv2);
            isLoading := over (isLoading kv1) (isLoading kv2);
            canGoBack := canGoBack kv2;
            canGoForward := canGoForward kv2 |} w).
Proof.
  pose proof (setTabConfig_record id kv1 w) as H1. unfold tabConfigs in *.
  unfold setTabConfig at 1 3. rewrite !set_tabConfigs_confs.
  unfold tabConfigs. rewrite setTabConfig_views, H1.
  unfold setTabConfig at 1. rewrite set_tabConfigs_confs, insert_insert_eq.
  unfold tabConfigs. f_equal. f_equal. rewrite !spread_undefined_eq. simpl.
  unfold spread. simpl. rewrite !over_assoc.
  f_equal; by destruct (canGoBack kv2), (canGoForward kv2).
Qed.

Section NavigationSignals.

Variable url_host : string → option string.

(** X12. For a view that carries the listeners [loadURL] registers for its
    id, in whatever state of the manager: after the signals of one page load
    (loading starts, the main frame starts navigating to [h], the title
    becomes [t], loading stops), the record of the tab has [url] and [href]
    at [h], the title [t], [isLoading] false, the capabilities of the
    session, and the favicon it had. *)
Theorem page_load_fills_record (key : TabID) v h isInPlace t (f1 f2 f3 f4 : TabID) w :
  get (views w) key = Some v → wc_listeners (webContents v) = lifecycle key →
  let w' := run url_host
              [ mkStep f1 (Session key on_did_start_loading);
                mkStep f2 (Session key (on_did_start_navigation h isInPlace true));
                mkStep f3 (Session key (on_page_title_updated t));
                mkStep f4 (Session key on_did_stop_loading) ] w in
  ∃ r, get (tabConfigs w') key = Some r
       ∧ url r = Value h ∧ href r = Value h ∧ title r = Value t
       ∧ isLoading r = Value false
       ∧ favicon r = favicon (default empty_tab (get (tabConfigs w) key))
       ∧ canGoBack r = Value (wc_canGoBack (webContents v))
       ∧ canGoForward r = Value (wc_canGoForward (webContents v)).
Proof.
  intros Hget Hls w'.
  assert (∀ w0 o, views w0 = views w → fire key o w0 = handler key o w0) as Hfire.
  { intros w0 o Hviews. apply (fire_lifecycle key o w0 v); [by rewrite Hviews|done]. }
  assert (∀ w0, views w0 = views w →
                live_canGoBack w0 key = wc_canGoBack (webContents v)
                ∧ live_canGoForward w0 key = wc_canGoForward (webContents v)) as Hlive.
  { intros w0 Hviews. unfold live_canGoBack, live_canGoForward.
    by rewrite Hviews, Hget. }
  unfold w', run, step. simpl.
  rewrite !Hfire by (by autorewrite with frame; rewrite ?handler_views).
  simpl. set (w1 := setTabConfig key (patch_isLoading true) w).
  set (w2 := effect _ (setTabConfig key (patch_url_href h) w1)).
  set (w3 := setTabConfig key (patch_title t) w2).
  assert (views w1 = views w) as Hv1 by apply setTabConfig_views.
  assert (views w2 = views w) as Hv2.
  { unfold w2. by rewrite effect_views, setTabConfig_views. }
  assert (views w3 = views w) as Hv3.
  { unfold w3. by rewrite setTabConfig_views. }
  pose proof (setTabConfig_record key (patch_isLoading true) w) as H1. fold w1 in H1.
  pose proof (setTabConfig_record key (patch_url_href h) w1) as H2.
  assert (tabConfigs w2 = tabConfigs (setTabConfig key (patch_url_href h) w1)) as E2
    by done.
  rewrite <- E2, H1 in H2.
  pose proof (setTabConfig_record key (patch_title t) w2) as H3. fold w3 in H3.
  rewrite H2 in H3.
  eexists. split; [rewrite setTabConfig_record, H3; reflexivity|].
  destruct (Hlive w3 Hv3) as [-> ->].
  simpl. repeat split.
Qed.

End NavigationSignals.

Lemma page_load_fills_record_witness :
  let w := run URL.host [mkStep 2 (Ipc Sample.control control_ready)] Sample.w0 in
  let w' := run URL.host
              [ mkStep 3 (Session 2 on_did_start_loading);
                mkStep 3 (Session 2 (on_did_start_navigation "https://start.test/"
                                       false true));
                mkStep 3 (Session 2 (on_page_title_updated "Start"));
                mkStep 3 (Session 2 on_did_stop_loading) ] w in
  ∃ r, get (tabConfigs w') 2 = Some r
       ∧ url r = Value "https://start.test/" ∧ href r = Value "https://start.test/"
       ∧ title r = Value "Start"
       ∧ isLoading r = Value false
       ∧ favicon r = favicon (default empty_tab (get (tabConfigs w) 2))
       ∧ canGoBack r = Value (wc_canGoBack (webContents Sample.view2))
       ∧ canGoForward r = Value (wc_canGoForward (webContents Sample.view2)).
Proof.
  refine (page_load_fills_record URL.host 2 Sample.view2
            "https://start.test/" false "Start" 3 3 3 3
            (run URL.host [mkStep 2 (Ipc Sample.control control_ready)] Sample.w0) _ _).
  - vm_compute. reflexivity.
  - reflexivity.
Defined.

(** X13. The listener of [page-favicon-updated] stores the first candidate:
    afterwards the favicon of the record reads as the head of the list,
    [undefined] for an empty list whatever favicon the record had; the
    address, the location, the title and the loading flag are untouched. *)
Theorem favicon_is_first_candidate (id : TabID) favicons w :
  let old := default empty_tab (get (tabConfigs w) id) in
  ∃ r, get (tabConfigs (handler id (on_page_favicon_updated favicons) w)) id = Some r
       ∧ read (favicon r) = head favicons
       ∧ url r = url old ∧ href r = href old ∧ title r = title old
       ∧ isLoading r = isLoading old.
Proof.
  intros old. simpl. eexists. split; [apply setTabConfig_record|].
  fold old. simpl. repeat split. by destruct favicons.
Qed.

Lemma well_formed_after_every_event_witness :
  well_formed (run URL.host (take 7 Sample.browsing) Sample.w0)
  ∧ well_formed (run URL.host (take 11 Sample.browsing) Sample.w0).
Proof.
  assert (∀ n : nat, well_formed (run URL.host (take n Sample.browsing) Sample.w0)) as H.
  { apply (well_formed_after_every_event URL.host Sample.opts (1024, 800) 1
             Sample.browsing).
    - cbn [allocates_fresh Sample.browsing]. unfold fresh_for.
      repeat split; apply (bool_decide_unpack _); vm_compute; exact I.
    - cbn [switches_in_order Sample.browsing event].
      repeat split; apply (bool_decide_unpack _); vm_compute; exact I. }
  split; apply H.
Defined.

(** ** The control surface shows what the manager holds *)

Section Tracking.
Implicit Types (w : BrowserLikeWindow) (id fresh : TabID) (m : Mirror).

Lemma deliver_app ns ns' m : deliver (ns ++ ns') m = deliver ns' (deliver ns m).
Proof. apply foldl_app. Qed.

Lemma tracks_refl w : tracks w w.
Proof. split; [done|]. exists []. split; [|done]. unfold delivered.
  destruct (ipc w); by rewrite app_nil_r. Qed.

Lemma tracks_trans w1 w2 w3 : tracks w1 w2 → tracks w2 w3 → tracks w1 w3.
Proof.
  intros (Hi1 & ns & Hn1 & Hs1) (Hi2 & ns' & Hn2 & Hs2). split; [congruence|].
  exists (ns ++ ns'). split.
  - rewrite Hn2, Hn1, <- app_assoc. unfold delivered. rewrite Hi1.
    by destruct (ipc w1).
  - intros m Hm. rewrite deliver_app. by apply Hs2, Hs1.
Qed.

(** Nothing said and nothing shown changed. *)
Lemma tracks_silent w w' :
  ipc w' = ipc w → notifications (log w') = notifications (log w) →
  defTabConfigs w' = defTabConfigs w → tabs w' = tabs w →
  defCurrentViewId w' = defCurrentViewId w → tracks w w'.
Proof.
  intros Hipc Hlog Hc Ht Hp. split; [done|]. exists []. split.
  - rewrite Hlog. unfold delivered. destruct (ipc w); by rewrite app_nil_r.
  - unfold shown, tabConfigs, currentViewId. simpl. by rewrite Hc, Ht, Hp.
Qed.

Lemma tracks_adds w w' ns n :
  adds w w' (delivered w ns) n → ipc w' = ipc w →
  (∀ m, shown w m → shown w' (deliver ns m)) → tracks w w'.
Proof.
  intros Hadds Hipc Hshown. split; [done|]. exists ns. split; [|done].
  by apply (adds_notifications _ _ _ n).
Qed.

Lemma shown_active w w' m v :
  shown w m → defTabConfigs w' = defTabConfigs w → tabs w' = tabs w →
  defCurrentViewId w' = v → shown w' (deliver [active_update v] m).
Proof.
  intros (Hc & Ht & _) Hc' Ht' Hp'. unfold shown, tabConfigs, currentViewId in *.
  simpl. by rewrite Hc', Ht', Hp'.
Qed.

Lemma shown_tabs w w' m confs ids :
  shown w m → defTabConfigs w' = confs → tabs w' = ids →
  defCurrentViewId w' = defCurrentViewId w →
  shown w' (deliver [tabs_update confs ids] m).
Proof.
  intros (_ & _ & Hp) Hc' Ht' Hp'. unfold shown, tabConfigs, currentViewId in *.
  simpl. by rewrite Hc', Ht', Hp'.
Qed.

Lemma tracks_effect e w : is_reply e = false → tracks w (effect e w).
Proof.
  intros He. apply tracks_silent; try done.
  rewrite effect_log, notifications_app. destruct e; try done; by rewrite app_nil_r.
Qed.

Lemma tracks_setTabConfig id kv w : tracks w (setTabConfig id kv w).
Proof.
  eapply tracks_adds; [apply adds_setTabConfig|apply setTabConfig_ipc|].
  intros m Hm. apply (shown_tabs w); by autorewrite with frame.
Qed.

Lemma tracks_setCurrentView v w : tracks w (setCurrentView v w).
Proof.
  destruct (truthy_opt v) eqn:Hv; [|rewrite setCurrentView_falsy by done; apply tracks_refl].
  destruct v as [id|]; [|done]. simpl in Hv.
  assert (id ≠ 0) as Hid by (intros ->; done).
  eapply tracks_adds; [by apply adds_setCurrentView|apply setCurrentView_ipc|].
  intros m Hm. apply (shown_active w); autorewrite with frame; try done.
  simpl. by rewrite truthy_true.
Qed.

Lemma tracks_loadURL u w : tracks w (loadURL u w).
Proof.
  apply tracks_silent; try by autorewrite with frame.
  pose proof (adds_notifications _ _ _ _ (adds_loadURL u w)) as H.
  by rewrite app_nil_r in H.
Qed.

Lemma tracks_update_webContents k f w : tracks w (update_webContents k f w).
Proof. apply tracks_silent; by autorewrite with frame. Qed.

(** A creation says all there is to show, whatever was shown before. *)
Lemma newTab_resyncs fresh u a w m :
  shown (newTab fresh u a w)
        (deliver [active_update (Some fresh);
                  tabs_update (tabConfigs (newTab fresh u a w))
                              (tabs (newTab fresh u a w))] m)
  ∨ fresh = 0.
Proof.
  destruct (decide (fresh = 0)) as [|Hfresh]; [by right|]. left.
  unfold shown, tabConfigs, currentViewId.
  cbn [deliver foldl registered render_channels m_tabs m_tabIDs m_activeID].
  by rewrite newTab_pointer, truthy_true.
Qed.

Lemma tracks_newTab fresh u a w : fresh ≠ 0 → tracks w (newTab fresh u a w).
Proof.
  intros Hfresh. eapply tracks_adds; [by apply adds_newTab|apply newTab_ipc|].
  intros m _. by destruct (newTab_resyncs fresh u a w m).
Qed.

Lemma tracks_close_remove id w : tracks w (close_remove id w).
Proof.
  eapply tracks_adds; [apply adds_close_remove|apply close_remove_ipc|].
  intros m Hm. apply (shown_tabs w); autorewrite with frame; try done.
  unfold close_remove. cbn zeta. by rewrite destroyView_confs, set_tabConfigs_confs.
Qed.

Lemma tracks_switchTab id w : tracks w (switchTab id w).
Proof.
  unfold switchTab. cbn zeta. pose proof (tracks_setCurrentView (Some id) w) as H.
  destruct (currentView _); [|exact H].
  eapply tracks_trans; [exact H|by apply tracks_effect].
Qed.

Lemma tracks_channels fresh c e w :
  fresh ≠ 0 → c ≠ control_ready → tracks w (channels fresh c e w).
Proof.
  intros Hfresh Hc. destruct c; try done; cbn [channels]; cbn zeta.
  - destruct (truthy_opt _); [apply tracks_setTabConfig|apply tracks_refl].
  - apply tracks_loadURL.
  - by apply tracks_newTab.
  - apply tracks_switchTab.
  - assert (tracks w (close_remove id (close_reassign id w))) as H.
    { eapply tracks_trans; [|apply tracks_close_remove].
      unfold close_reassign. case_decide; [apply tracks_setCurrentView|apply tracks_refl]. }
    case_decide; [|exact H]. eapply tracks_trans; [exact H|by apply tracks_newTab].
Qed.

Lemma tracks_handler id o w : tracks w (handler id o w).
Proof.
  destruct o as [|h ip isMainFrame|h|t|favicons| |]; simpl;
    try apply tracks_setTabConfig.
  - destruct isMainFrame; [|apply tracks_refl].
    eapply tracks_trans; [apply tracks_setTabConfig|by apply tracks_effect].
  - eapply tracks_trans; [apply tracks_setTabConfig|by apply tracks_effect].
  - by apply tracks_effect.
Qed.

Lemma tracks_fire key o w : tracks w (fire key o w).
Proof.
  unfold fire. destruct (get (views w) key) as [v|]; [|apply tracks_refl].
  generalize (wc_listeners (webContents v)). clear v. intros ls. revert w.
  induction ls as [|l ls IH]; intros w; simpl; [apply tracks_refl|].
  eapply tracks_trans; [|apply IH].
  case_decide; [apply tracks_handler|apply tracks_refl].
Qed.

Variable url_host : string → option string.

Lemma tracks_window_open fresh key d w :
  fresh ≠ 0 → tracks w (window_open url_host fresh key d w).
Proof.
  intros Hfresh. unfold window_open.
  destruct (get (views w) key) as [v|]; [|apply tracks_refl].
  destruct (wc_handler (webContents v)) as [[origin|h]|]; try apply tracks_refl.
  unfold onNewWindow. destruct (url_host (hd_url d)) as [host|]; [|apply tracks_refl].
  destruct (nonempty host); [|apply tracks_refl].
  case_decide; [apply tracks_refl|by apply tracks_newTab].
Qed.

(** The handshake brings the control surface up to date, whatever happened
    before it. *)
Lemma handshake_shown fresh e w :
  fresh ≠ 0 →
  let w' := channels fresh control_ready e w in
  ipc w' = Some e
  ∧ ∃ ns, notifications (log w') = notifications (log w) ++ ns
          ∧ ∀ m, shown w' (deliver ns m).
Proof.
  intros Hfresh w'. unfold w'. cbn [channels]. cbn zeta.
  set (w1 := with_ipc (Some e) w).
  set (u := Some (default "" (startPage (options w1)))).
  split; [by rewrite effect_ipc, newTab_ipc|].
  pose proof (adds_notifications _ _ _ _ (adds_newTab fresh u None w1 Hfresh)) as H.
  change (delivered w1 ?ns) with ns in H.
  change (notifications (log w1)) with (notifications (log w)) in H.
  eexists. split.
  - rewrite effect_log, notifications_app, H. apply app_nil_r.
  - intros m. destruct (newTab_resyncs fresh u None w1 m) as [Hs|?]; [|done].
    exact Hs.
Qed.

Lemma synced_step s w :
  fresh_id s ≠ 0 →
  (ipc w ≠ None → shown w (deliver (notifications (log w)) first_render)) →
  ipc (step url_host s w) ≠ None →
  shown (step url_host s w)
        (deliver (notifications (log (step url_host s w))) first_render).
Proof.
  intros Hfresh Hw.
  assert (∀ w', tracks w w' → ipc w' ≠ None →
                shown w' (deliver (notifications (log w')) first_render)) as Htracks.
  { intros w' (Hipc & ns & Hns & Hs) Hsome. rewrite Hipc in Hsome.
    rewrite Hns, deliver_app. unfold delivered.
    destruct (ipc w) eqn:Hi; [|done]. apply Hs, Hw. done. }
  unfold step. destruct (event s) as [e c|key o|key d|key back fwd].
  - unfold dispatch. destruct (controlView w); [|done]. case_decide; [|done].
    assert (c = control_ready ∨ c ≠ control_ready) as [->|Hc]
      by (destruct c; (by left) || (by right)).
    + intros _. destruct (handshake_shown (fresh_id s) e w Hfresh)
        as (_ & ns & Hns & Hs).
      rewrite Hns, deliver_app. apply Hs.
    + by apply Htracks, tracks_channels.
  - apply Htracks, tracks_fire.
  - by apply Htracks, tracks_window_open.
  - apply Htracks, tracks_update_webContents.
Qed.

(** X14. Once the handshake has captured the reply handle, and with real
    ids from the runtime, after every event a control surface that has
    received the manager's notifications in order ([useConnect]'s listeners)
    holds the manager's records, its tab order and its active tab. *)
Theorem mirror_shows_manager (opts : BrowserLikeWindowOptions) size control steps :
  Forall (λ s, fresh_id s ≠ 0) steps →
  let w := run url_host steps (constructed opts size control) in
  ipc w ≠ None →
  shown w (deliver (notifications (log w)) first_render).
Proof.
  intros Hfresh.
  cut (∀ w0, (ipc w0 ≠ None → shown w0 (deliver (notifications (log w0)) first_render)) →
             let w := run url_host steps w0 in
             ipc w ≠ None → shown w (deliver (notifications (log w)) first_render)).
  { intros H. apply H. done. }
  induction Hfresh as [|s steps Hs Hfresh IH]; intros w0 Hw0; [done|].
  simpl. apply IH. by apply synced_step.
Qed.

End Tracking.

Lemma mirror_shows_manager_witness :
  shown (run URL.host Sample.browsing Sample.w0)
        (deliver (notifications (log (run URL.host Sample.browsing Sample.w0)))
                 first_render).
Proof.
  refine (mirror_shows_manager URL.host Sample.opts (1024, 800) 1 Sample.browsing _ _).
  - repeat constructor; simpl; lia.
  - vm_compute. discriminate.
Defined.

(** X15. The listeners that [useConnect] registers are those of its first
    render, whose [tabs] is the empty object: whatever notifications arrive,
    every call of [onTabActive] is given [undefined], never a Tab. *)
Theorem onTabActive_never_gets_a_tab ns :
  Forall told_no_tab (m_calls (deliver ns first_render)).
Proof.
  cut (∀ m, Forall told_no_tab (m_calls m) →
            Forall told_no_tab (m_calls (deliver ns m))).
  { intros H. apply H. constructor. }
  induction ns as [|n ns IH]; intros m Hm; [done|].
  simpl. apply IH. destruct n as [v|confs ids]; simpl.
  - apply Forall_app. split; [done|]. constructor; [|constructor].
    simpl. by destruct v.
  - apply Forall_app. split; [done|]. by repeat constructor.
Qed.

(** ** Tearing the window down *)

Section Closed.
Implicit Types (w : BrowserLikeWindow) (id : TabID).



Variable url_host : string → option string.



End Closed.

(** ** What a new tab starts with *)

(** X17. A tab created without [appendTo], under a real id that has no
    record yet, goes to the end of the order and becomes active.  Its record
    holds the blank title and the capabilities [false]; the address, the
    location, the favicon and the loading flag are not there yet: they read
    [undefined] until the session signals fill them.  Its web contents is
    wired and navigated to the URL when one is given, and untouched
    otherwise. *)
Theorem newTab_starts_blank fresh u w :
  fresh ≠ 0 → get (tabConfigs w) fresh = None →
  let w' := newTab fresh u None w in
  tabs w' = tabs w ++ [fresh] ∧ currentViewId w' = Some fresh
  ∧ get (tabConfigs w') fresh
    = Some {| url := Absent; href := Absent;
              title := Value (match blankTitle (options w) with
                              | Some t => if nonempty t then t else "about:blank"
                              | None => "about:blank"
                              end);
              favicon := Absent; isLoading := Absent;
              canGoBack := Value false; canGoForward := Value false |}
  ∧ get (views w') fresh
    = Some (mkView fresh
              (if nonempty_opt u
               then mkWC true
                      (Some (match opt_onNewWindow (options w) with
                             | Some h => CustomHandler h
                             | None => DefaultHandler fresh
                             end))
                      (lifecycle fresh) [default "" u] false false
               else mkWC false None [] [] false false)).
Proof.
  intros Hfresh Hnone w'.
  assert (get (views w') fresh
          = Some (mkView fresh
                    (if nonempty_opt u
                     then wire (options w) fresh (default "" u) (webContents (new_view fresh))
                     else webContents (new_view fresh)))) as Hview
    by (by apply newTab_view).
  split; [apply newTab_tabs|]. split.
  { unfold currentViewId, w'. by rewrite newTab_pointer, truthy_true. }
  split; [|rewrite Hview; by destruct (nonempty_opt u)].
  unfold w', newTab. cbn [view_id new_view truthy_opt from_option]. cbn zeta.
  unfold tabConfigs at 1. rewrite effect_confs.
  set (w3 := if nonempty_opt u then _ else _).
  assert (defTabConfigs w3 = defTabConfigs w ∧ options w3 = options w
          ∧ views w3 = views w') as (Hc & Ho & Hv).
  { unfold w3, w', newTab. cbn [view_id new_view truthy_opt from_option]. cbn zeta.
    rewrite effect_views, setTabConfig_views.
    destruct (nonempty_opt u); by autorewrite with frame. }
  pose proof (setTabConfig_record fresh) as Hr. unfold tabConfigs in Hr.
  rewrite Hr, Ho. unfold live_canGoBack, live_canGoForward. rewrite Hc, Hv, Hview.
  unfold tabConfigs in Hnone. rewrite Hnone. by destruct (nonempty_opt u).
Qed.

Lemma newTab_starts_blank_witness :
  let w' := newTab 9 (Some "https://a.test/") None Sample.three in
  tabs w' = tabs Sample.three ++ [9] ∧ currentViewId w' = Some 9
  ∧ get (tabConfigs w') 9
    = Some {| url := Absent; href := Absent;
              title := Value (match blankTitle (options Sample.three) with
                              | Some t => if nonempty t then t else "about:blank"
                              | None => "about:blank"
                              end);
              favicon := Absent; isLoading := Absent;
              canGoBack := Value false; canGoForward := Value false |}
  ∧ get (views w') 9
    = Some (mkView 9
              (if nonempty_opt (Some "https://a.test/")
               then mkWC true
                      (Some (match opt_onNewWindow (options Sample.three) with
                             | Some h => CustomHandler h
                             | None => DefaultHandler 9
                             end))
                      (lifecycle 9) [default "" (Some "https://a.test/")] false false
               else mkWC false None [] [] false false)).
Proof.
  refine (newTab_starts_blank 9 (Some "https://a.test/") Sample.three _ _); [lia|].
  vm_compute. reflexivity.
Defined.

(** ** Every notification can be rendered *)

Section Payloads.
Implicit Types (w : BrowserLikeWindow) (id fresh : TabID).

Lemma sound_adds w w' ns n :
  adds w w' (delivered w ns) n → NoDup (tabs w') → order_is_live w' →
  Forall payload_ok (notifications (log w)) → Forall payload_ok ns → sound w'.
Proof.
  intros Hadds Hnd Hlive Hlog Hns. split; [done|]. split; [done|].
  rewrite (adds_notifications _ _ _ _ Hadds). apply Forall_app. split; [done|].
  unfold delivered. destruct (ipc w); [done|constructor].
Qed.

Lemma sound_silent w w' :
  notifications (log w') = notifications (log w) → tabs w' = tabs w →
  order_is_live w' → sound w → sound w'.
Proof. intros Hlog Ht Hlive (Hnd & _ & Hok). unfold sound. by rewrite Hlog, Ht. Qed.

(** The payload of the state itself. *)
Lemma payload_of_state w :
  NoDup (tabs w) → order_is_live w → payload_ok (tabs_update (tabConfigs w) (tabs w)).
Proof. intros Hnd Hlive. split; [done|]. intros id Hid. by destruct (Hlive id Hid). Qed.

Lemma sound_setTabConfig id kv w : sound w → sound (setTabConfig id kv w).
Proof.
  intros (Hnd & Hlive & Hok).
  assert (order_is_live (setTabConfig id kv w)) as Hlive'
    by (by apply order_is_live_setTabConfig).
  eapply sound_adds; [apply adds_setTabConfig| | |done|].
  - by rewrite setTabConfig_tabs.
  - done.
  - constructor; [|constructor]. rewrite <- (setTabConfig_tabs id kv w).
    apply payload_of_state; [by rewrite setTabConfig_tabs|done].
Qed.

Lemma sound_setCurrentView v w : sound w → sound (setCurrentView v w).
Proof.
  intros Hw. destruct (truthy_opt v) eqn:Hv;
    [|by rewrite setCurrentView_falsy].
  destruct v as [id|]; [|done]. simpl in Hv. destruct Hw as (Hnd & Hlive & Hok).
  eapply sound_adds; [apply adds_setCurrentView| | |done|].
  - intros ->. done.
  - by rewrite setCurrentView_tabs.
  - apply (order_is_live_same w); [| | |done]; unfold tabConfigs; intros;
      by autorewrite with frame.
  - by repeat constructor.
Qed.

Lemma sound_effect e w : is_reply e = false → sound w → sound (effect e w).
Proof.
  intros He Hw. apply (sound_silent w); try done; [|by destruct Hw as (_ & ? & _)].
  rewrite effect_log, notifications_app. destruct e; try done; apply app_nil_r.
Qed.

Lemma sound_loadURL u w : sound w → sound (loadURL u w).
Proof.
  intros Hw. apply (sound_silent w); [|apply loadURL_tabs| |done].
  - pose proof (adds_notifications _ _ _ _ (adds_loadURL u w)) as H.
    by rewrite app_nil_r in H.
  - apply order_is_live_loadURL. by destruct Hw as (_ & ? & _).
Qed.

Lemma sound_newTab fresh u a w : fresh_for w fresh → sound w → sound (newTab fresh u a w).
Proof.
  intros [Hfresh Hnot] (Hnd & Hlive & Hok).
  assert (NoDup (tabs (newTab fresh u a w))) as Hnd'.
  { rewrite newTab_tabs. destruct (truthy_opt a).
    - rewrite splice_insert_perm. by apply NoDup_cons.
    - rewrite <- Permutation_cons_append. by apply NoDup_cons. }
  assert (order_is_live (newTab fresh u a w)) as Hlive'
    by (by apply order_is_live_newTab).
  eapply sound_adds; [by apply adds_newTab|done..|].
  constructor; [done|]. constructor; [|constructor]. by apply payload_of_state.
Qed.

Lemma sound_close_remove id w : sound w → sound (close_remove id w).
Proof.
  intros (Hnd & Hlive & Hok).
  assert (NoDup (tabs (close_remove id w))) as Hnd'.
  { rewrite close_remove_tabs. by apply NoDup_filter. }
  assert (order_is_live (close_remove id w)) as Hlive'
    by (by apply order_is_live_close_remove).
  eapply sound_adds; [apply adds_close_remove|done..|].
  constructor; [|constructor].
  pose proof (payload_of_state _ Hnd' Hlive') as H.
  rewrite close_remove_tabs in H. unfold tabConfigs, close_remove in H. cbn zeta in H.
  by rewrite destroyView_confs, set_tabConfigs_confs in H.
Qed.

Lemma sound_channels fresh c e w :
  fresh_for w fresh → sound w → sound (channels fresh c e w).
Proof.
  intros Hfresh Hw. destruct c; cbn [channels]; cbn zeta.
  - apply sound_effect; [done|].
    apply sound_newTab; [done|]. by apply (sound_silent w); [..|destruct Hw as (_&?&_)|].
  - destruct (truthy_opt _); [by apply sound_setTabConfig|done].
  - by apply sound_loadURL.
  - by apply sound_newTab.
  - unfold switchTab. cbn zeta.
    case_match; [apply sound_effect; [done|]|]; by apply sound_setCurrentView.
  - assert (sound (close_remove id (close_reassign id w))) as H.
    { apply sound_close_remove. unfold close_reassign.
      case_decide; [by apply sound_setCurrentView|done]. }
    case_decide as Hempty; [|done]. apply sound_newTab; [|done].
    split; [by destruct Hfresh|].
    destruct (tabs (close_remove id (close_reassign id w))); [apply not_elem_of_nil|done].
Qed.

Lemma sound_handler id o w : sound w → sound (handler id o w).
Proof.
  intros Hw. destruct o as [|h ip isMainFrame|h|t|favicons| |]; simpl;
    try by apply sound_setTabConfig.
  - destruct isMainFrame; [|done]. apply sound_effect; [done|].
    by apply sound_setTabConfig.
  - apply sound_effect; [done|]. by apply sound_setTabConfig.
  - by apply sound_effect.
Qed.

Lemma sound_fire key o w : sound w → sound (fire key o w).
Proof.
  unfold fire. destruct (get (views w) key) as [v|]; [|done].
  generalize (wc_listeners (webContents v)). clear v. intros ls. revert w.
  induction ls as [|l ls IH]; intros w Hw; simpl; [done|].
  apply IH. case_decide; [by apply sound_handler|done].
Qed.

Variable url_host : string → option string.

Lemma sound_step s w :
  fresh_for w (fresh_id s) → sound w → sound (step url_host s w).
Proof.
  intros Hfresh Hw. unfold step. destruct (event s) as [e c|key o|key d|key back fwd].
  - unfold dispatch. destruct (controlView w); [|done]. case_decide; [|done].
    by apply sound_channels.
  - by apply sound_fire.
  - unfold window_open. destruct (get (views w) key) as [v|]; [|done].
    destruct (wc_handler (webContents v)) as [[origin|h]|]; try done.
    unfold onNewWindow. destruct (url_host (hd_url d)) as [host|]; [|done].
    destruct (nonempty host); [|done]. case_decide; [done|].
    by apply sound_newTab.
  - apply (sound_silent w); [by autorewrite with frame..| |done].
    destruct Hw as (_ & Hlive & _).
    apply (order_is_live_same w); [by autorewrite with frame| | |done].
    + intros id. apply update_webContents_is_Some.
    + intros id. unfold tabConfigs. by rewrite update_webContents_confs.
Qed.

(** X18. When the runtime hands out fresh ids, every [tabs-update] the
    manager has ever sent lists each tab once and carries a record for every
    tab it lists: the control surface never has to render a tab twice or a
    tab without record. *)
Theorem notifications_can_be_rendered (opts : BrowserLikeWindowOptions) size control
    steps :
  allocates_fresh url_host steps (constructed opts size control) →
  Forall payload_ok
    (notifications (log (run url_host steps (constructed opts size control)))).
Proof.
  intros Hfresh.
  cut (sound (run url_host steps (constructed opts size control)));
    [by intros (_ & _ & H)|].
  assert (sound (constructed opts size control)) as Hw.
  { split; [apply NoDup_nil_2|]. split; [|constructor].
    intros id Hid. simpl in Hid. by apply elem_of_nil in Hid. }
  revert Hfresh Hw. generalize (constructed opts size control).
  induction steps as [|s steps' IH]; intros w Hfresh Hw; [done|].
  destruct Hfresh as [Hf Hfresh]. simpl. apply IH; [done|]. by apply sound_step.
Qed.

End Payloads.

Lemma notifications_can_be_rendered_witness :
  Forall payload_ok (notifications (log (run URL.host Sample.browsing Sample.w0))).
Proof.
  refine (notifications_can_be_rendered URL.host Sample.opts (1024, 800) 1
            Sample.browsing _).
  cbn [allocates_fresh Sample.browsing]. unfold fresh_for.
  repeat split; apply (bool_decide_unpack _); vm_compute; exact I.
Defined.

(** ** Entering an address *)

(** X19. ['url-enter'] touches the web contents of the active view and
    nothing else: the order, the pointer and every record are as before (the
    address in the record changes only when the session signals arrive), no
    notification is sent, and the view of every tab that is not the active
    one is as before. *)
Theorem url_enter_touches_active_view_only fresh u e w :
  let w' := channels fresh (url_enter u) e w in
  tabs w' = tabs w ∧ currentViewId w' = currentViewId w
  ∧ tabConfigs w' = tabConfigs w
  ∧ notifications (produced w w') = []
  ∧ ∀ j : TabID, currentViewId w ≠ Some j → get (views w') j = get (views w) j.
Proof.
  cbn [channels]. cbn zeta. unfold currentViewId, tabConfigs.
  rewrite loadURL_tabs, loadURL_pointer, loadURL_confs.
  split; [done|]. split; [done|]. split; [done|]. split.
  - by destruct (adds_produced _ _ _ _ (adds_loadURL u w)).
  - intros j Hj. rewrite loadURL_views.
    destruct (currentView w) as [cv|]; [|done].
    destruct (currentViewId w) as [key|] eqn:Hkey; [|done].
    destruct (nonempty u); [|done]. apply update_webContents_get_ne.
    unfold currentViewId in Hkey. congruence.
Qed.
